(** * book_classificator: ISBN discovery and lazy book metadata

    A shallow embedding of [src/book_classificator.py].  Python [str] values
    are sequences of Unicode code points; the regular expression [_ISBN_RE]
    is kept as a syntax tree that reads like the pattern text and is run by a
    backtracking matcher with the priorities of Python's [re] module. *)

From Stdlib Require Import NArith List String Ascii Bool Lia.
From stdpp Require Import gmap strings list.

Local Open Scope N_scope.

(** ** Text *)

(** A Python [str]: a list of code points. *)
Abbreviation text := (list N).

(** A string literal of the source, as code points. *)
Definition str (s : string) : text :=
  List.map N_of_ascii (list_ascii_of_string s).

(** A one-character literal. *)
Definition chr (s : string) : N :=
  match str s with c :: _ => c | [] => 0 end.

(** What the interpreter's Unicode database and codecs decide.  The ASCII
    range is written out below; the tables beyond it, the case mappings of
    strings that leave ASCII and the UTF-8 decoder belong to the interpreter
    and are taken as given.  [uni_decimal_alnum]: a decimal digit is
    alphanumeric ([str.isalnum] is defined as
    [isalpha or isdecimal or isdigit or isnumeric]).  [uni_space_not_alnum]:
    whitespace is neither a letter nor a number. *)
Class Unicode := {
  uni_isdecimal : N -> bool;
  uni_isspace : N -> bool;
  uni_isalnum : N -> bool;
  uni_upper : text -> text;
  uni_lower : text -> text;
  decode_utf8_ignore : list N -> text;
  uni_decimal_alnum : forall c, uni_isdecimal c = true -> uni_isalnum c = true;
  uni_space_not_alnum : forall c, uni_isspace c = true -> uni_isalnum c = false
}.

Definition between (lo hi c : N) : bool := (lo <=? c) && (c <=? hi).

Definition is_ascii (c : N) : bool := c <? 128.

Definition ascii_isdecimal (c : N) : bool := between 48 57 c.

(** [str.isspace] on ASCII: TAB, LF, VT, FF, CR, FS, GS, RS, US and space. *)
Definition ascii_isspace (c : N) : bool :=
  between 9 13 c || between 28 32 c.

Definition ascii_isalnum (c : N) : bool :=
  between 48 57 c || between 65 90 c || between 97 122 c.

Definition ascii_upper (c : N) : N := if between 97 122 c then c - 32 else c.
Definition ascii_lower (c : N) : N := if between 65 90 c then c + 32 else c.

Section Text.
Context {U : Unicode}.

(** [\d] of a [str] pattern: a Unicode decimal digit. *)
Definition isdecimal (c : N) : bool :=
  if is_ascii c then ascii_isdecimal c else uni_isdecimal c.

(** [\s] of a [str] pattern: Unicode whitespace. *)
Definition isspace (c : N) : bool :=
  if is_ascii c then ascii_isspace c else uni_isspace c.

(** [\w] of a [str] pattern: alphanumeric or the underscore. *)
Definition isword (c : N) : bool :=
  (if is_ascii c then ascii_isalnum c else uni_isalnum c) || (c =? 95).

(** [s.upper()] and [s.lower()]. *)
Definition upper (s : text) : text :=
  if forallb is_ascii s then List.map ascii_upper s else uni_upper s.

Definition lower (s : text) : text :=
  if forallb is_ascii s then List.map ascii_lower s else uni_lower s.

End Text.

(** ** The [re] module, as far as the two patterns of the program use it *)

Module re.

(** A member of a bracketed character set. *)
Inductive citem :=
| IChar (c : N)            (* a literal character *)
| IRange (lo hi : N)       (* lo-hi *)
| IDigit                   (* \d *)
| ISpace.                  (* \s *)

(** What matches exactly one character. *)
Inductive atom :=
| AChar (c : N)            (* a literal character *)
| ASet (items : list citem)       (* [...] *)
| ANotSet (items : list citem).   (* [^...] *)

Inductive regex :=
| Empty
| One (a : atom)
| Repeat (lo : nat) (hi : option nat) (a : atom)  (* greedy a{lo,hi}; no hi: unbounded *)
| Maybe (r : regex)                               (* greedy (?:r)? *)
| Cat (r1 r2 : regex)
| Or (r1 r2 : regex)                              (* r1|r2, r1 tried first *)
| Capture (r : regex)                             (* ( r ), group 1 *)
| WordBoundary.                                   (* \b *)

(** The matcher's position in the subject: the characters behind it (nearest
    first), the characters ahead, and what group 1 holds. *)
Record mstate := MState {
  seen : text;
  rest : text;
  group1 : option text
}.

Section Matcher.
Context {U : Unicode}.

Definition item_mem (i : citem) (c : N) : bool :=
  match i with
  | IChar d => c =? d
  | IRange lo hi => between lo hi c
  | IDigit => isdecimal c
  | ISpace => isspace c
  end.

Definition atom_match (a : atom) (c : N) : bool :=
  match a with
  | AChar d => c =? d
  | ASet items => existsb (fun i => item_mem i c) items
  | ANotSet items => negb (existsb (fun i => item_mem i c) items)
  end.

(** [\b]: exactly one of the characters around the position is a word
    character (a missing neighbour counts as a non-word character). *)
Definition at_boundary (st : mstate) : bool :=
  let that := match seen st with c :: _ => isword c | [] => false end in
  let this := match rest st with c :: _ => isword c | [] => false end in
  negb (Bool.eqb this that).

Definition orelse {A} (x : option A) (y : option A) : option A :=
  match x with Some _ => x | None => y end.

(** Greedy repetition of an atom: take one more character when the atom and
    the upper bound allow it, and only when the rest of the pattern then
    fails, stop here (if the lower bound is met). *)
Fixpoint repeat_atom {A} (a : atom) (lo : nat) (hi : option nat)
    (k : mstate -> option A) (sn : text) (g : option text) (rs : text)
    : option A :=
  let stop := match lo with O => k (MState sn rs g) | S _ => None end in
  match hi, rs with
  | Some O, _ => stop
  | _, [] => stop
  | _, c :: rs' =>
      if atom_match a c
      then orelse (repeat_atom a (Nat.pred lo) (Nat.pred <$> hi) k (c :: sn) g rs')
                  stop
      else stop
  end.

(** The backtracking matcher, in continuation-passing style: [k] is the rest
    of the pattern; the first success in priority order is the answer. *)
Fixpoint run {A} (r : regex) (k : mstate -> option A) (st : mstate) : option A :=
  match r with
  | Empty => k st
  | One a =>
      match rest st with
      | c :: rs => if atom_match a c then k (MState (c :: seen st) rs (group1 st)) else None
      | [] => None
      end
  | Repeat lo hi a => repeat_atom a lo hi k (seen st) (group1 st) (rest st)
  | Maybe r1 => orelse (run r1 k st) (k st)
  | Cat r1 r2 => run r1 (run r2 k) st
  | Or r1 r2 => orelse (run r1 k st) (run r2 k st)
  | Capture r1 =>
      run r1 (fun st' =>
        k (MState (seen st') (rest st')
             (Some (rev (take (length (seen st') - length (seen st)) (seen st'))))))
        st
  | WordBoundary => if at_boundary st then k st else None
  end.

(** [pattern.search(s)]: the first start position, left to right, at which
    the pattern matches; the end of the string is a start position too. *)
Fixpoint search_from (r : regex) (sn rs : text) : option mstate :=
  match run r Some (MState sn rs None) with
  | Some m => Some m
  | None =>
      match rs with
      | c :: rs' => search_from r (c :: sn) rs'
      | [] => None
      end
  end.

Definition search (r : regex) (s : text) : option mstate := search_from r [] s.

(** [re.sub(a, '', s)] for a pattern [a] of one atom: every character the
    atom matches is deleted. *)
Definition sub_delete (a : atom) (s : text) : text :=
  List.filter (fun c => negb (atom_match a c)) s.

End Matcher.

(** Pattern syntax. *)
Definition lit (s : string) : regex :=
  fold_right (fun c r => Cat (One (AChar c)) r) Empty (str s).

Fixpoint seq (rs : list regex) : regex :=
  match rs with
  | [] => Empty
  | [r] => r
  | r :: rs' => Cat r (seq rs')
  end.

End re.

Import re.

(** ** The pattern matcher *)

(** The pieces of the pattern: "[-\s]?", *)
Definition sep_opt : regex := Repeat 0 (Some 1%nat) (ASet [IChar (chr "-"); ISpace]).
(** "\d{1,5}", "\d+" and "\d". *)
Definition digits_1_5 : regex := Repeat 1 (Some 5%nat) (ASet [IDigit]).
Definition digits_plus : regex := Repeat 1 None (ASet [IDigit]).
Definition digit : regex := One (ASet [IDigit]).

(** "(?: ISBN (?:-1[03])? :? \s* )?" *)
Definition isbn_prefix : regex :=
  Maybe (seq [lit "ISBN";
              Maybe (seq [lit "-1"; One (ASet [IChar (chr "0"); IChar (chr "3")])]);
              Repeat 0 (Some 1%nat) (AChar (chr ":"));
              Repeat 0 None (ASet [ISpace])]).

(** "(?:97[89][-\s]?\d{1,5}[-\s]?\d+[-\s]?\d+[-\s]?\d)" *)
Definition isbn13_body : regex :=
  seq [lit "97"; One (ASet [IChar (chr "8"); IChar (chr "9")]);
       sep_opt; digits_1_5; sep_opt; digits_plus; sep_opt; digits_plus;
       sep_opt; digit].

(** "(?:\d{1,5}[-\s]?\d+[-\s]?\d+[-\s]?[0-9Xx])" *)
Definition isbn10_body : regex :=
  seq [digits_1_5; sep_opt; digits_plus; sep_opt; digits_plus; sep_opt;
       One (ASet [IRange (chr "0") (chr "9"); IChar (chr "X"); IChar (chr "x")])].

Definition _ISBN_RE : regex :=
  seq [WordBoundary; isbn_prefix; Capture (Or isbn13_body isbn10_body);
       WordBoundary].

(** The tables of an interpreter whose text never leaves ASCII: nothing
    beyond ASCII is a digit, a space or alphanumeric.  Every [Unicode]
    instance agrees with it on ASCII text; the examples are run with it. *)
Definition ascii_tables : Unicode := {|
  uni_isdecimal := fun _ => false;
  uni_isspace := fun _ => false;
  uni_isalnum := fun _ => false;
  uni_upper := fun s => s;
  uni_lower := fun s => s;
  decode_utf8_ignore := fun s => List.filter is_ascii s;
  uni_decimal_alnum := fun c H => H;
  uni_space_not_alnum := fun c _ => eq_refl
|}.

Section PatternMatcher.
Context {U : Unicode}.

(** [re.sub(r'[^0-9Xx]', '', raw).upper()] *)
Definition _normalize_isbn (raw : text) : text :=
  upper (sub_delete (ANotSet [IRange (chr "0") (chr "9"); IChar (chr "X"); IChar (chr "x")]) raw).

End PatternMatcher.

(** ** Exceptions *)

(** An instance of [Exception]: what the libraries raise on a file they
    cannot open, parse or decode, and what [except Exception] catches. *)
Inductive exn := Exception (what : string).

Inductive outcome (A : Type) :=
| Ok (a : A)
| Raise (e : exn).
Arguments Ok {A} a.
Arguments Raise {A} e.

Section Find.
Context {U : Unicode}.

(** [Book._find_isbn_in_text].  [match.group(1)] is [None] for a group that
    took no part in the match, and [re.sub] raises [TypeError] on it. *)
Definition _find_isbn_in_text (t : text) : outcome (option text) :=
  match search _ISBN_RE t with
  | Some m =>
      match group1 m with
      | Some raw => Ok (Some (_normalize_isbn raw))
      | None => Raise (Exception "TypeError")
      end
  | None => Ok None
  end.

End Find.

(** ** Paths: [pathlib] *)

(** A [Path], parsed: the components before the last one, and the last one
    ([name], empty for a path that has none). *)
Record Path := { parents : list text; name : text }.

(** [s.rfind(c)], [None] for -1. *)
Fixpoint rfind (c : N) (s : text) : option nat :=
  match s with
  | [] => None
  | d :: s' =>
      match rfind c s' with
      | Some i => Some (S i)
      | None => if d =? c then Some O else None
      end
  end.

(** [Path.suffix]: the name from its last dot on, when that dot is neither
    the first nor the last character of the name. *)
Definition suffix (p : Path) : text :=
  match rfind (chr ".") (name p) with
  | Some i =>
      if ((0 <? i) && (i <? length (name p) - 1))%nat then drop i (name p) else []
  | None => []
  end.

(** ** The document libraries: [pypdf] and [ebooklib] *)

(** A [dict] with [str] keys. *)
Abbreviation dict V := (gmap text V).

(** [d.get(k)] of a dict whose values may be [None]. *)
Definition dict_get (d : dict (option text)) (k : text) : option text :=
  default None (d !! k).

(** A page: what [page.extract_text()] does (a [str], [None], or raises). *)
Record pdf_page := { extract_text : outcome (option text) }.

(** [reader.metadata] when it is not [None]: a [dict] (pypdf's
    [DocumentInformation] is one) or an object with attributes. *)
Inductive pdf_info :=
| InfoDict (d : dict text)
| InfoObject (attrs : dict text).

Record PdfReader := {
  reader_metadata : outcome (option pdf_info);
  reader_pages : outcome (list pdf_page)
}.

(** [ebooklib]'s item types. *)
Inductive item_type :=
| ITEM_UNKNOWN | ITEM_IMAGE | ITEM_STYLE | ITEM_SCRIPT | ITEM_NAVIGATION
| ITEM_VECTOR | ITEM_FONT | ITEM_VIDEO | ITEM_AUDIO | ITEM_DOCUMENT
| ITEM_COVER | ITEM_SMIL.

#[global] Instance item_type_eq_dec : EqDecision item_type.
Proof. solve_decision. Defined.

(** An item of an EPUB: its type and what [item.get_content()] does (bytes,
    or raises). *)
Record epub_item := { get_type : item_type; get_content : outcome (list N) }.

(** An opened EPUB: [book.get_metadata(namespace, name)] is a list of
    (value, attributes) pairs; [book.items]. *)
Record EpubBook := {
  get_metadata : text -> text -> outcome (list (option text * dict text));
  items : list epub_item
}.

(** [book.get_items_of_type(t)] *)
Definition get_items_of_type (book : EpubBook) (t : item_type) : list epub_item :=
  List.filter (fun item => bool_decide (get_type item = t)) (items book).

(** The files, as the libraries see them at one moment: what opening the
    file at a path does. *)
Record filesystem := {
  open_PdfReader : Path -> outcome PdfReader;
  open_read_epub : Path -> outcome EpubBook
}.

(** What a computation does that can be seen from outside. *)
Inductive event :=
| EvPdfReader (p : Path)            (* pypdf.PdfReader(str(p)) *)
| EvReadEpub (p : Path)             (* epub.read_epub(str(p)) *)
| EvExtractText (i : nat)           (* extract_text() of the i-th page scanned *)
| EvGetContent (i : nat)            (* get_content() of the i-th document item *)
| EvDebug (msg : string) (e : exn). (* logger.debug(msg, e) *)

(** Opening a file is a call into an adapter's library. *)
Definition is_open (ev : event) : bool :=
  match ev with EvPdfReader _ | EvReadEpub _ => true | _ => false end.

(** ** The Book object *)

(** A [Book] instance: the [filepath] field and, per [cached_property], the
    entry of the instance's [__dict__] (absent until first computed). *)
Record Book := {
  filepath : Path;
  cached_format : option text;
  cached_metadata : option (dict (option text));
  cached_title : option (option text);
  cached_author : option (option text);
  cached_isbn : option (option text)
}.

(** [Book(filepath)] *)
Definition new_Book (p : Path) : Book :=
  {| filepath := p; cached_format := None; cached_metadata := None;
     cached_title := None; cached_author := None; cached_isbn := None |}.

(** The state a method runs in: the instance and the events so far. *)
Record machine := Machine { self : Book; trace : list event }.

(** A method body: it reads the files, may update the instance and add
    events, and returns or raises. *)
Definition M (A : Type) : Type := filesystem -> machine -> outcome A * machine.

#[global] Instance M_ret : MRet M := fun A a _ m => (Ok a, m).
#[global] Instance M_bind : MBind M := fun A B f c fs m =>
  match c fs m with
  | (Ok a, m') => f a fs m'
  | (Raise e, m') => (Raise e, m')
  end.

Definition raise {A} (e : exn) : M A := fun _ m => (Raise e, m).

(** The result of a library call or of a pure step that may raise. *)
Definition lift {A} (o : outcome A) : M A := fun _ m => (o, m).

Definition emit (ev : event) : M () :=
  fun _ m => (Ok (), Machine (self m) (trace m ++ [ev])).

Definition get_self : M Book := fun _ m => (Ok (self m), m).
Definition files : M filesystem := fun fs m => (Ok fs, m).

(** [try: body  except Exception as exc: handler exc] *)
Definition try_except {A} (body : M A) (handler : exn -> M A) : M A :=
  fun fs m =>
    match body fs m with
    | (Raise e, m') => handler e fs m'
    | r => r
    end.

(** [for x in xs: body], where the body may [return]: [Some r] is the value
    returned from inside the loop, [None] a loop that ran to its end.  The
    body is told the position of [x] in the sequence. *)
Fixpoint for_each {X R} (body : nat -> X -> M (option R)) (i : nat) (xs : list X)
    : M (option R) :=
  match xs with
  | [] => mret None
  | x :: xs' =>
      r ← body i x;
      match r with
      | Some v => mret (Some v)
      | None => for_each body (S i) xs'
      end
  end.

(** One slot of the instance's [__dict__]. *)
Record slot (A : Type) := {
  slot_get : Book -> option A;
  slot_set : A -> Book -> Book
}.
Arguments slot_get {A} s b.
Arguments slot_set {A} s a b.

(** [functools.cached_property]: the stored value when the instance has one;
    otherwise the function is called and its result stored.  Nothing is
    stored when the function raises. *)
Definition cached_property {A} (s : slot A) (f : M A) : M A :=
  fun fs m =>
    match slot_get s (self m) with
    | Some v => (Ok v, m)
    | None =>
        match f fs m with
        | (Ok v, m') => (Ok v, Machine (slot_set s v (self m')) (trace m'))
        | (Raise e, m') => (Raise e, m')
        end
    end.

Definition format_slot : slot text := {|
  slot_get := cached_format;
  slot_set := fun v b =>
    {| filepath := filepath b; cached_format := Some v;
       cached_metadata := cached_metadata b; cached_title := cached_title b;
       cached_author := cached_author b; cached_isbn := cached_isbn b |}
|}.

Definition metadata_slot : slot (dict (option text)) := {|
  slot_get := cached_metadata;
  slot_set := fun v b =>
    {| filepath := filepath b; cached_format := cached_format b;
       cached_metadata := Some v; cached_title := cached_title b;
       cached_author := cached_author b; cached_isbn := cached_isbn b |}
|}.

Definition title_slot : slot (option text) := {|
  slot_get := cached_title;
  slot_set := fun v b =>
    {| filepath := filepath b; cached_format := cached_format b;
       cached_metadata := cached_metadata b; cached_title := Some v;
       cached_author := cached_author b; cached_isbn := cached_isbn b |}
|}.

Definition author_slot : slot (option text) := {|
  slot_get := cached_author;
  slot_set := fun v b =>
    {| filepath := filepath b; cached_format := cached_format b;
       cached_metadata := cached_metadata b; cached_title := cached_title b;
       cached_author := Some v; cached_isbn := cached_isbn b |}
|}.

Definition isbn_slot : slot (option text) := {|
  slot_get := cached_isbn;
  slot_set := fun v b =>
    {| filepath := filepath b; cached_format := cached_format b;
       cached_metadata := cached_metadata b; cached_title := cached_title b;
       cached_author := cached_author b; cached_isbn := Some v |}
|}.

(** Truth value of an [Optional[str]]: [None] and the empty string are false. *)
Definition truthy (o : option text) : bool :=
  match o with Some (_ :: _) => true | _ => false end.

(** [a or b] *)
Definition py_or (a b : option text) : option text := if truthy a then a else b.

(** [s[:stop]] *)
Definition slice_to {A} (stop : Z) (l : list A) : list A :=
  if (stop <? 0)%Z then take (Z.to_nat (Z.of_nat (length l) + stop)) l
  else take (Z.to_nat stop) l.

(** The library calls that open a file. *)
Definition PdfReader_ (p : Path) : M PdfReader :=
  emit (EvPdfReader p);; fs ← files; lift (open_PdfReader fs p).

Definition read_epub (p : Path) : M EpubBook :=
  emit (EvReadEpub p);; fs ← files; lift (open_read_epub fs p).

Definition logger_debug (msg : string) (exc : exn) : M () := emit (EvDebug msg exc).

Section BookMethods.
Context {U : Unicode}.

Definition _extract_pdf_metadata : M (dict (option text)) :=
  try_except
    (this ← get_self;
     reader ← PdfReader_ (filepath this);
     md ← lift (reader_metadata reader);
     (* info = reader.metadata or {} *)
     let info :=
       match md with
       | Some (InfoDict d) => if bool_decide (d = ∅) then InfoDict ∅ else InfoDict d
       | Some (InfoObject attrs) => InfoObject attrs
       | None => InfoDict ∅
       end in
     (* info.get(k) if isinstance(info, dict) else getattr(info, k, None) *)
     let get k :=
       match info with
       | InfoDict d => d !! str k
       | InfoObject attrs => attrs !! str k
       end in
     mret ({[ str "title" := py_or (get "/Title") (get "title");
              str "author" := py_or (get "/Author") (get "author") ]}
           : dict (option text)))
    (fun exc => logger_debug "PDF metadata error: %s" exc;; mret ∅).

Definition _extract_epub_metadata : M (dict (option text)) :=
  try_except
    (this ← get_self;
     book ← read_epub (filepath this);
     (* (get_metadata('DC', name) or [None])[0][0] if get_metadata('DC', name) else None *)
     let meta name : M (option text) :=
       cond ← lift (get_metadata book (str "DC") (str name));
       match cond with
       | _ :: _ =>
           l ← lift (get_metadata book (str "DC") (str name));
           match l with
           | (v, _) :: _ => mret v
           | [] => raise (Exception "TypeError")
           end
       | [] => mret None
       end in
     title ← meta "title";
     author ← meta "creator";
     mret ({[ str "title" := title; str "author" := author ]} : dict (option text)))
    (fun exc => logger_debug "EPUB metadata error: %s" exc;; mret ∅).

Definition _extract_isbn_from_pdf (max_pages : Z) : M (option text) :=
  returned ←
    try_except
      (this ← get_self;
       reader ← PdfReader_ (filepath this);
       pages ← lift (reader_pages reader);
       for_each (fun i page =>
           emit (EvExtractText i);;
           extracted ← lift (extract_text page);
           (* page.extract_text() or '' *)
           isbn ← lift (_find_isbn_in_text (default [] (py_or extracted (Some []))));
           mret (if truthy isbn then Some isbn else None))
         0 (slice_to max_pages pages))
      (fun exc => logger_debug "PDF ISBN error: %s" exc;; mret None);
  mret (default None returned).

Definition _extract_isbn_from_epub : M (option text) :=
  returned ←
    try_except
      (this ← get_self;
       book ← read_epub (filepath this);
       for_each (fun i item =>
           emit (EvGetContent i);;
           content ← lift (get_content item);
           isbn ← lift (_find_isbn_in_text (decode_utf8_ignore content));
           mret (if truthy isbn then Some isbn else None))
         0 (get_items_of_type book ITEM_DOCUMENT))
      (fun exc => logger_debug "EPUB ISBN error: %s" exc;; mret None);
  mret (default None returned).

(** The cached properties. *)

Definition formats : dict text :=
  {[ str ".pdf" := str "PDF"; str ".epub" := str "EPUB" ]}.

Definition format : M text :=
  cached_property format_slot
    (this ← get_self;
     mret (default (str "Unknown") (formats !! lower (suffix (filepath this))))).

Definition metadata : M (dict (option text)) :=
  cached_property metadata_slot
    (let extractors : dict (M (dict (option text))) :=
       {[ str "PDF" := _extract_pdf_metadata; str "EPUB" := _extract_epub_metadata ]} in
     fmt ← format;
     default (mret ∅) (extractors !! fmt)).

Definition title : M (option text) :=
  cached_property title_slot (md ← metadata; mret (dict_get md (str "title"))).

Definition author : M (option text) :=
  cached_property author_slot (md ← metadata; mret (dict_get md (str "author"))).

Definition isbn : M (option text) :=
  cached_property isbn_slot
    (let extractors : dict (M (option text)) :=
       {[ str "PDF" := _extract_isbn_from_pdf 10; str "EPUB" := _extract_isbn_from_epub ]} in
     fmt ← format;
     default (mret None) (extractors !! fmt)).

(** [__str__]: "{self.title or 'Unknown'} ({self.format})" *)
Definition __str__ : M text :=
  t ← title;
  fmt ← format;
  mret (default [] (py_or t (Some (str "Unknown"))) ++ str " (" ++ fmt ++ str ")").

End BookMethods.

(** ** The script *)

(** What the script asks of the interpreter and the operating system:
    [Path(s)], [str(p)], [p.exists()] and [p.is_file()] (which return, or
    raise an [OSError] the script does not catch), and the document
    libraries. *)
Record system := {
  Path_ : text -> Path;
  path_str : Path -> text;
  path_exists : Path -> outcome bool;
  path_is_file : Path -> outcome bool;
  documents : filesystem
}.

(** How the script ends: it runs to its end, calls [sys.exit(code)], or an
    exception reaches the top level. *)
Inductive ending :=
| Finished
| SystemExit (code : Z)
| Uncaught (e : exn).

(** An [Optional[str]] in an f-string. *)
Definition fstr (o : option text) : text := default (str "None") o.

Section Script.
Context {U : Unicode}.

(** The block under [if __name__ == "__main__"]: how it ends, the lines it
    has printed and the events of the descriptor.  Writing a line to the
    standard output is taken to succeed. *)
Definition main (sys : system) (argv : list text) : ending * list text * list event :=
  match argv with
  | [_; arg] =>
      let book_path := Path_ sys arg in
      match path_exists sys book_path with
      | Raise e => (Uncaught e, [], [])
      | Ok false => (SystemExit 1, [str "File not found: " ++ path_str sys book_path], [])
      | Ok true =>
          match path_is_file sys book_path with
          | Raise e => (Uncaught e, [], [])
          | Ok false => (SystemExit 1, [str "Not a file: " ++ path_str sys book_path], [])
          | Ok true =>
              let book := Machine (new_Book book_path) [] in
              match __str__ (documents sys) book with
              | (Raise e, m1) => (Uncaught e, [], trace m1)
              | (Ok s, m1) =>
                  let line1 := str "Book: " ++ s in
                  match title (documents sys) m1 with
                  | (Raise e, m2) => (Uncaught e, [line1], trace m2)
                  | (Ok t, m2) =>
                      let line2 := str "Title: " ++ fstr t in
                      match author (documents sys) m2 with
                      | (Raise e, m3) => (Uncaught e, [line1; line2], trace m3)
                      | (Ok a, m3) =>
                          (Finished, [line1; line2; str "Author: " ++ fstr a], trace m3)
                      end
                  end
              end
          end
      end
  | _ => (SystemExit 1, [str "Usage: python book_classificator.py <path_to_book>"], [])
  end.

End Script.

(** * Vocabulary of the properties *)

(** [matches r st st']: the pattern [r] can take the matcher from [st] to
    [st'].  The matcher's answers all arise this way ([run_sound]). *)
Inductive matches {U : Unicode} : regex -> mstate -> mstate -> Prop :=
| m_empty st : matches Empty st st
| m_one a st c rs :
    rest st = c :: rs -> atom_match a c = true ->
    matches (One a) st (MState (c :: seen st) rs (group1 st))
| m_repeat lo hi a st w rs :
    rest st = w ++ rs ->
    Forall (fun c => atom_match a c = true) w ->
    (lo <= length w)%nat ->
    (forall h, hi = Some h -> (length w <= h)%nat) ->
    matches (Repeat lo hi a) st (MState (rev w ++ seen st) rs (group1 st))
| m_maybe_take r st st' : matches r st st' -> matches (Maybe r) st st'
| m_maybe_skip r st : matches (Maybe r) st st
| m_cat r1 r2 st st1 st2 :
    matches r1 st st1 -> matches r2 st1 st2 -> matches (Cat r1 r2) st st2
| m_or_left r1 r2 st st' : matches r1 st st' -> matches (Or r1 r2) st st'
| m_or_right r1 r2 st st' : matches r2 st st' -> matches (Or r1 r2) st st'
| m_capture r st st' :
    matches r st st' ->
    matches (Capture r) st
      (MState (seen st') (rest st')
         (Some (rev (take (length (seen st') - length (seen st)) (seen st')))))
| m_boundary st : at_boundary st = true -> matches WordBoundary st st.

(** The strings a pattern can consume, assertions and groups aside. *)
Fixpoint lang {U : Unicode} (r : regex) (w : text) : Prop :=
  match r with
  | Empty => w = []
  | One a => exists c, w = [c] /\ atom_match a c = true
  | Repeat lo hi a =>
      Forall (fun c => atom_match a c = true) w /\ (lo <= length w)%nat /\
      (forall h, hi = Some h -> (length w <= h)%nat)
  | Maybe r1 => w = [] \/ lang r1 w
  | Cat r1 r2 => exists u v, w = u ++ v /\ lang r1 u /\ lang r2 v
  | Or r1 r2 => lang r1 w \/ lang r2 w
  | Capture r1 => lang r1 w
  | WordBoundary => w = []
  end.

(** The characters [[0-9Xx]] keeps. *)
Definition kept (c : N) : bool := ascii_isdecimal c || (c =? 88) || (c =? 120).

(** A digit or the letter X. *)
Definition digit_or_X (c : N) : bool := ascii_isdecimal c || (c =? 88).

Definition shape13 (r : text) : bool :=
  match r with
  | c1 :: c2 :: c3 :: D =>
      (c1 =? chr "9") && (c2 =? chr "7") && ((c3 =? chr "8") || (c3 =? chr "9")) &&
      forallb ascii_isdecimal D
  | _ => false
  end.

Definition shape10 (r : text) : bool :=
  match rev r with
  | e :: D => digit_or_X e && forallb ascii_isdecimal D
  | [] => false
  end.

Definition respects {U : Unicode} (h : N -> N) (a : atom) : Prop := forall c, atom_match a (h c) = atom_match a c.

Fixpoint respected {U : Unicode} (h : N -> N) (r : regex) : Prop :=
  match r with
  | Empty | WordBoundary => True
  | One a | Repeat _ _ a => respects h a
  | Maybe r1 | Capture r1 => respected h r1
  | Cat r1 r2 | Or r1 r2 => respected h r1 /\ respected h r2
  end.

Definition hmap (h : N -> N) (st : mstate) : mstate :=
  MState (List.map h (seen st)) (List.map h (rest st)) (List.map h <$> group1 st).

Definition special (c : N) : bool := existsb (N.eqb c) (str "ISBN-:Xx").

Definition canon {U : Unicode} (c : N) : N :=
  if isdecimal c || special c then c
  else if isspace c then chr " "
  else if isword c then chr "a"
  else chr "!".

Definition matched (sn p g tl : text) : mstate :=
  MState (rev (p ++ g) ++ sn) tl
    (Some (rev (take (length (rev (p ++ g) ++ sn) - length (rev p ++ sn))
                  (rev (p ++ g) ++ sn)))).

Definition isbn_rest : regex :=
  seq [isbn_prefix; Capture (Or isbn13_body isbn10_body); WordBoundary].

(** Characters that [canon] leaves alone. *)
Definition fixed {U : Unicode} (c : N) : bool := isdecimal c || special c.

Definition item_ok {U : Unicode} (i : citem) : bool :=
  match i with
  | IChar d => fixed d
  | IRange lo hi => (lo =? 48) && (hi =? 57)
  | IDigit | ISpace => true
  end.

Definition atom_ok {U : Unicode} (a : atom) : bool :=
  match a with
  | AChar d => fixed d
  | ASet items | ANotSet items => forallb item_ok items
  end.

Fixpoint regex_ok {U : Unicode} (r : regex) : bool :=
  match r with
  | Empty | WordBoundary => true
  | One a | Repeat _ _ a => atom_ok a
  | Maybe r1 | Capture r1 => regex_ok r1
  | Cat r1 r2 | Or r1 r2 => regex_ok r1 && regex_ok r2
  end.

Definition is_sep {U : Unicode} (c : N) : bool := (c =? chr "-") || isspace c.

(** The text after a candidate lets it end there: nothing, or a character
    that is not a word character. *)
Definition word_end {U : Unicode} (post : text) : bool :=
  match post with [] => true | c :: _ => negb (isword c) end.

(** The same, and a separator there is not followed by a digit. *)
Definition digits_end {U : Unicode} (post : text) : bool :=
  match post with
  | [] => true
  | c :: l =>
      negb (isword c) &&
      (negb (is_sep c) || match l with [] => true | d :: _ => negb (isdecimal d) end)
  end.

(** The text before a candidate has no digit and does not end in a word
    character. *)
Definition quiet_before {U : Unicode} (pre : text) : bool :=
  forallb (fun c => negb (isdecimal c)) pre &&
  match rev pre with [] => true | c :: _ => negb (isword c) end.

(** What the prefix "ISBN", "-1", "[03]", ":" and spaces can hold after its
    first character. *)
Definition prefix_tail {U : Unicode} (c : N) : bool :=
  existsb (N.eqb c) (str "SBN-103:") || isspace c.

Fixpoint has_capture (r : regex) : bool :=
  match r with
  | Capture _ => true
  | Maybe r1 => has_capture r1
  | Cat r1 r2 | Or r1 r2 => has_capture r1 || has_capture r2
  | _ => false
  end.

(** What follows the optional prefix in [_ISBN_RE]. *)
Definition isbn_body : regex :=
  seq [Capture (Or isbn13_body isbn10_body); WordBoundary].

(** The number of files opened in a stretch of events. *)
Definition opens (evs : list event) : nat := length (List.filter is_open evs).

(** A text block of a document, as the scan receives it: the text, or the
    failure to produce it. *)
Definition pdf_block (page : pdf_page) : outcome text :=
  match extract_text page with
  | Ok extracted => Ok (default [] (py_or extracted (Some [])))
  | Raise e => Raise e
  end.

Definition epub_block {U : Unicode} (item : epub_item) : outcome text :=
  match get_content item with
  | Ok content => Ok (decode_utf8_ignore content)
  | Raise e => Raise e
  end.

(** What the loop body does with one block: [Ok (Some isbn)] returns from
    the loop, [Ok None] goes on, [Raise] leaves the [try]. *)
Definition block_verdict {U : Unicode} (b : outcome text) : outcome (option (option text)) :=
  match b with
  | Ok t =>
      match _find_isbn_in_text t with
      | Ok isbn => Ok (if truthy isbn then Some isbn else None)
      | Raise e => Raise e
      end
  | Raise e => Raise e
  end.

(** The scan over the blocks from position [i] on: how the loop ends and
    the positions it has asked for. *)
Fixpoint scan {U : Unicode} (i : nat) (blocks : list (outcome text))
    : outcome (option (option text)) * list nat :=
  match blocks with
  | [] => (Ok None, [])
  | b :: bs =>
      match block_verdict b with
      | Ok None => let r := scan (S i) bs in (r.1, i :: r.2)
      | v => (v, [i])
      end
  end.

(** The format a path stands for. *)
Definition format_of {U : Unicode} (p : Path) : text :=
  default (str "Unknown") (formats !! lower (suffix p)).

(** The five cached properties. *)
Inductive attr := Format | Metadata | Title | Author | Isbn.

Definition read {U : Unicode} (a : attr) : M () :=
  match a with
  | Format => format;; mret ()
  | Metadata => metadata;; mret ()
  | Title => title;; mret ()
  | Author => author;; mret ()
  | Isbn => isbn;; mret ()
  end.

(** The states of a descriptor for the path [p]: a new one, and what reads
    of its properties make of it, whatever the files are at each read. *)
Inductive reachable {U : Unicode} (p : Path) : Book -> Prop :=
| reach_new : reachable p (new_Book p)
| reach_read a fs b tr : reachable p b -> reachable p (self (read a fs (Machine b tr)).2).

(** A slot gives back what was stored in it. *)
Definition lawful {A} (s : slot A) : Prop :=
  forall v b, slot_get s (slot_set s v b) = Some v.

(** What the cache of a descriptor may hold: the format of its path, and
    for a path of unknown format nothing but empty results. *)
Definition cache_ok {U : Unicode} (b : Book) : Prop :=
  (cached_format b = None \/ cached_format b = Some (format_of (filepath b))) /\
  (format_of (filepath b) = str "Unknown" ->
   (cached_metadata b = None \/ cached_metadata b = Some ∅) /\
   (cached_title b = None \/ cached_title b = Some None) /\
   (cached_author b = None \/ cached_author b = Some None) /\
   (cached_isbn b = None \/ cached_isbn b = Some None)).

(** How a scan ends, as the method returns it, and the events it leaves
    after the file was opened. *)
Definition scan_result (sc : outcome (option (option text)) * list nat) : option text :=
  match sc.1 with Ok v => default None v | Raise _ => None end.

Definition scan_events (ev : nat -> event) (msg : string)
    (sc : outcome (option (option text)) * list nat) : list event :=
  List.map ev sc.2 ++ match sc.1 with Ok _ => [] | Raise e => [EvDebug msg e] end.

(** The extractor the [metadata] property picks, and the one [isbn] picks. *)
Definition metadata_extractor {U : Unicode} (fmt : text) : M (dict (option text)) :=
  if decide (fmt = str "PDF") then _extract_pdf_metadata
  else if decide (fmt = str "EPUB") then _extract_epub_metadata
  else mret ∅.

Definition isbn_extractor {U : Unicode} (fmt : text) : M (option text) :=
  if decide (fmt = str "PDF") then _extract_isbn_from_pdf 10
  else if decide (fmt = str "EPUB") then _extract_isbn_from_epub
  else mret None.

(** [returns n c]: the computation returns a value and adds events that
    open at most [n] files. *)
Definition returns {A} (n : nat) (c : M A) : Prop :=
  forall fs m, exists v b' evs,
    c fs m = (Ok v, Machine b' (trace m ++ evs)) /\ (opens evs <= n)%nat.

(** [extracts c]: moreover the instance is left as it was. *)
Definition extracts {A} (n : nat) (c : M A) : Prop :=
  forall fs m, exists v evs,
    c fs m = (Ok v, Machine (self m) (trace m ++ evs)) /\ (opens evs <= n)%nat.

(** A property that is computed at most once: a read returns a value and
    opens at most one file; after it, every read returns that value and
    changes nothing, whatever the files have become. *)
Definition computed_once {U : Unicode} {A} (c : M A) : Prop :=
  forall fs m, exists v b' evs,
    c fs m = (Ok v, Machine b' (trace m ++ evs)) /\ (opens evs <= 1)%nat /\
    forall fs' tr', c fs' (Machine b' tr') = (Ok v, Machine b' tr').

(** A read on a descriptor whose cache is in order: the value, the
    descriptor after it (its cache again in order) and the events; for a path
    of unknown format there are no events. *)
Definition reads_ok {U : Unicode} {A} (c : M A) (empty : A) : Prop :=
  forall fs m,
    cache_ok (self m) ->
    exists v b' evs,
      c fs m = (Ok v, Machine b' (trace m ++ evs)) /\
      cache_ok b' /\ filepath b' = filepath (self m) /\
      (format_of (filepath (self m)) = str "Unknown" -> v = empty /\ evs = []).

(** A block in which the pattern matcher finds nothing. *)
Definition silent {U : Unicode} (b : outcome text) : Prop :=
  exists t, b = Ok t /\ _find_isbn_in_text t = Ok None.

(** The two shapes the specification names: thirteen digits that begin
    with 978 or 979, or ten characters that end in a digit or X. *)
Definition claimed_shape (r : text) : bool :=
  (shape13 r && Nat.eqb (length r) 13) || (shape10 r && Nat.eqb (length r) 10).

(** The first block with a match decides: the result is its candidate and
    the scan has asked for the blocks up to it and no further; without a
    match in any block the result is absent and every block was asked for.
    Nothing is logged in either case. *)
Definition first_match_wins {U : Unicode} (blocks : list (outcome text))
    (result : option text) (asked : list nat) (logged : list event) : Prop :=
  (forall k t r,
      blocks !! k = Some (Ok t) -> _find_isbn_in_text t = Ok (Some r) ->
      (forall j b, (j < k)%nat -> blocks !! j = Some b -> silent b) ->
      result = Some r /\ asked = List.seq 0 (S k) /\ logged = []) /\
  ((forall j b, blocks !! j = Some b -> silent b) ->
   result = None /\ asked = List.seq 0 (length blocks) /\ logged = []).

(** ** Vocabulary of the further properties *)

(** A character a body of the pattern takes as part of a number: a decimal
    digit or a check character. *)
Definition numeral {U : Unicode} (c : N) : bool := isdecimal c || kept c.

(** Numerals, with single separators only between them. *)
Fixpoint grouped {U : Unicode} (raw : text) : bool :=
  match raw with
  | [] => true
  | c :: l =>
      if numeral c then grouped l
      else is_sep c && match l with d :: _ => numeral d | [] => false end && grouped l
  end.

(** A text that begins with a numeral, and one that begins with a decimal
    digit. *)
Definition starts_numeral {U : Unicode} (l : text) : bool :=
  match l with d :: _ => numeral d | [] => false end.

Definition starts_digit {U : Unicode} (l : text) : bool :=
  match l with d :: _ => isdecimal d | [] => false end.

(** The text after a number lets it end there: nothing, or a character that
    is not a word character; and a separator there is not followed by a
    numeral. *)
Definition number_end {U : Unicode} (post : text) : bool :=
  match post with
  | [] => true
  | c :: l =>
      negb (isword c) &&
      (negb (is_sep c) || match l with [] => true | d :: _ => negb (numeral d) end)
  end.

(** The text before a number has no digit and does not end in a word
    character or a hyphen. *)
Definition clear_before {U : Unicode} (pre : text) : bool :=
  forallb (fun c => negb (isdecimal c)) pre &&
  match rev pre with [] => true | c :: _ => negb (isword c) && negb (c =? chr "-") end.

(** Patterns without groups and assertions. *)
Fixpoint plain (r : regex) : bool :=
  match r with
  | Empty | One _ | Repeat _ _ _ => true
  | Maybe r1 => plain r1
  | Cat r1 r2 | Or r1 r2 => plain r1 && plain r2
  | Capture _ | WordBoundary => false
  end.

(** [info.get(k)], or [getattr(info, k, None)], of a PDF's document
    information; nothing when the document has none. *)
Definition info_get (info : option pdf_info) (k : string) : option text :=
  match info with
  | Some (InfoDict d) => d !! str k
  | Some (InfoObject attrs) => attrs !! str k
  | None => None
  end.

(** The value of the first entry of a Dublin Core field, if any. *)
Definition first_value (entries : list (option text * dict text)) : option text :=
  match entries with (v, _) :: _ => v | [] => None end.

(** A sequence of reads of a descriptor's properties, each with the files
    as they are at that moment. *)
Definition reads {U : Unicode} (l : list (attr * filesystem)) (m : machine) : machine :=
  fold_left (fun m r => (read r.1 r.2 m).2) l m.

(** What a descriptor has still to extract: 1 for a slot that is empty. *)
Definition missing {A} (o : option A) : nat := match o with Some _ => O | None => 1%nat end.

(** A metadata mapping as the extractors build it: empty, or with the two
    keys "title" and "author". *)
Definition well_keyed (md : dict (option text)) : Prop :=
  md = ∅ \/ exists t a, md = {[ str "title" := t; str "author" := a ]}.

(** The cache of a descriptor for the path [p] hangs together: a cached
    format is the format of [p], and there is one as soon as the metadata or
    the ISBN is cached; a cached title or author is the entry of the cached
    metadata. *)
Definition consistent {U : Unicode} (p : Path) (b : Book) : Prop :=
  filepath b = p /\
  (cached_format b = None \/ cached_format b = Some (format_of p)) /\
  (cached_metadata b <> None \/ cached_isbn b <> None ->
   cached_format b = Some (format_of p)) /\
  (forall md, cached_metadata b = Some md -> well_keyed md) /\
  (forall t, cached_title b = Some t ->
     exists md, cached_metadata b = Some md /\ t = dict_get md (str "title")) /\
  (forall a, cached_author b = Some a ->
     exists md, cached_metadata b = Some md /\ a = dict_get md (str "author")).


(** ** Sample files *)

Definition text_page (t : string) : pdf_page := {| extract_text := Ok (Some (str t)) |}.

(** A PDF of three pages with an ISBN on page 3. *)
Definition front_matter_pdf : PdfReader := {|
  reader_metadata := Ok None;
  reader_pages :=
    Ok [text_page "Effective Java"; text_page "";
        text_page "ISBN-13: 978-1-23456-789-7"]
|}.

(** A PDF of twelve pages with an ISBN on page 12 only. *)
Definition back_matter_pdf : PdfReader := {|
  reader_metadata := Ok None;
  reader_pages :=
    Ok (replicate 11 (text_page "lorem ipsum") ++ [text_page "ISBN-13: 978-1-23456-789-7"])
|}.

(** An EPUB with a style sheet and two documents, the second with the ISBN. *)
Definition sample_epub : EpubBook := {|
  get_metadata := fun _ name =>
    if decide (name = str "title") then Ok [(Some (str "Sample Book"), ∅)]
    else if decide (name = str "creator") then Ok [(Some (str "Jane Doe"), ∅)]
    else Ok [];
  items :=
    [ {| get_type := ITEM_STYLE; get_content := Raise (Exception "KeyError") |};
      {| get_type := ITEM_DOCUMENT; get_content := Ok (str "<h1>Sample Book</h1>") |};
      {| get_type := ITEM_DOCUMENT; get_content := Ok (str "<p>ISBN 0-8044-2957-x</p>") |} ]
|}.

Definition path_of (file : string) : Path := {| parents := [str "library"]; name := str file |}.

(** The files of the examples: two PDFs and an EPUB that open, and files
    that do not. *)
Definition sample_files : filesystem := {|
  open_PdfReader := fun p =>
    if decide (name p = str "front.pdf") then Ok front_matter_pdf
    else if decide (name p = str "back.PDF") then Ok back_matter_pdf
    else Raise (Exception "PdfReadError");
  open_read_epub := fun p =>
    if decide (name p = str "sample.epub") then Ok sample_epub
    else Raise (Exception "BadZipFile")
|}.

(** A system for the examples: every path but "missing.pdf" exists, and
    every path but "library" is a file. *)
Definition sample_system : system := {|
  Path_ := fun s => {| parents := [str "library"]; name := s |};
  path_str := fun p => str "library/" ++ name p;
  path_exists := fun p => Ok (negb (bool_decide (name p = str "missing.pdf")));
  path_is_file := fun p => Ok (negb (bool_decide (name p = str "library")));
  documents := sample_files
|}.

(** ** Tactics *)

(** Boolean tests on code points, as linear arithmetic. *)
Ltac charcases :=
  unfold kept, digit_or_X, isdecimal, isspace, isword, ascii_isdecimal, ascii_isspace,
    ascii_isalnum, ascii_upper, ascii_lower, is_ascii, between in *;
  repeat match goal with
  | H : context [N.leb ?a ?b] |- _ => destruct (N.leb_spec a b)
  | |- context [N.leb ?a ?b] => destruct (N.leb_spec a b)
  | H : context [N.ltb ?a ?b] |- _ => destruct (N.ltb_spec a b)
  | |- context [N.ltb ?a ?b] => destruct (N.ltb_spec a b)
  | H : context [N.eqb ?a ?b] |- _ => destruct (N.eqb_spec a b)
  | |- context [N.eqb ?a ?b] => destruct (N.eqb_spec a b)
  end;
  simpl in *; try congruence; try lia.

(** Literals of the source, evaluated. *)
Ltac literals :=
  repeat match goal with
  | |- context [chr ?s] => let v := eval vm_compute in (chr s) in change (chr s) with v
  | H : context [chr ?s] |- _ => let v := eval vm_compute in (chr s) in change (chr s) with v in H
  | |- context [str ?s] => let v := eval vm_compute in (str s) in change (str s) with v
  | H : context [str ?s] |- _ => let v := eval vm_compute in (str s) in change (str s) with v in H
  end.

(** The monad and the library calls, unfolded. *)
Ltac munfold :=
  unfold mbind, M_bind, mret, M_ret, try_except, lift, emit, raise, get_self, files,
    logger_debug, PdfReader_, read_epub in *.

(** The invariant after one more attribute of the instance is stored. *)
Ltac store_ok Hf Hu Hv :=
  split; [|split; [reflexivity|exact Hv]];
  split; [exact Hf|];
  let Hx := fresh "Hx" in
  intros Hx; destruct (Hu Hx) as (? & ? & ? & ?); destruct (Hv Hx) as [-> _];
  simpl; repeat split; auto.

(** * Properties *)

(** ** What a successful run of the matcher has consumed *)

Section Sound.
Context {U : Unicode}.

Lemma orelse_Some {A} (x y : option A) v :
  orelse x y = Some v -> x = Some v \/ (x = None /\ y = Some v).
Proof. destruct x; simpl; intros; auto. Qed.

Lemma repeat_atom_sound {A} a (k : mstate -> option A) rs :
  forall lo hi sn g x,
    repeat_atom a lo hi k sn g rs = Some x ->
    exists w rs',
      rs = w ++ rs' /\ Forall (fun c => atom_match a c = true) w /\
      (lo <= length w)%nat /\ (forall h, hi = Some h -> (length w <= h)%nat) /\
      k (MState (rev w ++ sn) rs' g) = Some x.
Proof.
  induction rs as [|c rs IH]; intros lo hi sn g x H.
  - assert (Hk : k (MState sn [] g) = Some x /\ lo = O).
    { destruct hi as [[|h]|], lo; simpl in H; done. }
    destruct Hk as [Hk ->].
    exists [], []. repeat split; auto; simpl; lia.
  - assert (Hstop : match lo with O => k (MState sn (c :: rs) g) | S _ => None end = Some x ->
                    exists w rs', c :: rs = w ++ rs' /\
                      Forall (fun c => atom_match a c = true) w /\
                      (lo <= length w)%nat /\ (forall h, hi = Some h -> (length w <= h)%nat) /\
                      k (MState (rev w ++ sn) rs' g) = Some x).
    { destruct lo; [|discriminate]. intros Hk.
      exists [], (c :: rs). repeat split; auto; simpl; lia. }
    assert (Hhi : hi = Some O \/ hi <> Some O) by (destruct hi as [[|h]|]; auto).
    destruct Hhi as [->|Hhi]; [auto|].
    assert (H' : (if atom_match a c
                  then orelse (repeat_atom a (Nat.pred lo) (Nat.pred <$> hi) k (c :: sn) g rs)
                         (match lo with O => k (MState sn (c :: rs) g) | S _ => None end)
                  else match lo with O => k (MState sn (c :: rs) g) | S _ => None end) = Some x).
    { destruct hi as [[|h]|]; [done|exact H|exact H]. }
    clear H. destruct (atom_match a c) eqn:Hc; [|auto].
    apply orelse_Some in H' as [H|[_ H]]; [|auto].
    apply IH in H as (w & rs' & -> & Hw & Hlo & Hh & Hk).
    exists (c :: w), rs'. repeat split.
    + constructor; auto.
    + simpl. lia.
    + intros h ->. specialize (Hh (Nat.pred h) eq_refl).
      simpl. destruct h; [congruence|]. simpl in Hh. lia.
    + simpl. rewrite <- app_assoc. exact Hk.
Qed.

Theorem run_sound {A} r :
  forall (k : mstate -> option A) st x,
    run r k st = Some x -> exists st', matches r st st' /\ k st' = Some x.
Proof.
  induction r as [|a|lo hi a|r IH|r1 IH1 r2 IH2|r1 IH1 r2 IH2|r IH|];
    intros k st x H; simpl in H.
  - exists st. split; [constructor|done].
  - destruct (rest st) as [|c rs] eqn:Hrest; [discriminate|].
    destruct (atom_match a c) eqn:Hc; [|discriminate].
    eexists. split; [econstructor; eauto|done].
  - apply repeat_atom_sound in H as (w & rs' & Hrs & Hw & Hlo & Hh & Hk).
    eexists. split; [econstructor; eauto|done].
  - apply orelse_Some in H as [H|[_ H]].
    + apply IH in H as (st' & Hm & Hk). exists st'. split; [by constructor|done].
    + exists st. split; [apply m_maybe_skip|done].
  - apply IH1 in H as (st1 & Hm1 & H). apply IH2 in H as (st2 & Hm2 & Hk).
    exists st2. split; [econstructor; eauto|done].
  - apply orelse_Some in H as [H|[_ H]].
    + apply IH1 in H as (st' & Hm & Hk). exists st'. split; [by apply m_or_left|done].
    + apply IH2 in H as (st' & Hm & Hk). exists st'. split; [by apply m_or_right|done].
  - apply IH in H as (st' & Hm & Hk).
    eexists. split; [apply m_capture; eauto|done].
  - destruct (at_boundary st) eqn:Hb; [|discriminate].
    exists st. split; [by constructor|done].
Qed.

(** A run moves a stretch of [rest] over to [seen], and that stretch is in
    the pattern's language. *)
Lemma matches_consumed r st st' :
  matches r st st' ->
  exists w, rest st = w ++ rest st' /\ seen st' = rev w ++ seen st /\ lang r w.
Proof.
  induction 1 as [st|a st c rs Hr Hc|lo hi a st w rs Hr Hw Hlo Hh|r st st' _ IH|r st
                 |r1 r2 st st1 st2 _ IH1 _ IH2|r1 r2 st st' _ IH|r1 r2 st st' _ IH
                 |r st st' _ IH|st Hb]; simpl.
  - by exists [].
  - exists [c]. eauto.
  - exists w. eauto.
  - destruct IH as (w & ? & ? & ?). exists w. eauto.
  - exists []. eauto.
  - destruct IH1 as (u & Hu1 & Hu2 & Hu), IH2 as (v & Hv1 & Hv2 & Hv).
    exists (u ++ v). rewrite Hu1, Hv1, Hv2, Hu2, rev_app_distr, !app_assoc.
    eauto 10.
  - destruct IH as (w & ? & ? & ?). exists w. eauto.
  - destruct IH as (w & ? & ? & ?). exists w. eauto.
  - destruct IH as (w & ? & ? & ?). exists w. eauto.
  - by exists [].
Qed.

(** What a capturing group holds after its run: the stretch it consumed. *)
Lemma matches_capture r st st' :
  matches (Capture r) st st' ->
  exists w, rest st = w ++ rest st' /\ seen st' = rev w ++ seen st /\
            lang r w /\ group1 st' = Some w.
Proof.
  inversion 1 as [| | | | | | | |r0 st0 st1 Hm|]; subst; simpl.
  apply matches_consumed in Hm as (w & Hr & Hs & Hl).
  exists w. repeat split; auto.
  rewrite Hs, length_app, length_rev.
  replace (length w + length (seen st) - length (seen st))%nat with (length w) by lia.
  rewrite take_app_length'; [|by rewrite length_rev].
  by rewrite rev_involutive.
Qed.

End Sound.

(** ** Normalization *)

Section Normalize.
Context {U : Unicode}.

Lemma kept_ascii c : kept c = true -> is_ascii c = true.
Proof. charcases. Qed.

Lemma sub_delete_kept raw :
  sub_delete (ANotSet [IRange (chr "0") (chr "9"); IChar (chr "X"); IChar (chr "x")]) raw
  = List.filter kept raw.
Proof.
  unfold sub_delete. apply List.filter_ext. intros c. simpl.
  rewrite negb_involutive, orb_false_r, orb_assoc. reflexivity.
Qed.

Lemma forallb_ascii_kept raw : forallb is_ascii (List.filter kept raw) = true.
Proof.
  apply forallb_forall. intros c Hc. apply filter_In in Hc as [_ Hc].
  by apply kept_ascii.
Qed.

(** [_normalize_isbn] keeps the characters of [[0-9Xx]], in order, and
    raises [x] to [X]. *)
Lemma normalize_filter raw :
  _normalize_isbn raw = List.map ascii_upper (List.filter kept raw).
Proof.
  unfold _normalize_isbn, upper. by rewrite sub_delete_kept, forallb_ascii_kept.
Qed.

Lemma normalize_app u v :
  _normalize_isbn (u ++ v) = _normalize_isbn u ++ _normalize_isbn v.
Proof. by rewrite !normalize_filter, List.filter_app, List.map_app. Qed.

Lemma upper_kept c : kept c = true -> digit_or_X (ascii_upper c) = true.
Proof. charcases. Qed.

Lemma normalize_digit_or_X raw : forallb digit_or_X (_normalize_isbn raw) = true.
Proof.
  rewrite normalize_filter. apply forallb_forall. intros c Hc.
  apply in_map_iff in Hc as (d & <- & Hd). apply filter_In in Hd as [_ Hd].
  by apply upper_kept.
Qed.

(** One character of the final class [[0-9Xx]]. *)
Lemma normalize_check c :
  atom_match (ASet [IRange (chr "0") (chr "9"); IChar (chr "X"); IChar (chr "x")]) c = true ->
  _normalize_isbn [c] = [ascii_upper c] /\ digit_or_X (ascii_upper c) = true.
Proof.
  intros Hc. rewrite normalize_filter. simpl in *.
  assert (Hk : kept c = true).
  { rewrite orb_false_r, orb_assoc in Hc. exact Hc. }
  rewrite Hk. split; [done|by apply upper_kept].
Qed.

(** A run of [\d]: only its ASCII digits survive, unchanged. *)
Lemma normalize_digits w :
  Forall (fun c => atom_match (ASet [IDigit]) c = true) w ->
  forallb ascii_isdecimal (_normalize_isbn w) = true /\
  (length (_normalize_isbn w) <= length w)%nat /\
  (forallb is_ascii w = true -> _normalize_isbn w = w).
Proof.
  induction 1 as [|c w Hc _ IH].
  - rewrite normalize_filter. done.
  - change (c :: w) with ([c] ++ w). rewrite normalize_app.
    destruct IH as (IH1 & IH2 & IH3).
    simpl in Hc. rewrite orb_false_r in Hc.
    assert (Hc' : _normalize_isbn [c] = (if is_ascii c then [c] else [])).
    { rewrite normalize_filter. simpl. revert Hc. clear. unfold isdecimal.
      destruct (is_ascii c) eqn:Ha; intros Hc.
      - assert (kept c = true) as -> by (revert Hc; charcases).
        simpl. f_equal. revert Hc. charcases.
      - assert (kept c = false) as -> by (revert Ha; charcases). done. }
    rewrite Hc'. repeat split.
    + rewrite forallb_app, IH1, andb_true_r.
      destruct (is_ascii c) eqn:Ha; [|done]. simpl. rewrite andb_true_r.
      revert Hc. unfold isdecimal. by rewrite Ha.
    + rewrite length_app. simpl. destruct (is_ascii c); simpl; lia.
    + simpl. intros [-> Hw]%andb_true_iff. simpl. by rewrite IH3.
Qed.

(** An optional separator leaves nothing. *)
Lemma normalize_sep w : lang sep_opt w -> _normalize_isbn w = [].
Proof.
  intros (Hw & _ & _). rewrite normalize_filter.
  induction Hw as [|c w Hc _ IH]; [done|]. simpl.
  assert (kept c = false) as ->; [|by rewrite IH].
  simpl in Hc. rewrite orb_false_r in Hc. revert Hc. unfold chr. simpl.
  clear. charcases.
Qed.

End Normalize.

(** ** The shape of a candidate *)

Section Shapes.
Context {U : Unicode}.

Lemma lang_lit s w : lang (lit s) w -> w = str s.
Proof.
  unfold lit. generalize (str s). intros l. revert w.
  induction l as [|a l IH]; intros w; simpl; [done|].
  intros (u & v & -> & (c & -> & Hc) & Hv).
  apply N.eqb_eq in Hc as ->. simpl. f_equal. by apply IH.
Qed.

Lemma normalize_digit1 d :
  atom_match (ASet [IDigit]) d = true ->
  forallb ascii_isdecimal (_normalize_isbn [d]) = true /\
  (is_ascii d = true -> _normalize_isbn [d] = [d]).
Proof.
  intros Hd. destruct (normalize_digits [d]) as (H1 & _ & H3); [by constructor|].
  split; [done|]. intros Ha. apply H3. simpl. by rewrite Ha.
Qed.

Lemma normalize13 raw :
  lang isbn13_body raw ->
  shape13 (_normalize_isbn raw) = true /\
  (forallb is_ascii raw = true -> (7 <= length (_normalize_isbn raw))%nat).
Proof.
  unfold isbn13_body. cbn [seq].
  intros (l97 & ? & -> & ->%lang_lit & c & ? & -> & (? & -> & Hc) &
          s1 & ? & -> & Hs1 & d1 & ? & -> & (Hd1 & Hn1 & _) &
          s2 & ? & -> & Hs2 & d2 & ? & -> & (Hd2 & Hn2 & _) &
          s3 & ? & -> & Hs3 & d3 & ? & -> & (Hd3 & Hn3 & _) &
          s4 & ? & -> & Hs4 & d4 & -> & Hd4).
  rewrite !normalize_app, (normalize_sep s1), (normalize_sep s2), (normalize_sep s3),
    (normalize_sep s4) by done.
  destruct (normalize_digits d1 Hd1) as (A1 & _ & E1).
  destruct (normalize_digits d2 Hd2) as (A2 & _ & E2).
  destruct (normalize_digits d3 Hd3) as (A3 & _ & E3).
  destruct (normalize_digit1 d4 Hd4) as (A4 & E4).
  assert (Hx : _normalize_isbn (str "97") ++ _normalize_isbn [x]
               = [chr "9"; chr "7"; x] /\ (x = chr "8" \/ x = chr "9")).
  { simpl in Hc. rewrite orb_false_r in Hc.
    apply orb_true_iff in Hc as [->%N.eqb_eq| ->%N.eqb_eq]; split; auto;
      rewrite <- normalize_app; reflexivity. }
  destruct Hx as [Hx Hx'].
  rewrite !app_nil_l, (app_assoc (_normalize_isbn (str "97"))), Hx.
  split.
  - cbn [shape13 app]. rewrite !N.eqb_refl, !forallb_app, A1, A2, A3, A4.
    by destruct Hx' as [-> | ->].
  - rewrite !forallb_app, !andb_true_iff.
    intros (_ & _ & _ & H1 & _ & H2 & _ & H3 & _ & H4).
    simpl in H4. rewrite andb_true_r in H4.
    rewrite E1, E2, E3, E4 by done. rewrite !length_app. simpl. lia.
Qed.

Lemma shape10_app D e :
  forallb ascii_isdecimal D = true -> digit_or_X e = true -> shape10 (D ++ [e]) = true.
Proof.
  intros HD He. unfold shape10. rewrite rev_app_distr. simpl.
  rewrite He. simpl. rewrite forallb_forall. intros c Hc%in_rev.
  revert c Hc. by apply forallb_forall.
Qed.

Lemma normalize10 raw :
  lang isbn10_body raw ->
  shape10 (_normalize_isbn raw) = true /\
  (forallb is_ascii raw = true -> (4 <= length (_normalize_isbn raw))%nat).
Proof.
  unfold isbn10_body. cbn [seq].
  intros (d1 & ? & -> & (Hd1 & Hn1 & _) &
          s1 & ? & -> & Hs1 & d2 & ? & -> & (Hd2 & Hn2 & _) &
          s2 & ? & -> & Hs2 & d3 & ? & -> & (Hd3 & Hn3 & _) &
          s3 & ? & -> & Hs3 & e & -> & He).
  rewrite !normalize_app, (normalize_sep s1), (normalize_sep s2), (normalize_sep s3)
    by done.
  destruct (normalize_digits d1 Hd1) as (A1 & _ & E1).
  destruct (normalize_digits d2 Hd2) as (A2 & _ & E2).
  destruct (normalize_digits d3 Hd3) as (A3 & _ & E3).
  destruct (normalize_check e He) as (-> & Ae).
  rewrite !app_nil_l, !app_assoc. split.
  - apply shape10_app; [|done]. by rewrite !forallb_app, A1, A2, A3.
  - rewrite !forallb_app, !andb_true_iff.
    intros ((((((H1 & _) & H2) & _) & H3) & _) & _).
    rewrite E1, E2, E3 by done. rewrite !length_app. simpl. lia.
Qed.
End Shapes.

(** ** The pattern matcher's answers *)

Section FindFacts.
Context {U : Unicode}.

Lemma search_from_sound r rs :
  forall sn m,
    search_from r sn rs = Some m ->
    exists pre rs', rs = pre ++ rs' /\
      run r Some (MState (rev pre ++ sn) rs' None) = Some m.
Proof.
  induction rs as [|c rs IH]; intros sn m H; simpl in H.
  - destruct (run r Some (MState sn [] None)) eqn:Hrun; [|discriminate].
    exists [], []. by simplify_eq.
  - destruct (run r Some (MState sn (c :: rs) None)) eqn:Hrun.
    + exists [], (c :: rs). by simplify_eq.
    + apply IH in H as (pre & rs' & -> & H).
      exists (c :: pre), rs'. split; [done|]. simpl. by rewrite <- app_assoc.
Qed.

(** A match of [_ISBN_RE] holds in group 1 a stretch of the text that one
    of the two bodies accepts. *)
Lemma isbn_re_sound st m :
  run _ISBN_RE Some st = Some m ->
  exists p raw,
    rest st = p ++ raw ++ rest m /\ group1 m = Some raw /\
    (lang isbn13_body raw \/ lang isbn10_body raw).
Proof.
  intros H. apply run_sound in H as (m' & Hm & [= ->]).
  unfold _ISBN_RE in Hm. cbn [seq] in Hm.
  inversion Hm as [| | | | |? ? ? st1 ? Hb H1| | | |]; subst; clear Hm.
  inversion Hb; subst; clear Hb.
  inversion H1 as [| | | | |? ? ? st2 ? Hp H2| | | |]; subst; clear H1.
  inversion H2 as [| | | | |? ? ? st3 ? Hc Hb| | | |]; subst; clear H2.
  inversion Hb; subst; clear Hb.
  apply matches_consumed in Hp as (p & Hp1 & Hp2 & _).
  apply matches_capture in Hc as (raw & Hr1 & Hr2 & Hl & Hg).
  exists p, raw. rewrite Hp1, Hr1. auto.
Qed.

Lemma find_sound t r :
  _find_isbn_in_text t = Ok (Some r) ->
  exists pre raw post,
    t = pre ++ raw ++ post /\ r = _normalize_isbn raw /\
    (lang isbn13_body raw \/ lang isbn10_body raw).
Proof.
  unfold _find_isbn_in_text, search. intros H.
  destruct (search_from _ISBN_RE [] t) as [m|] eqn:Hs; [|discriminate].
  apply search_from_sound in Hs as (pre & rs' & -> & Hrun).
  apply isbn_re_sound in Hrun as (p & raw & Hrest & Hg & Hl). simpl in Hrest.
  rewrite Hg in H. injection H as <-.
  exists (pre ++ p), raw, (rest m). rewrite Hrest, <- app_assoc. auto.
Qed.

(** Group 1 takes part in every match, so the matcher never raises. *)
Lemma find_returns t : exists o, _find_isbn_in_text t = Ok o.
Proof.
  unfold _find_isbn_in_text, search.
  destruct (search_from _ISBN_RE [] t) as [m|] eqn:Hs; [|eauto].
  apply search_from_sound in Hs as (pre & rs' & -> & Hrun).
  apply isbn_re_sound in Hrun as (p & raw & _ & -> & _). eauto.
Qed.

Lemma shape13_shape10 r : shape13 r = true -> shape10 r = true.
Proof.
  destruct r as [|c1 [|c2 [|c3 D]]]; try discriminate. cbn [shape13].
  rewrite !andb_true_iff. intros [[[E1 E2] E3] HD].
  assert (Hall : forallb ascii_isdecimal (c1 :: c2 :: c3 :: D) = true).
  { simpl. rewrite HD, andb_true_r. revert E1 E2 E3. literals. clear. charcases. }
  assert (Hne : length (c1 :: c2 :: c3 :: D) <> O) by done.
  clear - Hall Hne. revert Hall Hne. generalize (c1 :: c2 :: c3 :: D) as l.
  intros l Hl Hne. destruct (rev l) as [|e D'] eqn:Hrev.
  - apply (f_equal (@length N)) in Hrev. rewrite length_rev in Hrev. done.
  - unfold shape10. rewrite Hrev.
    assert (Hall : forallb ascii_isdecimal (e :: D') = true).
    { rewrite <- Hrev. rewrite forallb_forall in *. intros c Hc%in_rev. auto. }
    simpl in Hall. apply andb_true_iff in Hall as [He ->].
    unfold digit_or_X. by rewrite He.
Qed.

Lemma shape10_inv r :
  shape10 r = true ->
  exists D e, r = D ++ [e] /\ forallb ascii_isdecimal D = true /\ digit_or_X e = true.
Proof.
  unfold shape10. destruct (rev r) as [|e D'] eqn:Hrev; [discriminate|].
  intros [He HD]%andb_true_iff.
  exists (rev D'), e. repeat split; auto.
  - rewrite <- (rev_involutive r), Hrev. done.
  - rewrite forallb_forall in *. intros c Hc%in_rev. auto.
Qed.

Lemma find_shape t r :
  _find_isbn_in_text t = Ok (Some r) -> shape10 r = true.
Proof.
  intros (pre & raw & post & _ & -> & [H|H])%find_sound.
  - apply shape13_shape10. by apply normalize13.
  - by apply normalize10.
Qed.

End FindFacts.

(** ** The matcher sees characters only through the pattern *)

Section Hom.
Context {U : Unicode}.
Variable h : N -> N.
Hypothesis h_word : forall c, isword (h c) = isword c.

Lemma fmap_orelse {A B} (f : A -> B) (x y : option A) :
  f <$> orelse x y = orelse (f <$> x) (f <$> y).
Proof. by destruct x. Qed.

Lemma boundary_hom st : at_boundary (hmap h st) = at_boundary st.
Proof.
  unfold at_boundary, hmap. simpl.
  destruct (seen st), (rest st); simpl; by rewrite ?h_word.
Qed.

Lemma repeat_atom_hom a (k k' : mstate -> option mstate) :
  respects h a -> (forall s, k' (hmap h s) = hmap h <$> k s) ->
  forall rs lo hi sn g,
    repeat_atom a lo hi k' (List.map h sn) (List.map h <$> g) (List.map h rs)
    = hmap h <$> repeat_atom a lo hi k sn g rs.
Proof.
  intros Ha Hk. induction rs as [|c rs IH]; intros lo hi sn g.
  - destruct hi as [[|n]|], lo; simpl; try done; apply (Hk (MState sn [] g)).
  - assert (Hstop : match lo with O => k' (MState (List.map h sn) (List.map h (c :: rs)) (List.map h <$> g)) | S _ => None end
             = hmap h <$> match lo with O => k (MState sn (c :: rs) g) | S _ => None end).
    { destruct lo; [apply (Hk (MState sn (c :: rs) g))|done]. }
    destruct hi as [[|n]|]; simpl in *; try exact Hstop; rewrite Ha;
      (destruct (atom_match a c); [|exact Hstop]);
      rewrite fmap_orelse, <- Hstop; f_equal.
    + apply (IH (Nat.pred lo) (Some (Nat.pred (S n))) (c :: sn) g).
    + apply (IH (Nat.pred lo) None (c :: sn) g).
Qed.

Lemma run_hom r :
  respected h r ->
  forall k k' : mstate -> option mstate,
    (forall s, k' (hmap h s) = hmap h <$> k s) ->
    forall st, run r k' (hmap h st) = hmap h <$> run r k st.
Proof.
  induction r as [|a|lo hi a|r IH|r1 IH1 r2 IH2|r1 IH1 r2 IH2|r IH|];
    simpl; intros Hr k k' Hk st.
  - apply Hk.
  - destruct (rest st) as [|c rs]; simpl; [done|]. rewrite Hr.
    destruct (atom_match a c); [|done].
    apply (Hk (MState (c :: seen st) rs (group1 st))).
  - by apply repeat_atom_hom.
  - rewrite fmap_orelse, Hk. f_equal. by apply IH.
  - destruct Hr as [Hr1 Hr2]. apply IH1; [done|]. intros s. by apply IH2.
  - destruct Hr as [Hr1 Hr2]. rewrite fmap_orelse. f_equal; [by apply IH1|by apply IH2].
  - apply IH; [done|]. intros s.
    specialize (Hk (MState (seen s) (rest s)
      (Some (rev (take (length (seen s) - length (seen st)) (seen s)))))).
    rewrite <- Hk. unfold hmap. simpl. rewrite !length_map.
    do 3 f_equal. by rewrite map_rev, firstn_map.
  - rewrite boundary_hom. destruct (at_boundary st); [apply Hk|done].
Qed.
End Hom.

Section Canon.
Context {U : Unicode}.

Lemma group1_matched sn p g tl : group1 (matched sn p g tl) = Some g.
Proof.
  unfold matched. simpl. f_equal.
  rewrite rev_app_distr, <- app_assoc, !length_app.
  replace (length (rev g) + (length (rev p) + length sn) - (length (rev p) + length sn))%nat
    with (length (rev g)) by lia.
  by rewrite take_app_length, rev_involutive.
Qed.

Lemma space_nonword c : isspace c = true -> isword c = false.
Proof.
  unfold isspace, isword. destruct (is_ascii c) eqn:Ha.
  - clear Ha. charcases.
  - intros ->%uni_space_not_alnum. revert Ha. charcases.
Qed.

Lemma nonword_nondecimal c : isword c = false -> isdecimal c = false.
Proof.
  unfold isword, isdecimal. destruct (is_ascii c) eqn:Ha.
  - clear Ha. charcases.
  - intros [H _]%orb_false_iff. destruct (uni_isdecimal c) eqn:Hd; [|done].
    apply uni_decimal_alnum in Hd. congruence.
Qed.

Lemma canon_fixed c : fixed c = true -> canon c = c.
Proof. unfold canon, fixed. by intros ->. Qed.

(** Away from the fixed characters, [canon] picks a space, a letter or a
    punctuation mark, by the character's class. *)
Lemma canon_other c :
  fixed c = false ->
  (isspace c = true /\ isword c = false /\ canon c = 32) \/
  (isspace c = false /\ isword c = true /\ canon c = 97) \/
  (isspace c = false /\ isword c = false /\ canon c = 33).
Proof.
  unfold canon, fixed. intros ->.
  destruct (isspace c) eqn:Hs.
  - left. by rewrite (space_nonword c Hs).
  - destruct (isword c); auto.
Qed.

Lemma fixed_ascii_range c : fixed c = false -> between 48 57 c = false.
Proof.
  unfold fixed. intros [Hd _]%orb_false_iff. revert Hd. unfold isdecimal.
  destruct (is_ascii c) eqn:Ha; [done|]. intros _. revert Ha. charcases.
Qed.

Lemma canon_word c : isword (canon c) = isword c.
Proof.
  destruct (fixed c) eqn:Hf; [by rewrite canon_fixed|].
  destruct (canon_other c Hf) as [(_ & -> & ->)|[(_ & -> & ->)|(_ & -> & ->)]]; reflexivity.
Qed.

Lemma canon_item i c : item_ok i = true -> item_mem i (canon c) = item_mem i c.
Proof.
  destruct (fixed c) eqn:Hf; [by rewrite canon_fixed|]. intros Hi.
  pose proof (fixed_ascii_range c Hf) as Hr.
  assert (Hd : isdecimal c = false) by (by apply orb_false_iff in Hf as [? _]).
  destruct (canon_other c Hf) as [(Hs & Hw & E)|[(Hs & Hw & E)|(Hs & Hw & E)]];
    rewrite E; destruct i as [d|lo hi| |]; cbn [item_mem item_ok] in *;
    rewrite ?Hs, ?Hd; try reflexivity.
  all: try (apply andb_true_iff in Hi as [->%N.eqb_eq ->%N.eqb_eq]; by rewrite Hr).
  all: match goal with
       | |- (?v =? ?d) = (?c =? ?d) =>
           destruct (N.eqb_spec c d) as [->|]; [congruence|];
           destruct (N.eqb_spec v d) as [<-|]; [|done]; by vm_compute in Hi
       end.
Qed.

Lemma canon_atom a : atom_ok a = true -> forall c, atom_match a (canon c) = atom_match a c.
Proof.
  intros Ha c. destruct a as [d|items|items]; simpl in *.
  - apply (canon_item (IChar d) c Ha).
  - induction items as [|i items IH]; [done|]. simpl in *.
    apply andb_true_iff in Ha as [Hi Ha]. by rewrite canon_item, IH.
  - f_equal. induction items as [|i items IH]; [done|]. simpl in *.
    apply andb_true_iff in Ha as [Hi Ha]. by rewrite canon_item, IH.
Qed.

Lemma canon_respected r : regex_ok r = true -> respected canon r.
Proof.
  induction r as [|a|lo hi a|r IH|r1 IH1 r2 IH2|r1 IH1 r2 IH2|r IH|]; simpl; auto.
  - intros H c. by apply canon_atom.
  - intros H c. by apply canon_atom.
  - intros [H1 H2]%andb_true_iff; auto.
  - intros [H1 H2]%andb_true_iff; auto.
Qed.

Lemma uncanon x y : canon x = y -> fixed y = true -> x = y.
Proof.
  destruct (fixed x) eqn:Hf; [by rewrite canon_fixed|].
  destruct (canon_other x Hf) as [(_ & _ & ->)|[(_ & _ & ->)|(_ & _ & ->)]];
    intros <-; by vm_compute.
Qed.

Lemma uncanon_map g raw :
  List.map canon g = raw -> forallb fixed raw = true -> g = raw.
Proof.
  revert raw. induction g as [|x g IH]; intros [|y raw]; simpl; try done.
  intros [= Hx Hg] [Hy Hr]%andb_true_iff.
  f_equal; [by apply uncanon|by apply IH].
Qed.

(** A run on the canonical text decides the run on the text itself. *)
Lemma run_canon r sn txt raw :
  regex_ok r = true -> forallb fixed raw = true ->
  (exists m', run r Some (MState (List.map canon sn) (List.map canon txt) None) = Some m' /\
              group1 m' = Some raw) ->
  exists m, run r Some (MState sn txt None) = Some m /\ group1 m = Some raw.
Proof.
  intros Hr Hraw (m' & Hrun & Hg).
  pose proof (run_hom canon canon_word r (canon_respected r Hr) Some Some
                (fun s => eq_refl) (MState sn txt None)) as Hhom.
  unfold hmap at 1 in Hhom. simpl in Hhom. rewrite Hrun in Hhom.
  destruct (run r Some (MState sn txt None)) as [m|]; [|done].
  injection Hhom as ->. exists m. split; [done|].
  unfold hmap in Hg. simpl in Hg.
  destruct (group1 m) as [g|]; [|done]. injection Hg as Hg.
  f_equal. by apply uncanon_map.
Qed.

End Canon.

Section CanonCases.
Context {U : Unicode}.

Lemma canon_nonword_cases c :
  isword c = false -> canon c = 45 \/ canon c = 58 \/ canon c = 32 \/ canon c = 33.
Proof.
  intros Hw. destruct (fixed c) eqn:Hf.
  - rewrite canon_fixed by done. unfold fixed in Hf.
    rewrite (nonword_nondecimal c Hw) in Hf. unfold special in Hf. literals.
    simpl in Hf. rewrite orb_false_r in Hf.
    repeat (apply orb_true_iff in Hf as [Hf|Hf]);
      apply N.eqb_eq in Hf as ->; auto; by vm_compute in Hw.
  - destruct (canon_other c Hf) as [(_ & _ & ->)|[(_ & ? & _)|(_ & _ & ->)]];
      auto; congruence.
Qed.

Lemma canon_nondecimal_cases d :
  isdecimal d = false ->
  In (canon d) [73; 83; 66; 78; 45; 58; 88; 120; 32; 97; 33].
Proof.
  intros Hd. destruct (fixed d) eqn:Hf.
  - rewrite canon_fixed by done. unfold fixed in Hf. rewrite Hd in Hf.
    unfold special in Hf. literals. simpl in Hf. rewrite orb_false_r in Hf.
    repeat (apply orb_true_iff in Hf as [Hf|Hf]);
      apply N.eqb_eq in Hf as ->; simpl; tauto.
  - destruct (canon_other d Hf) as [(_ & _ & ->)|[(_ & _ & ->)|(_ & _ & ->)]];
      simpl; tauto.
Qed.

Lemma is_sep_canon c : is_sep (canon c) = is_sep c.
Proof.
  pose proof (canon_atom (ASet [IChar (chr "-"); ISpace]) eq_refl c) as H.
  simpl in H. rewrite !orb_false_r in H. exact H.
Qed.

End CanonCases.

(** Evaluate a run on a text whose inspected part is known: the match that
    consumes [p] before the group and [g] in it. *)
Ltac eval_match p g :=
  repeat match goal with
  | |- context [List.map canon ?x] =>
      is_var x; let y := fresh x in generalize (List.map canon x); intros y
  end;
  lazymatch goal with
  | |- exists m, run ?r Some (MState ?sn (_ ++ ?tl) None) = Some m /\ group1 m = Some _ =>
      exists (matched sn (str p) (str g) tl);
      split; [vm_compute; reflexivity | apply group1_matched]
  end.

(** The same for every text [s ++ post] whose [post] starts with a non-word
    character, by the cases of its canonical character. *)
Ltac eval_word_end p g :=
  lazymatch goal with
  | Hpost : word_end ?post = true |- _ =>
      rewrite map_app;
      lazymatch goal with
      | |- context [List.map canon (str ?s)] =>
          change (List.map canon (str s)) with (str s)
      end;
      destruct post as [|?c ?tl]; cbn [List.map];
      [ eval_match p g
      | apply negb_true_iff in Hpost;
        destruct (canon_nonword_cases _ Hpost) as [E|[E|[E|E]]]; rewrite E;
        eval_match p g ]
  end.

Section Attempts.
Context {U : Unicode}.

Lemma attempt_13_hyphens sn post :
  word_end post = true ->
  exists m, run isbn_rest Some (MState sn (str "978-0-13-468599-1" ++ post) None) = Some m /\
            group1 m = Some (str "978-0-13-468599-1").
Proof.
  intros Hpost. apply run_canon; [reflexivity..|].
  eval_word_end "" "978-0-13-468599-1".
Qed.

Lemma attempt_10_prefixed sn post :
  word_end post = true ->
  exists m, run isbn_rest Some (MState sn (str "ISBN: 0-13-468599-1" ++ post) None) = Some m /\
            group1 m = Some (str "0-13-468599-1").
Proof.
  intros Hpost. apply run_canon; [reflexivity..|].
  eval_word_end "ISBN: " "0-13-468599-1".
Qed.

Lemma attempt_13_prefixed sn post :
  word_end post = true ->
  exists m, run isbn_rest Some (MState sn (str "ISBN-13: 978-1-23456-789-7" ++ post) None) = Some m /\
            group1 m = Some (str "978-1-23456-789-7").
Proof.
  intros Hpost. apply run_canon; [reflexivity..|].
  eval_word_end "ISBN-13: " "978-1-23456-789-7".
Qed.

Lemma plain_after_sep v sn tl :
  v = 45 \/ v = 32 ->
  match tl with [] => true | d :: _ => negb (isdecimal d) end = true ->
  exists m',
    run isbn_rest Some
      (MState (List.map canon sn) (str "9780134685991" ++ v :: List.map canon tl) None)
    = Some m' /\ group1 m' = Some (str "9780134685991").
Proof.
  intros Hv Htl.
  destruct tl as [|d tl]; cbn [List.map].
  { destruct Hv as [-> | ->]; eval_match "" "9780134685991". }
  apply negb_true_iff in Htl.
  destruct (canon_nondecimal_cases _ Htl)
    as [D|[D|[D|[D|[D|[D|[D|[D|[D|[D|[D|[]]]]]]]]]]]];
    symmetry in D; rewrite D; destruct Hv as [-> | ->];
    eval_match "" "9780134685991".
Qed.

Lemma attempt_13_plain sn post :
  digits_end post = true ->
  exists m, run isbn_rest Some (MState sn (str "9780134685991" ++ post) None) = Some m /\
            group1 m = Some (str "9780134685991").
Proof.
  intros Hpost. apply run_canon; [reflexivity..|].
  rewrite map_app. change (List.map canon (str "9780134685991")) with (str "9780134685991").
  destruct post as [|c tl]; cbn [List.map]; [eval_match "" "9780134685991"|].
  cbn [digits_end] in Hpost. apply andb_true_iff in Hpost as [Hw Hpost].
  apply negb_true_iff in Hw. rewrite <- is_sep_canon in Hpost.
  destruct (canon_nonword_cases _ Hw) as [E|[E|[E|E]]]; rewrite E in *.
  - apply plain_after_sep; [auto|exact Hpost].
  - eval_match "" "9780134685991".
  - apply plain_after_sep; [auto|exact Hpost].
  - eval_match "" "9780134685991".
Qed.
End Attempts.

(** ** A candidate that stands alone in its text *)

Section Isolated.
Context {U : Unicode}.

Lemma run_isbn_re {A} (k : mstate -> option A) st :
  run _ISBN_RE k st = if at_boundary st then run isbn_rest k st else None.
Proof. reflexivity. Qed.

Lemma run_isbn_rest {A} (k : mstate -> option A) st :
  run isbn_rest k st = run isbn_prefix (run isbn_body k) st.
Proof. reflexivity. Qed.

Lemma capture_free r st st' :
  matches r st st' -> has_capture r = false -> group1 st' = group1 st.
Proof.
  induction 1 as [st|a st c rs Hr Hc|lo hi a st w rs Hr Hw Hlo Hh|r st st' _ IH|r st
                 |r1 r2 st st1 st2 _ IH1 _ IH2|r1 r2 st st' _ IH|r1 r2 st st' _ IH
                 |r st st' _ IH|st Hb]; simpl; try done; auto.
  - intros [H1 H2]%orb_false_iff. by rewrite IH2, IH1.
  - intros [H1 H2]%orb_false_iff. auto.
  - intros [H1 H2]%orb_false_iff. auto.
Qed.

Lemma lang_isbn_prefix w :
  lang isbn_prefix w ->
  w = [] \/ exists w', w = chr "I" :: w' /\ Forall (fun c => prefix_tail c = true) w'.
Proof.
  unfold isbn_prefix. cbn [seq].
  intros [->|(u & ? & -> & ->%lang_lit & v1 & ? & -> & Hv1 &
              v2 & v3 & -> & (Hv2 & _) & (Hv3 & _))]; [by left|].
  right. exists (str "SBN" ++ v1 ++ v2 ++ v3). split; [reflexivity|].
  repeat apply Forall_app_2.
  - by repeat constructor.
  - destruct Hv1 as [->|(a & b & -> & ->%lang_lit & c & -> & Hc)]; [constructor|].
    repeat constructor. simpl in Hc. rewrite orb_false_r in Hc.
    by apply orb_true_iff in Hc as [->%N.eqb_eq| ->%N.eqb_eq].
  - eapply Forall_impl; [exact Hv2|]. intros c Hc. simpl in Hc.
    by apply N.eqb_eq in Hc as ->.
  - eapply Forall_impl; [exact Hv3|]. intros c Hc. simpl in Hc.
    rewrite orb_false_r in Hc. unfold prefix_tail. rewrite Hc. apply orb_true_r.
Qed.

Lemma body_needs_digit st m :
  run isbn_body Some st = Some m ->
  exists c l, rest st = c :: l /\ isdecimal c = true.
Proof.
  intros (m' & Hm & _)%run_sound. unfold isbn_body in Hm. cbn [seq] in Hm.
  inversion Hm as [| | | | |? ? ? st1 ? Hc Hb| | | |]; subst; clear Hm Hb.
  apply matches_capture in Hc as (w & -> & _ & [Hl|Hl] & _).
  - unfold isbn13_body in Hl. cbn [seq] in Hl.
    destruct Hl as (? & ? & -> & ->%lang_lit & _). by eexists _, _.
  - unfold isbn10_body in Hl. cbn [seq] in Hl.
    destruct Hl as (d1 & ? & -> & (Hd & Hn & _) & _).
    destruct Hd as [|c d1 Hc _]; [simpl in Hn; lia|].
    simpl in Hc. rewrite orb_false_r in Hc. by eexists _, _.
Qed.

Lemma app_split_at {A} (P : A -> Prop) (l1 l2 w l : list A) d :
  l1 ++ l2 = w ++ d :: l -> Forall P l1 -> ~ P d ->
  exists w2, w = l1 ++ w2 /\ l2 = w2 ++ d :: l.
Proof.
  revert w. induction l1 as [|x l1 IH]; intros w Heq Hl1 Hd; [by exists w|].
  inversion Hl1 as [|? ? Hx Hl1']; subst.
  destruct w as [|y w]; simpl in Heq; injection Heq as -> Heq; [done|].
  destruct (IH w Heq Hl1' Hd) as (w2 & -> & ->). by exists w2.
Qed.

Lemma search_from_step r sn c rs :
  search_from r sn (c :: rs) =
  match run r Some (MState sn (c :: rs) None) with
  | Some m => Some m
  | None => search_from r (c :: sn) rs
  end.
Proof. reflexivity. Qed.

Lemma prefix_skip {A} (k : mstate -> option A) sn c rs g :
  (c =? chr "I") = false ->
  run isbn_prefix k (MState sn (c :: rs) g) = k (MState sn (c :: rs) g).
Proof.
  intros Hc. unfold isbn_prefix, lit. literals. cbn [seq fold_right run rest atom_match].
  by rewrite Hc.
Qed.

Section Around.
Variables (c0 : N) (s post raw : text).
Hypothesis c0_word : isword c0 = true.
Hypothesis c0_first : prefix_tail c0 = false.
Hypothesis at_start :
  forall sn, exists m,
    run isbn_rest Some (MState sn (c0 :: s ++ post) None) = Some m /\ group1 m = Some raw.

Lemma body_at_start sn m :
  run isbn_body Some (MState sn (c0 :: s ++ post) None) = Some m -> group1 m = Some raw.
Proof.
  intros Hm. destruct (c0 =? chr "I") eqn:Hc.
  - apply N.eqb_eq in Hc. apply body_needs_digit in Hm as (c & l & [= <- _] & Hd).
    rewrite Hc in Hd. by vm_compute in Hd.
  - destruct (at_start sn) as (m0 & Hrun & Hg).
    rewrite run_isbn_rest, prefix_skip in Hrun by done. congruence.
Qed.

Lemma attempt_before p1 c p2 m :
  forallb (fun c => negb (isdecimal c)) (c :: p2) = true ->
  run _ISBN_RE Some (MState (rev p1) ((c :: p2) ++ c0 :: s ++ post) None) = Some m ->
  group1 m = Some raw.
Proof.
  intros Hp2 Hm. rewrite run_isbn_re in Hm.
  destruct (at_boundary _); [|discriminate].
  rewrite run_isbn_rest in Hm.
  apply run_sound in Hm as (st' & Hpre & Hm).
  pose proof (capture_free _ _ _ Hpre eq_refl) as Hg.
  apply matches_consumed in Hpre as (w & Hrest & Hseen & Hw).
  destruct (body_needs_digit _ _ Hm) as (d & l & Hd & Hdec).
  cbn [rest seen group1] in Hrest, Hseen, Hg. rewrite Hd in Hrest.
  apply (app_split_at (fun x => isdecimal x = false)) in Hrest as (w2 & -> & Hw2).
  - destruct w2 as [|x w2]; simpl in Hw2.
    + rewrite app_nil_r in *. 
      destruct st' as [sn' rs' g']. cbn [rest seen group1] in *. subst.
      rewrite <- Hw2 in Hm. by apply body_at_start in Hm.
    + injection Hw2 as <- _.
      apply lang_isbn_prefix in Hw as [Hw|(w' & [= _ <-] & Hw)]; [done|].
      apply Forall_app in Hw as [_ Hw]. inversion Hw; congruence.
  - apply Forall_forall. intros x Hx%list_elem_of_In.
    rewrite forallb_forall in Hp2. apply Hp2 in Hx. by apply negb_true_iff.
  - congruence.
Qed.

Lemma search_around p2 :
  forall p1,
    quiet_before (p1 ++ p2) = true ->
    exists m,
      search_from _ISBN_RE (rev p1) (p2 ++ c0 :: s ++ post) = Some m /\ group1 m = Some raw.
Proof.
  induction p2 as [|c p2 IH]; intros p1 Hq.
  - rewrite app_nil_r in Hq. cbn [app]. rewrite search_from_step, run_isbn_re.
    apply andb_true_iff in Hq as [_ Hq].
    assert (Hb : at_boundary (MState (rev p1) (c0 :: s ++ post) None) = true).
    { unfold at_boundary. simpl. rewrite c0_word.
      destruct (rev p1); [done|]. apply negb_true_iff in Hq. by rewrite Hq. }
    rewrite Hb. destruct (at_start (rev p1)) as (m & -> & Hg). eauto.
  - assert (Hq' := Hq). apply andb_true_iff in Hq' as [Hd _].
    rewrite forallb_app in Hd. apply andb_true_iff in Hd as [_ Hd].
    change ((c :: p2) ++ c0 :: s ++ post) with (c :: (p2 ++ c0 :: s ++ post)).
    rewrite search_from_step.
    destruct (run _ISBN_RE Some (MState (rev p1) (c :: p2 ++ c0 :: s ++ post) None))
      as [m|] eqn:Hm.
    + exists m. split; [done|]. by apply (attempt_before p1 c p2).
    + specialize (IH (p1 ++ [c])). rewrite rev_app_distr in IH. simpl in IH.
      apply IH. by rewrite <- app_assoc.
Qed.

Lemma find_around pre :
  quiet_before pre = true ->
  _find_isbn_in_text (pre ++ c0 :: s ++ post) = Ok (Some (_normalize_isbn raw)).
Proof.
  intros Hq. unfold _find_isbn_in_text, search.
  destruct (search_around pre [] Hq) as (m & Hs & Hg). simpl in Hs.
  by rewrite Hs, Hg.
Qed.

End Around.
End Isolated.

(** ** The Book Descriptor *)

Section BookFacts.
Context {U : Unicode}.

Lemma for_each_scan {X} (body : nat -> X -> M (option (option text)))
    (blk : X -> outcome text) (ev : nat -> event) :
  (forall i x fs m,
      body i x fs m = (block_verdict (blk x), Machine (self m) (trace m ++ [ev i]))) ->
  forall xs i fs m,
    for_each body i xs fs m =
    ((scan i (List.map blk xs)).1,
     Machine (self m) (trace m ++ List.map ev (scan i (List.map blk xs)).2)).
Proof.
  intros Hbody. induction xs as [|x xs IH]; intros i fs m.
  - simpl. munfold. rewrite app_nil_r. by destruct m.
  - cbn [for_each List.map scan]. munfold. rewrite Hbody.
    destruct (block_verdict (blk x)) as [[v|]|e]; simpl; try done.
    rewrite IH. simpl. by rewrite <- app_assoc.
Qed.

Lemma extract_isbn_from_pdf_run max_pages fs m :
  _extract_isbn_from_pdf max_pages fs m =
  let p := filepath (self m) in
  match open_PdfReader fs p with
  | Raise e =>
      (Ok None, Machine (self m) (trace m ++ [EvPdfReader p; EvDebug "PDF ISBN error: %s" e]))
  | Ok reader =>
      match reader_pages reader with
      | Raise e =>
          (Ok None,
           Machine (self m) (trace m ++ [EvPdfReader p; EvDebug "PDF ISBN error: %s" e]))
      | Ok pages =>
          let sc := scan 0 (List.map pdf_block (slice_to max_pages pages)) in
          (Ok (scan_result sc),
           Machine (self m)
             (trace m ++ EvPdfReader p :: scan_events EvExtractText "PDF ISBN error: %s" sc))
      end
  end.
Proof.
  unfold _extract_isbn_from_pdf. munfold. simpl.
  destruct (open_PdfReader fs (filepath (self m))) as [reader|e]; simpl;
    [|by rewrite <- app_assoc].
  destruct (reader_pages reader) as [pages|e]; simpl; [|by rewrite <- app_assoc].
  rewrite (for_each_scan _ pdf_block EvExtractText).
  2:{ intros i page fs' m'. unfold pdf_block, block_verdict. simpl.
      destruct (extract_text page) as [t|e]; [|done].
      by destruct (_find_isbn_in_text _). }
  unfold scan_result, scan_events. simpl.
  destruct (scan 0 (List.map pdf_block (slice_to max_pages pages))) as [[v|e] ns]; simpl.
  - by rewrite app_nil_r, <- app_assoc.
  - by rewrite <- !app_assoc.
Qed.

Lemma extract_isbn_from_epub_run fs m :
  _extract_isbn_from_epub fs m =
  let p := filepath (self m) in
  match open_read_epub fs p with
  | Raise e =>
      (Ok None, Machine (self m) (trace m ++ [EvReadEpub p; EvDebug "EPUB ISBN error: %s" e]))
  | Ok book =>
      let sc := scan 0 (List.map epub_block (get_items_of_type book ITEM_DOCUMENT)) in
      (Ok (scan_result sc),
       Machine (self m)
         (trace m ++ EvReadEpub p :: scan_events EvGetContent "EPUB ISBN error: %s" sc))
  end.
Proof.
  unfold _extract_isbn_from_epub. munfold. simpl.
  destruct (open_read_epub fs (filepath (self m))) as [book|e]; simpl;
    [|by rewrite <- app_assoc].
  rewrite (for_each_scan _ epub_block EvGetContent).
  2:{ intros i item fs' m'. unfold epub_block, block_verdict. simpl.
      destruct (get_content item) as [t|e]; [|done].
      by destruct (_find_isbn_in_text _). }
  unfold scan_result, scan_events. simpl.
  destruct (scan 0 (List.map epub_block (get_items_of_type book ITEM_DOCUMENT)))
    as [[v|e] ns]; simpl.
  - by rewrite app_nil_r, <- app_assoc.
  - by rewrite <- !app_assoc.
Qed.

(** *** Dispatch *)

Lemma dispatch {V} (a b d : V) (k : text) :
  default d (({[ str "PDF" := a; str "EPUB" := b ]} : dict V) !! k)
  = if decide (k = str "PDF") then a
    else if decide (k = str "EPUB") then b else d.
Proof.
  rewrite lookup_insert. destruct (decide (str "PDF" = k)) as [<-|Hne].
  - by rewrite decide_True.
  - rewrite decide_False by done. rewrite lookup_singleton.
    destruct (decide (str "EPUB" = k)) as [<-|Hne'].
    + by rewrite decide_True.
    + by rewrite decide_False.
Qed.

Lemma format_of_cases p :
  format_of p =
  if decide (lower (suffix p) = str ".pdf") then str "PDF"
  else if decide (lower (suffix p) = str ".epub") then str "EPUB"
  else str "Unknown".
Proof.
  unfold format_of, formats. rewrite lookup_insert.
  destruct (decide (str ".pdf" = lower (suffix p))) as [<-|Hne].
  - by rewrite decide_True.
  - rewrite decide_False by done. rewrite lookup_singleton.
    destruct (decide (str ".epub" = lower (suffix p))) as [<-|Hne'].
    + by rewrite decide_True.
    + by rewrite decide_False.
Qed.

(** *** The cached properties, one step at a time *)

Lemma cached_hit {A} (s : slot A) (f : M A) fs m v :
  slot_get s (self m) = Some v -> cached_property s f fs m = (Ok v, m).
Proof. unfold cached_property. by intros ->. Qed.


Lemma format_run fs m :
  format fs m =
  match cached_format (self m) with
  | Some v => (Ok v, m)
  | None =>
      (Ok (format_of (filepath (self m))),
       Machine (slot_set format_slot (format_of (filepath (self m))) (self m)) (trace m))
  end.
Proof. unfold format, cached_property. simpl. by destruct (cached_format (self m)). Qed.

Lemma metadata_run fs m :
  metadata fs m = cached_property metadata_slot (fmt ← format; metadata_extractor fmt) fs m.
Proof.
  unfold metadata, cached_property. destruct (slot_get _ _); [done|].
  munfold. destruct (format fs m) as [[fmt|e] m']; [|done].
  unfold metadata_extractor. by rewrite dispatch.
Qed.

Lemma isbn_run fs m :
  isbn fs m = cached_property isbn_slot (fmt ← format; isbn_extractor fmt) fs m.
Proof.
  unfold isbn, cached_property. destruct (slot_get _ _); [done|].
  munfold. destruct (format fs m) as [[fmt|e] m']; [|done].
  unfold isbn_extractor. by rewrite dispatch.
Qed.

(** *** Every method returns, and opens at most one file *)

Lemma opens_app evs1 evs2 : opens (evs1 ++ evs2) = (opens evs1 + opens evs2)%nat.
Proof. unfold opens. by rewrite List.filter_app, length_app. Qed.

Lemma returns_ret {A} (a : A) : returns 0 (mret a).
Proof. intros fs [b tr]. exists a, b, []. by rewrite app_nil_r. Qed.

Lemma returns_bind {A B} n1 n2 (c : M A) (f : A -> M B) :
  returns n1 c -> (forall a, returns n2 (f a)) -> returns (n1 + n2) (c ≫= f).
Proof.
  intros Hc Hf fs m. destruct (Hc fs m) as (a & b1 & evs1 & E1 & H1).
  destruct (Hf a fs (Machine b1 (trace m ++ evs1))) as (v & b2 & evs2 & E2 & H2).
  exists v, b2, (evs1 ++ evs2). munfold. rewrite E1, E2. simpl.
  rewrite app_assoc, opens_app. split; [done|lia].
Qed.

Lemma returns_cached {A} n (s : slot A) (f : M A) :
  returns n f -> returns n (cached_property s f).
Proof.
  intros Hf fs m. unfold cached_property. destruct (slot_get s (self m)) as [v|].
  - exists v, (self m), []. rewrite app_nil_r. destruct m. split; [done|].
    apply Nat.le_0_l.
  - destruct (Hf fs m) as (v & b' & evs & -> & H). by eexists v, _, evs.
Qed.

Lemma returns_weaken {A} n n' (c : M A) : (n <= n')%nat -> returns n c -> returns n' c.
Proof.
  intros Hn Hc fs m. destruct (Hc fs m) as (v & b' & evs & E & H).
  exists v, b', evs. split; [done|lia].
Qed.

Lemma extracts_returns {A} n (c : M A) : extracts n c -> returns n c.
Proof. intros H fs m. destruct (H fs m) as (v & evs & E & Hn). by exists v, (self m), evs. Qed.

Lemma extracts_ret {A} (a : A) : extracts 0 (mret a).
Proof. intros fs [b tr]. exists a, []. by rewrite app_nil_r. Qed.

Lemma extracts_pdf_metadata : extracts 1 _extract_pdf_metadata.
Proof.
  intros fs m. unfold _extract_pdf_metadata. munfold. simpl.
  destruct (open_PdfReader fs (filepath (self m))) as [reader|e]; simpl.
  - destruct (reader_metadata reader) as [md|e]; simpl.
    + by eexists _, [_].
    + eexists _, [_; _]. by rewrite <- app_assoc.
  - eexists _, [_; _]. by rewrite <- app_assoc.
Qed.

Lemma extracts_epub_metadata : extracts 1 _extract_epub_metadata.
Proof.
  intros fs m. unfold _extract_epub_metadata. munfold. simpl.
  destruct (open_read_epub fs (filepath (self m))) as [book|e]; simpl.
  2:{ eexists _, [_; _]. by rewrite <- app_assoc. }
  destruct (get_metadata book (str "DC") (str "title")) as [[|[v1 ?] l1]|e]; simpl;
    try (eexists _, [_; _]; by rewrite <- app_assoc);
    destruct (get_metadata book (str "DC") (str "creator")) as [[|[v2 ?] l2]|e]; simpl;
    try (eexists _, [_; _]; by rewrite <- app_assoc);
    by eexists _, [_].
Qed.

Lemma opens_scan_events ev msg sc :
  (forall i, is_open (ev i) = false) -> opens (scan_events ev msg sc) = O.
Proof.
  intros Hev. unfold scan_events. rewrite opens_app.
  assert (opens (List.map ev sc.2) = O) as ->.
  { unfold opens. induction sc.2 as [|i l IH]; [done|]. simpl. by rewrite Hev. }
  by destruct sc.1.
Qed.

Lemma extracts_pdf_isbn n : extracts 1 (_extract_isbn_from_pdf n).
Proof.
  intros fs m. rewrite extract_isbn_from_pdf_run. simpl.
  destruct (open_PdfReader fs (filepath (self m))) as [reader|e];
    [|eexists _, _; split; [reflexivity|by compute]].
  destruct (reader_pages reader) as [pages|e];
    [|eexists _, _; split; [reflexivity|by compute]].
  eexists _, _. split; [reflexivity|].
  change (opens (?a :: ?l)) with (S (opens l)). by rewrite opens_scan_events.
Qed.

Lemma extracts_epub_isbn : extracts 1 _extract_isbn_from_epub.
Proof.
  intros fs m. rewrite extract_isbn_from_epub_run. simpl.
  destruct (open_read_epub fs (filepath (self m))) as [book|e];
    [|eexists _, _; split; [reflexivity|by compute]].
  eexists _, _. split; [reflexivity|].
  change (opens (?a :: ?l)) with (S (opens l)). by rewrite opens_scan_events.
Qed.

Lemma returns_format : returns 0 format.
Proof.
  intros fs m. rewrite format_run. destruct (cached_format (self m)) as [v|].
  - exists v, (self m), []. rewrite app_nil_r. by destruct m.
  - eexists _, _, []. by rewrite app_nil_r.
Qed.

Lemma extracts_metadata_extractor fmt : extracts 1 (metadata_extractor fmt).
Proof.
  unfold metadata_extractor. repeat case_decide;
    [apply extracts_pdf_metadata|apply extracts_epub_metadata|].
  intros fs m. destruct (extracts_ret (∅ : dict (option text)) fs m) as (v & evs & E & Hn).
  exists v, evs. split; [done|lia].
Qed.

Lemma extracts_isbn_extractor fmt : extracts 1 (isbn_extractor fmt).
Proof.
  unfold isbn_extractor. repeat case_decide;
    [apply extracts_pdf_isbn|apply extracts_epub_isbn|].
  intros fs m. destruct (extracts_ret (None : option text) fs m) as (v & evs & E & Hn).
  exists v, evs. split; [done|lia].
Qed.

Lemma returns_ext {A} n (c c' : M A) :
  (forall fs m, c fs m = c' fs m) -> returns n c' -> returns n c.
Proof. intros E H fs m. rewrite E. apply H. Qed.

Lemma returns_metadata : returns 1 metadata.
Proof.
  apply (returns_ext _ _ _ metadata_run), returns_cached.
  apply (returns_bind 0 1); [apply returns_format|]. intros fmt.
  apply extracts_returns, extracts_metadata_extractor.
Qed.

Lemma returns_isbn : returns 1 isbn.
Proof.
  apply (returns_ext _ _ _ isbn_run), returns_cached.
  apply (returns_bind 0 1); [apply returns_format|]. intros fmt.
  apply extracts_returns, extracts_isbn_extractor.
Qed.

Lemma returns_title : returns 1 title.
Proof.
  apply returns_cached. apply (returns_bind 1 0); [apply returns_metadata|].
  intros md. apply returns_ret.
Qed.

Lemma returns_author : returns 1 author.
Proof.
  apply returns_cached. apply (returns_bind 1 0); [apply returns_metadata|].
  intros md. apply returns_ret.
Qed.

End BookFacts.

Section Caching.
Context {U : Unicode}.

Lemma lawful_format : lawful format_slot.
Proof. by intros v b. Qed.
Lemma lawful_metadata : lawful metadata_slot.
Proof. by intros v b. Qed.
Lemma lawful_title : lawful title_slot.
Proof. by intros v b. Qed.
Lemma lawful_author : lawful author_slot.
Proof. by intros v b. Qed.
Lemma lawful_isbn : lawful isbn_slot.
Proof. by intros v b. Qed.

Lemma cached_computed_once {A} (s : slot A) (f : M A) :
  lawful s -> returns 1 f -> computed_once (cached_property s f).
Proof.
  intros Hs Hf fs m. unfold cached_property at 1.
  destruct (slot_get s (self m)) as [v|] eqn:Hget.
  - exists v, (self m), []. rewrite app_nil_r. destruct m as [b tr]. simpl in *.
    repeat split; [apply Nat.le_0_l|]. intros fs' tr'. by apply cached_hit.
  - destruct (Hf fs m) as (v & b' & evs & -> & Hn). eexists v, _, evs.
    repeat split; [done|]. intros fs' tr'. apply cached_hit. apply Hs.
Qed.

Lemma computed_once_ext {A} (c c' : M A) :
  (forall fs m, c fs m = c' fs m) -> computed_once c' -> computed_once c.
Proof.
  intros E H fs m. destruct (H fs m) as (v & b' & evs & E1 & Hn & Hagain).
  exists v, b', evs. rewrite E. repeat split; [done..|]. intros. rewrite E. apply Hagain.
Qed.

Lemma format_once : computed_once format.
Proof.
  apply cached_computed_once; [apply lawful_format|].
  apply (returns_bind 0 1 get_self).
  - intros fs m. exists (self m), (self m), []. rewrite app_nil_r. by destruct m.
  - intros this. apply (returns_weaken 0); [lia|apply returns_ret].
Qed.

Lemma metadata_once : computed_once metadata.
Proof.
  apply (computed_once_ext _ _ metadata_run).
  apply cached_computed_once; [apply lawful_metadata|].
  apply (returns_bind 0 1); [apply returns_format|]. intros fmt.
  apply extracts_returns, extracts_metadata_extractor.
Qed.

Lemma isbn_once : computed_once isbn.
Proof.
  apply (computed_once_ext _ _ isbn_run).
  apply cached_computed_once; [apply lawful_isbn|].
  apply (returns_bind 0 1); [apply returns_format|]. intros fmt.
  apply extracts_returns, extracts_isbn_extractor.
Qed.

Lemma title_once : computed_once title.
Proof.
  apply cached_computed_once; [apply lawful_title|].
  apply (returns_bind 1 0); [apply returns_metadata|]. intros md. apply returns_ret.
Qed.

Lemma author_once : computed_once author.
Proof.
  apply cached_computed_once; [apply lawful_author|].
  apply (returns_bind 1 0); [apply returns_metadata|]. intros md. apply returns_ret.
Qed.

(** *** Descriptors of unknown format *)

Lemma unknown_extractors :
  metadata_extractor (str "Unknown") = mret ∅ /\ isbn_extractor (str "Unknown") = mret None.
Proof. unfold metadata_extractor, isbn_extractor. by rewrite !decide_False by done. Qed.

Lemma format_ok : reads_ok format (str "Unknown").
Proof.
  intros fs [[p cf cm ct ca ci] tr] [Hf Hu]. rewrite format_run. simpl in *.
  destruct Hf as [->| ->]; eexists _, _, []; rewrite app_nil_r;
    (split; [reflexivity|]); unfold cache_ok; simpl; intuition congruence.
Qed.

Lemma format_value fs m :
  cache_ok (self m) -> (format fs m).1 = Ok (format_of (filepath (self m))).
Proof.
  intros [Hf _]. rewrite format_run. by destruct Hf as [->| ->].
Qed.

End Caching.

Section Unknown.
Context {U : Unicode}.

Lemma metadata_ok : reads_ok metadata ∅.
Proof.
  intros fs m Hok. rewrite metadata_run. unfold cached_property.
  destruct (slot_get metadata_slot (self m)) as [v|] eqn:Hget.
  - exists v, (self m), []. rewrite app_nil_r. destruct m as [b tr]. simpl in *.
    split; [done|]. split; [done|]. split; [done|].
    intros Hx. destruct Hok as [_ Hu]. specialize (Hu Hx).
    rewrite Hget in Hu. intuition congruence.
  - destruct (format_ok fs m Hok) as (fmt & b1 & evs1 & E1 & Hok1 & Hp1 & Hu1).
    pose proof (format_value fs m Hok) as Hv. rewrite E1 in Hv. simpl in Hv.
    injection Hv as ->.
    destruct (extracts_metadata_extractor (format_of (filepath (self m))) fs
                (Machine b1 (trace m ++ evs1))) as (v & evs2 & E2 & _).
    exists v, (slot_set metadata_slot v b1), (evs1 ++ evs2).
    unfold mbind, M_bind. rewrite E1, E2. simpl. rewrite app_assoc.
    split; [done|].
    assert (Hv : format_of (filepath (self m)) = str "Unknown" -> v = ∅ /\ evs1 ++ evs2 = []).
    { intros Hx. destruct (Hu1 Hx) as [_ ->]. rewrite Hx in E2.
      destruct unknown_extractors as [Hext _]. rewrite Hext in E2.
      unfold mret, M_ret in E2. simpl in E2. injection E2 as <- Htr.
      split; [done|]. symmetry in Htr. rewrite <- app_nil_r in Htr.
      by apply app_inv_head in Htr as ->. }
    destruct b1 as [p cf cm ct ca ci]. destruct Hok1 as [Hf1 Hu1']. simpl in *.
    subst p. store_ok Hf1 Hu1' Hv.
Qed.

Lemma isbn_ok : reads_ok isbn None.
Proof.
  intros fs m Hok. rewrite isbn_run. unfold cached_property.
  destruct (slot_get isbn_slot (self m)) as [v|] eqn:Hget.
  - exists v, (self m), []. rewrite app_nil_r. destruct m as [b tr]. simpl in *.
    split; [done|]. split; [done|]. split; [done|].
    intros Hx. destruct Hok as [_ Hu]. specialize (Hu Hx).
    rewrite Hget in Hu. intuition congruence.
  - destruct (format_ok fs m Hok) as (fmt & b1 & evs1 & E1 & Hok1 & Hp1 & Hu1).
    pose proof (format_value fs m Hok) as Hv. rewrite E1 in Hv. simpl in Hv.
    injection Hv as ->.
    destruct (extracts_isbn_extractor (format_of (filepath (self m))) fs
                (Machine b1 (trace m ++ evs1))) as (v & evs2 & E2 & _).
    exists v, (slot_set isbn_slot v b1), (evs1 ++ evs2).
    unfold mbind, M_bind. rewrite E1, E2. simpl. rewrite app_assoc.
    split; [done|].
    assert (Hv : format_of (filepath (self m)) = str "Unknown" -> v = None /\ evs1 ++ evs2 = []).
    { intros Hx. destruct (Hu1 Hx) as [_ ->]. rewrite Hx in E2.
      destruct unknown_extractors as [_ Hext]. rewrite Hext in E2.
      unfold mret, M_ret in E2. simpl in E2. injection E2 as <- Htr.
      split; [done|]. symmetry in Htr. rewrite <- app_nil_r in Htr.
      by apply app_inv_head in Htr as ->. }
    destruct b1 as [p cf cm ct ca ci]. destruct Hok1 as [Hf1 Hu1']. simpl in *.
    subst p. store_ok Hf1 Hu1' Hv.
Qed.

Lemma title_ok : reads_ok title None.
Proof.
  intros fs m Hok. unfold title, cached_property.
  destruct (slot_get title_slot (self m)) as [v|] eqn:Hget.
  - exists v, (self m), []. rewrite app_nil_r. destruct m as [b tr]. simpl in *.
    split; [done|]. split; [done|]. split; [done|].
    intros Hx. destruct Hok as [_ Hu]. specialize (Hu Hx).
    rewrite Hget in Hu. intuition congruence.
  - destruct (metadata_ok fs m Hok) as (md & b1 & evs1 & E1 & Hok1 & Hp1 & Hu1).
    exists (dict_get md (str "title")), (slot_set title_slot (dict_get md (str "title")) b1), evs1.
    unfold mbind, M_bind, mret, M_ret. rewrite E1. simpl. split; [done|].
    assert (Hv : format_of (filepath (self m)) = str "Unknown" ->
                 dict_get md (str "title") = None /\ evs1 = []).
    { intros Hx. by destruct (Hu1 Hx) as [-> ->]. }
    destruct b1 as [p cf cm ct ca ci]. destruct Hok1 as [Hf1 Hu1']. simpl in *.
    subst p. store_ok Hf1 Hu1' Hv.
Qed.

Lemma author_ok : reads_ok author None.
Proof.
  intros fs m Hok. unfold author, cached_property.
  destruct (slot_get author_slot (self m)) as [v|] eqn:Hget.
  - exists v, (self m), []. rewrite app_nil_r. destruct m as [b tr]. simpl in *.
    split; [done|]. split; [done|]. split; [done|].
    intros Hx. destruct Hok as [_ Hu]. specialize (Hu Hx).
    rewrite Hget in Hu. intuition congruence.
  - destruct (metadata_ok fs m Hok) as (md & b1 & evs1 & E1 & Hok1 & Hp1 & Hu1).
    exists (dict_get md (str "author")), (slot_set author_slot (dict_get md (str "author")) b1), evs1.
    unfold mbind, M_bind, mret, M_ret. rewrite E1. simpl. split; [done|].
    assert (Hv : format_of (filepath (self m)) = str "Unknown" ->
                 dict_get md (str "author") = None /\ evs1 = []).
    { intros Hx. by destruct (Hu1 Hx) as [-> ->]. }
    destruct b1 as [p cf cm ct ca ci]. destruct Hok1 as [Hf1 Hu1']. simpl in *.
    subst p. store_ok Hf1 Hu1' Hv.
Qed.

Lemma read_ok a fs m :
  cache_ok (self m) ->
  cache_ok (self (read a fs m).2) /\ filepath (self (read a fs m).2) = filepath (self m).
Proof.
  intros Hok. destruct a; unfold read, mbind, M_bind, mret, M_ret.
  - destruct (format_ok fs m Hok) as (v & b' & evs & -> & ? & ? & _). done.
  - destruct (metadata_ok fs m Hok) as (v & b' & evs & -> & ? & ? & _). done.
  - destruct (title_ok fs m Hok) as (v & b' & evs & -> & ? & ? & _). done.
  - destruct (author_ok fs m Hok) as (v & b' & evs & -> & ? & ? & _). done.
  - destruct (isbn_ok fs m Hok) as (v & b' & evs & -> & ? & ? & _). done.
Qed.

Lemma new_Book_ok p : cache_ok (new_Book p).
Proof. unfold cache_ok. simpl. intuition congruence. Qed.

Lemma reachable_ok p b : reachable p b -> cache_ok b /\ filepath b = p.
Proof.
  induction 1 as [|a fs b tr _ [IH1 IH2]].
  - split; [apply new_Book_ok|done].
  - destruct (read_ok a fs (Machine b tr) IH1) as [H1 H2]. split; [done|].
    by rewrite H2.
Qed.

End Unknown.

Section Scan.
Context {U : Unicode}.

Lemma find_truthy t r : _find_isbn_in_text t = Ok (Some r) -> truthy (Some r) = true.
Proof.
  intros H%find_shape. destruct r; [|done]. by vm_compute in H.
Qed.

Lemma verdict_match t r :
  _find_isbn_in_text t = Ok (Some r) -> block_verdict (Ok t) = Ok (Some (Some r)).
Proof. intros H. unfold block_verdict. by rewrite H, (find_truthy t r H). Qed.

Lemma verdict_silent b : silent b -> block_verdict b = Ok None.
Proof. intros (t & -> & H). unfold block_verdict. by rewrite H. Qed.

Lemma scan_first blocks :
  forall i k t r,
    blocks !! k = Some (Ok t) ->
    _find_isbn_in_text t = Ok (Some r) ->
    (forall j b, (j < k)%nat -> blocks !! j = Some b -> silent b) ->
    scan i blocks = (Ok (Some (Some r)), List.seq i (S k)).
Proof.
  induction blocks as [|b blocks IH]; intros i k t r Hk Hr Hbefore; [done|].
  destruct k as [|k]; simpl in Hk.
  - injection Hk as ->. cbn [scan]. by rewrite (verdict_match t r Hr).
  - cbn [scan]. rewrite (verdict_silent b) by (apply (Hbefore O); [lia|done]).
    rewrite (IH (S i) k t r Hk Hr); [done|].
    intros j b' Hj Hb'. apply (Hbefore (S j)); [lia|done].
Qed.

Lemma scan_none blocks :
  forall i,
    (forall j b, blocks !! j = Some b -> silent b) ->
    scan i blocks = (Ok None, List.seq i (length blocks)).
Proof.
  induction blocks as [|b blocks IH]; intros i Hall; [done|].
  cbn [scan]. rewrite (verdict_silent b) by (by apply (Hall O)).
  rewrite IH; [done|]. intros j b' Hb'. by apply (Hall (S j)).
Qed.

Lemma scan_asked blocks :
  forall i n, In n (scan i blocks).2 -> (i <= n < i + length blocks)%nat.
Proof.
  induction blocks as [|b blocks IH]; intros i n; [done|]. cbn [scan].
  assert (Hhere : In n [i] -> (i <= n < i + length (b :: blocks))%nat).
  { intros [<-|[]]. simpl. lia. }
  destruct (block_verdict b) as [[v|]|e]; try exact Hhere.
  simpl. intros [<-|Hn]; [lia|]. apply IH in Hn. lia.
Qed.

Lemma slice_to_10 {A} (l : list A) : slice_to 10 l = take 10 l.
Proof. reflexivity. Qed.

(** *** A new descriptor *)

Lemma isbn_new fs p tr :
  isbn fs (Machine (new_Book p) tr) =
  match isbn_extractor (format_of p) fs
          (Machine (slot_set format_slot (format_of p) (new_Book p)) tr) with
  | (Ok v, m') => (Ok v, Machine (slot_set isbn_slot v (self m')) (trace m'))
  | (Raise e, m') => (Raise e, m')
  end.
Proof.
  rewrite isbn_run. unfold cached_property. simpl.
  unfold mbind, M_bind. by rewrite format_run.
Qed.

Lemma metadata_new fs p tr :
  metadata fs (Machine (new_Book p) tr) =
  match metadata_extractor (format_of p) fs
          (Machine (slot_set format_slot (format_of p) (new_Book p)) tr) with
  | (Ok v, m') => (Ok v, Machine (slot_set metadata_slot v (self m')) (trace m'))
  | (Raise e, m') => (Raise e, m')
  end.
Proof.
  rewrite metadata_run. unfold cached_property. simpl.
  unfold mbind, M_bind. by rewrite format_run.
Qed.

Lemma isbn_new_pdf fs p tr reader pages :
  format_of p = str "PDF" ->
  open_PdfReader fs p = Ok reader -> reader_pages reader = Ok pages ->
  let sc := scan 0 (List.map pdf_block (take 10 pages)) in
  exists b',
    isbn fs (Machine (new_Book p) tr) =
    (Ok (scan_result sc),
     Machine b' (tr ++ EvPdfReader p :: scan_events EvExtractText "PDF ISBN error: %s" sc)) /\
    cached_isbn b' = Some (scan_result sc).
Proof.
  intros Hfmt Hopen Hpages sc. rewrite isbn_new, Hfmt.
  unfold isbn_extractor. rewrite decide_True by done.
  rewrite extract_isbn_from_pdf_run. simpl. rewrite Hopen, Hpages. by eexists.
Qed.

Lemma isbn_new_epub fs p tr book :
  format_of p = str "EPUB" ->
  open_read_epub fs p = Ok book ->
  let sc := scan 0 (List.map epub_block (get_items_of_type book ITEM_DOCUMENT)) in
  exists b',
    isbn fs (Machine (new_Book p) tr) =
    (Ok (scan_result sc),
     Machine b' (tr ++ EvReadEpub p :: scan_events EvGetContent "EPUB ISBN error: %s" sc)) /\
    cached_isbn b' = Some (scan_result sc).
Proof.
  intros Hfmt Hopen sc. rewrite isbn_new, Hfmt.
  unfold isbn_extractor. rewrite decide_False by done. rewrite decide_True by done.
  rewrite extract_isbn_from_epub_run. simpl. rewrite Hopen. by eexists.
Qed.

End Scan.

(** * The claims *)

Section PatternMatcherClaims.
Context {U : Unicode}.

(** C1 (as amended): a candidate the Pattern Matcher returns is the
    normalization of a stretch [raw] of the text that one of the two bodies
    of the pattern accepts.  From the 13-digit body it consists of digits only
    and begins with 978 or 979; from the 10-character body it consists of
    digits followed by one final digit or X.  Its length is not fixed at 13
    or 10: the pattern bounds the groups from below only, so for a stretch of
    ASCII characters the candidate has at least 7 characters in the first
    shape and at least 4 in the second. *)
Theorem find_isbn_shapes t r :
  _find_isbn_in_text t = Ok (Some r) ->
  exists pre raw post,
    t = pre ++ raw ++ post /\ r = _normalize_isbn raw /\
    ((lang isbn13_body raw /\ shape13 r = true /\
      (forallb is_ascii raw = true -> (7 <= length r)%nat)) \/
     (lang isbn10_body raw /\ shape10 r = true /\
      (forallb is_ascii raw = true -> (4 <= length r)%nat))).
Proof.
  intros (pre & raw & post & -> & -> & [H|H])%find_sound; exists pre, raw, post.
  - destruct (normalize13 raw H) as [H1 H2]. auto 10.
  - destruct (normalize10 raw H) as [H1 H2]. auto 10.
Qed.

(** C7: normalization keeps exactly the characters that are digits, [X] or
    [x], in their order, and raises [x] to [X]; so a normalized string, and
    with it every candidate the Pattern Matcher returns, holds only digits and
    the capital letter X, and no separator. *)
Theorem normalize_keeps_digits_and_X raw :
  (forall c, kept c = true <-> (48 <= c <= 57 \/ c = chr "X" \/ c = chr "x")) /\
  _normalize_isbn raw = List.map ascii_upper (List.filter kept raw) /\
  forallb digit_or_X (_normalize_isbn raw) = true /\
  (forall c, digit_or_X c = true <-> (48 <= c <= 57 \/ c = chr "X")) /\
  (forall t r, _find_isbn_in_text t = Ok (Some r) -> forallb digit_or_X r = true).
Proof.
  split; [|split; [|split; [|split]]].
  - intros c. literals. split; [|intros [?|[->| ->]]]; charcases.
  - apply normalize_filter.
  - apply normalize_digit_or_X.
  - intros c. literals. split; [|intros [?| ->]]; charcases.
  - intros t r (pre & raw' & post & _ & -> & _)%find_sound.
    apply normalize_digit_or_X.
Qed.

(** C10: in a candidate the Pattern Matcher returns, the letter X stands
    only in the last position, hence at most once; a candidate from the
    13-digit body has no X at all. *)
Theorem find_isbn_X_only_last t r :
  _find_isbn_in_text t = Ok (Some r) ->
  (forall i, r !! i = Some (chr "X") -> S i = length r) /\
  (count_occ N.eq_dec r (chr "X") <= 1)%nat /\
  (forall raw, lang isbn13_body raw ->
     forallb ascii_isdecimal (_normalize_isbn raw) = true).
Proof.
  intros (D & e & -> & HD & He)%find_shape%shape10_inv.
  assert (HX : forall i, D !! i = Some (chr "X") -> False).
  { intros i Hi. apply list_elem_of_lookup_2, list_elem_of_In in Hi.
    rewrite forallb_forall in HD. apply HD in Hi. by vm_compute in Hi. }
  split; [|split].
  - intros i Hi. rewrite length_app. simpl.
    destruct (decide (i < length D)%nat) as [Hlt|Hge].
    + rewrite lookup_app_l in Hi by done. by apply HX in Hi.
    + rewrite lookup_app_r in Hi by lia.
      destruct (i - length D)%nat as [|n] eqn:Hn; [lia|]. by destruct n.
  - rewrite count_occ_app.
    assert (count_occ N.eq_dec D (chr "X") = O) as ->.
    { apply count_occ_not_In. intros Hin%list_elem_of_In%list_elem_of_lookup_1.
      destruct Hin as [i Hi]. by apply HX in Hi. }
    simpl. destruct (N.eq_dec e (chr "X")); simpl; lia.
  - intros raw Hraw. destruct (normalize13 raw Hraw) as [Hs _].
    destruct (_normalize_isbn raw) as [|c1 [|c2 [|c3 D']]]; try done.
    cbn [shape13] in Hs. rewrite !andb_true_iff in Hs.
    destruct Hs as [[[E1 E2] E3] HD']. simpl. rewrite HD', andb_true_r.
    revert E1 E2 E3. literals. clear. charcases.
Qed.

(** C3 (as amended): when the text before `978-0-13-468599-1` holds no
    digit and does not end in a word character, and the text after it is
    empty or begins with a character that is not a word character, the Pattern
    Matcher returns `9780134685991`.  The same holds for `9780134685991`
    written without hyphens, provided that a separator (hyphen or whitespace)
    right after it is not followed by a digit. *)
Theorem find_isbn_9780134685991 pre post :
  quiet_before pre = true ->
  (word_end post = true ->
   _find_isbn_in_text (pre ++ str "978-0-13-468599-1" ++ post)
   = Ok (Some (str "9780134685991"))) /\
  (digits_end post = true ->
   _find_isbn_in_text (pre ++ str "9780134685991" ++ post)
   = Ok (Some (str "9780134685991"))).
Proof.
  intros Hpre. split; intros Hpost.
  - apply (find_around (chr "9") (str "78-0-13-468599-1") post (str "978-0-13-468599-1"));
      [reflexivity..| |done].
    intros sn. by apply attempt_13_hyphens.
  - apply (find_around (chr "9") (str "780134685991") post (str "9780134685991"));
      [reflexivity..| |done].
    intros sn. by apply attempt_13_plain.
Qed.

(** C4 (as amended): when the text before `ISBN: 0-13-468599-1` holds no
    digit and does not end in a word character, and the text after it is
    empty or begins with a character that is not a word character, the Pattern
    Matcher returns `0134685991`: the prefix and the separators are gone.  The
    check character is kept: normalization turns a final [x] or [X] into [X]
    and leaves a final digit as it is. *)
Theorem find_isbn_0134685991 pre post :
  quiet_before pre = true -> word_end post = true ->
  _find_isbn_in_text (pre ++ str "ISBN: 0-13-468599-1" ++ post)
  = Ok (Some (str "0134685991")) /\
  (forall raw, _normalize_isbn (raw ++ str "x") = _normalize_isbn raw ++ str "X") /\
  (forall raw, _normalize_isbn (raw ++ str "X") = _normalize_isbn raw ++ str "X") /\
  (forall raw d, ascii_isdecimal d = true ->
     _normalize_isbn (raw ++ [d]) = _normalize_isbn raw ++ [d]).
Proof.
  intros Hpre Hpost. split; [|split; [|split]].
  - apply (find_around (chr "I") (str "SBN: 0-13-468599-1") post (str "0-13-468599-1"));
      [reflexivity..| |done].
    intros sn. by apply attempt_10_prefixed.
  - intros raw. by rewrite normalize_app.
  - intros raw. by rewrite normalize_app.
  - intros raw d Hd. rewrite normalize_app. f_equal.
    rewrite normalize_filter. simpl. 
    assert (kept d = true) as -> by (revert Hd; charcases).
    simpl. f_equal. revert Hd. charcases.
Qed.

End PatternMatcherClaims.

(** C1, a counterexample: a year is a candidate, and so is a short group
    that begins with 978; neither has 13 or 10 characters. *)
Lemma find_isbn_shapes_counterexample :
  @_find_isbn_in_text ascii_tables (str "Copyright 2018") = Ok (Some (str "2018")) /\
  claimed_shape (str "2018") = false /\
  @_find_isbn_in_text ascii_tables (str "978-1-2-3-4") = Ok (Some (str "9781234")) /\
  claimed_shape (str "9781234") = false.
Proof. repeat split; vm_compute; reflexivity. Qed.

Lemma find_isbn_shapes_witness :
  @_find_isbn_in_text ascii_tables (str "ISBN 0-306-40615-2 (pbk.)")
    = Ok (Some (str "0306406152")) /\
  exists pre raw post,
    str "ISBN 0-306-40615-2 (pbk.)" = pre ++ raw ++ post /\
    str "0306406152" = @_normalize_isbn ascii_tables raw /\
    ((@lang ascii_tables isbn13_body raw /\ shape13 (str "0306406152") = true /\
      (forallb is_ascii raw = true -> (7 <= length (str "0306406152"))%nat)) \/
     (@lang ascii_tables isbn10_body raw /\ shape10 (str "0306406152") = true /\
      (forallb is_ascii raw = true -> (4 <= length (str "0306406152"))%nat))).
Proof.
  split; [vm_compute; reflexivity|].
  apply (@find_isbn_shapes ascii_tables). vm_compute. reflexivity.
Defined.

Lemma normalize_keeps_digits_and_X_witness :
  @_find_isbn_in_text ascii_tables (str "isbn 0-8044-2957-x") = Ok (Some (str "080442957X")) /\
  forallb digit_or_X (str "080442957X") = true.
Proof.
  split; [vm_compute; reflexivity|].
  apply (proj2 (proj2 (proj2 (proj2
    (@normalize_keeps_digits_and_X ascii_tables (str "0-8044-2957-x")))))
    (str "isbn 0-8044-2957-x")).
  vm_compute. reflexivity.
Defined.

Lemma find_isbn_X_only_last_witness :
  @_find_isbn_in_text ascii_tables (str "isbn 0-8044-2957-x") = Ok (Some (str "080442957X")) /\
  (forall i, str "080442957X" !! i = Some (chr "X") -> S i = length (str "080442957X")) /\
  (count_occ N.eq_dec (str "080442957X") (chr "X") <= 1)%nat /\
  (forall raw, @lang ascii_tables isbn13_body raw ->
     forallb ascii_isdecimal (@_normalize_isbn ascii_tables raw) = true).
Proof.
  split; [vm_compute; reflexivity|].
  apply (@find_isbn_X_only_last ascii_tables (str "isbn 0-8044-2957-x")).
  vm_compute. reflexivity.
Defined.

(** C3, a counterexample: a year earlier in the text is what the Pattern
    Matcher returns. *)
Lemma find_isbn_9780134685991_counterexample :
  @_find_isbn_in_text ascii_tables (str "Published 2018. ISBN 978-0-13-468599-1")
    = Ok (Some (str "2018")) /\
  @_find_isbn_in_text ascii_tables (str "Printing 10 9780134685991")
    = Ok (Some (str "109780134685991")) /\
  @_find_isbn_in_text ascii_tables (str "x978-0-13-468599-1")
    = Ok (Some (str "0134685991")).
Proof. repeat split; vm_compute; reflexivity. Qed.

Lemma find_isbn_9780134685991_witness :
  @quiet_before ascii_tables (str "Third edition. ISBN ") = true /\
  (@word_end ascii_tables (str " (hardcover)") = true ->
   @_find_isbn_in_text ascii_tables
     (str "Third edition. ISBN " ++ str "978-0-13-468599-1" ++ str " (hardcover)")
   = Ok (Some (str "9780134685991"))) /\
  (@digits_end ascii_tables (str " (hardcover)") = true ->
   @_find_isbn_in_text ascii_tables
     (str "Third edition. ISBN " ++ str "9780134685991" ++ str " (hardcover)")
   = Ok (Some (str "9780134685991"))).
Proof.
  split; [vm_compute; reflexivity|].
  apply (@find_isbn_9780134685991 ascii_tables). vm_compute. reflexivity.
Defined.

(** C4, a counterexample: again an earlier number wins. *)
Lemma find_isbn_0134685991_counterexample :
  @_find_isbn_in_text ascii_tables (str "Copyright 2018. ISBN: 0-13-468599-1")
    = Ok (Some (str "2018")).
Proof. vm_compute. reflexivity. Qed.

Lemma find_isbn_0134685991_witness :
  @quiet_before ascii_tables (str "Effective Java. ") = true /\
  @word_end ascii_tables (str ".") = true /\
  @_find_isbn_in_text ascii_tables
    (str "Effective Java. " ++ str "ISBN: 0-13-468599-1" ++ str ".")
  = Ok (Some (str "0134685991")).
Proof.
  split; [vm_compute; reflexivity|]. split; [vm_compute; reflexivity|].
  apply (@find_isbn_0134685991 ascii_tables); vm_compute; reflexivity.
Defined.

Section BookClaims.
Context {U : Unicode}.

Lemma scan_raise blocks :
  forall i k e,
    blocks !! k = Some (Raise e) ->
    (forall j b, (j < k)%nat -> blocks !! j = Some b -> silent b) ->
    scan i blocks = (Raise e, List.seq i (S k)).
Proof.
  induction blocks as [|b blocks IH]; intros i k e Hk Hbefore; [done|].
  destruct k as [|k]; simpl in Hk.
  - by injection Hk as ->.
  - cbn [scan]. rewrite (verdict_silent b) by (apply (Hbefore O); [lia|done]).
    rewrite (IH (S i) k e Hk); [done|].
    intros j b' Hj Hb'. apply (Hbefore (S j)); [lia|done].
Qed.

Lemma scan_first_match_wins blocks msg :
  first_match_wins blocks (scan_result (scan 0 blocks)) (scan 0 blocks).2
    (match (scan 0 blocks).1 with Ok _ => [] | Raise e => [EvDebug msg e] end).
Proof.
  split.
  - intros k t r Hk Hr Hbefore. by rewrite (scan_first blocks 0 k t r Hk Hr Hbefore).
  - intros Hall. by rewrite (scan_none blocks 0 Hall).
Qed.

Lemma map_lookup {A B} (f : A -> B) (l : list A) i :
  List.map f l !! i = f <$> (l !! i).
Proof. revert i. induction l as [|x l IH]; intros [|i]; simpl; auto. Qed.

(** C9: on a new descriptor of a PDF or an EPUB that opens, [isbn] asks the
    adapter for its text blocks in order (the first ten pages, or the document
    items), applies the Pattern Matcher to each, returns the candidate of the
    first block with a match and stops the scan there; when no block has a
    match it is absent.  What it returns is what the descriptor keeps. *)
Theorem isbn_first_match_wins fs p tr :
  (forall reader pages,
      format_of p = str "PDF" ->
      open_PdfReader fs p = Ok reader -> reader_pages reader = Ok pages ->
      exists result asked logged b',
        isbn fs (Machine (new_Book p) tr) =
        (Ok result,
         Machine b' (tr ++ EvPdfReader p :: List.map EvExtractText asked ++ logged)) /\
        cached_isbn b' = Some result /\
        first_match_wins (List.map pdf_block (take 10 pages)) result asked logged) /\
  (forall book,
      format_of p = str "EPUB" -> open_read_epub fs p = Ok book ->
      exists result asked logged b',
        isbn fs (Machine (new_Book p) tr) =
        (Ok result,
         Machine b' (tr ++ EvReadEpub p :: List.map EvGetContent asked ++ logged)) /\
        cached_isbn b' = Some result /\
        first_match_wins (List.map epub_block (get_items_of_type book ITEM_DOCUMENT))
          result asked logged).
Proof.
  split.
  - intros reader pages Hfmt Hopen Hpages.
    destruct (isbn_new_pdf fs p tr reader pages Hfmt Hopen Hpages) as (b' & E & Hc).
    eexists _, _, _, b'. split; [exact E|]. split; [exact Hc|].
    apply scan_first_match_wins.
  - intros book Hfmt Hopen.
    destruct (isbn_new_epub fs p tr book Hfmt Hopen) as (b' & E & Hc).
    eexists _, _, _, b'. split; [exact E|]. split; [exact Hc|].
    apply scan_first_match_wins.
Qed.

(** C5: on a new descriptor of a PDF that opens, the scan asks for the text
    of the first ten pages at most.  When the first two pages have no match
    and page 3 holds "ISBN-13: 978-1-23456-789-7" (after text with no digit
    that does not end in a word character, and before the end of the text or
    a character that is not a word character), [isbn] is `9781234567897`.
    When none of the first ten pages has a match, [isbn] is absent, also when
    page 12 holds that text. *)
Theorem pdf_isbn_first_ten_pages fs p tr reader pages :
  format_of p = str "PDF" ->
  open_PdfReader fs p = Ok reader -> reader_pages reader = Ok pages ->
  exists result evs b',
    isbn fs (Machine (new_Book p) tr) = (Ok result, Machine b' (tr ++ evs)) /\
    (forall i, In (EvExtractText i) evs -> (i < 10)%nat) /\
    (forall pre post page3,
        quiet_before pre = true -> word_end post = true ->
        pages !! 2%nat = Some page3 ->
        extract_text page3 = Ok (Some (pre ++ str "ISBN-13: 978-1-23456-789-7" ++ post)) ->
        (forall j pj, (j < 2)%nat -> pages !! j = Some pj -> silent (pdf_block pj)) ->
        result = Some (str "9781234567897")) /\
    (forall page12,
        pages !! 11%nat = Some page12 ->
        extract_text page12 = Ok (Some (str "ISBN-13: 978-1-23456-789-7")) ->
        (forall j pj, (j < 10)%nat -> pages !! j = Some pj -> silent (pdf_block pj)) ->
        result = None).
Proof.
  intros Hfmt Hopen Hpages.
  destruct (isbn_new_pdf fs p tr reader pages Hfmt Hopen Hpages) as (b' & E & _).
  eexists _, _, b'. split; [exact E|]. split; [|split].
  - intros i Hi. simpl in Hi. destruct Hi as [Hi|Hi]; [done|].
    unfold scan_events in Hi. apply in_app_iff in Hi as [Hi|Hi].
    + apply in_map_iff in Hi as (n & [= ->] & Hn). apply scan_asked in Hn.
      rewrite length_map, length_take in Hn. lia.
    + destruct (scan 0 _).1; simpl in Hi; [done|]. by destruct Hi.
  - intros pre post page3 Hpre Hpost H3 Ht Hbefore.
    set (t := pre ++ str "ISBN-13: 978-1-23456-789-7" ++ post) in *.
    assert (Hfind : _find_isbn_in_text t = Ok (Some (str "9781234567897"))).
    { apply (find_around (chr "I") (str "SBN-13: 978-1-23456-789-7") post
               (str "978-1-23456-789-7")); [reflexivity..| |done].
      intros sn. by apply attempt_13_prefixed. }
    rewrite (scan_first _ 0 2 t (str "9781234567897")); [done| |done|].
    + rewrite map_lookup, lookup_take_lt, H3 by lia. simpl. unfold pdf_block.
      rewrite Ht. f_equal. subst t. by destruct pre.
    + intros j b Hj Hb. rewrite map_lookup, lookup_take_lt in Hb by lia.
      destruct (pages !! j) as [pj|] eqn:Hpj; [|done]. injection Hb as <-.
      by apply (Hbefore j).
  - intros page12 _ _ Hten. rewrite scan_none; [done|].
    intros j b Hb. rewrite map_lookup in Hb.
    destruct (take 10 pages !! j) as [pj|] eqn:Hpj; [|done]. injection Hb as <-.
    apply lookup_take_Some in Hpj as [Hpj Hj]. by apply (Hten j).
Qed.

(** C8: each of [format], [metadata], [title], [author] and [isbn] is
    computed at most once for a descriptor: a read opens at most one file,
    and every later read returns the same value without an event and without
    a change to the descriptor. *)
Theorem properties_computed_once :
  computed_once format /\ computed_once metadata /\ computed_once title /\
  computed_once author /\ computed_once isbn.
Proof.
  repeat split;
    [apply format_once|apply metadata_once|apply title_once|apply author_once|apply isbn_once].
Qed.

(** C6: the format follows the lower-cased extension: ".pdf" is PDF, ".epub"
    is EPUB, anything else Unknown, and [format] returns it.  On a descriptor
    of unknown format, [metadata] is the empty mapping and [title], [author]
    and [isbn] are absent, and the reads leave no event: no file is opened. *)
Theorem unknown_format_is_empty p b fs tr :
  reachable p b ->
  format_of p = (if decide (lower (suffix p) = str ".pdf") then str "PDF"
                 else if decide (lower (suffix p) = str ".epub") then str "EPUB"
                 else str "Unknown") /\
  (format fs (Machine b tr)).1 = Ok (format_of p) /\
  (format_of p = str "Unknown" ->
   (exists b', format fs (Machine b tr) = (Ok (str "Unknown"), Machine b' tr)) /\
   (exists b', metadata fs (Machine b tr) = (Ok ∅, Machine b' tr)) /\
   (exists b', title fs (Machine b tr) = (Ok None, Machine b' tr)) /\
   (exists b', author fs (Machine b tr) = (Ok None, Machine b' tr)) /\
   (exists b', isbn fs (Machine b tr) = (Ok None, Machine b' tr))).
Proof.
  intros [Hok Hp]%reachable_ok. split; [apply format_of_cases|]. split.
  - rewrite (format_value fs (Machine b tr) Hok). simpl. by rewrite Hp.
  - intros Hunk.
    assert (Hunk' : format_of (filepath (self (Machine b tr))) = str "Unknown")
      by (simpl; by rewrite Hp).
    repeat split.
    + destruct (format_ok fs (Machine b tr) Hok) as (v & b' & evs & E & _ & _ & Hu).
      destruct (Hu Hunk') as [-> ->]. rewrite app_nil_r in E. eauto.
    + destruct (metadata_ok fs (Machine b tr) Hok) as (v & b' & evs & E & _ & _ & Hu).
      destruct (Hu Hunk') as [-> ->]. rewrite app_nil_r in E. eauto.
    + destruct (title_ok fs (Machine b tr) Hok) as (v & b' & evs & E & _ & _ & Hu).
      destruct (Hu Hunk') as [-> ->]. rewrite app_nil_r in E. eauto.
    + destruct (author_ok fs (Machine b tr) Hok) as (v & b' & evs & E & _ & _ & Hu).
      destruct (Hu Hunk') as [-> ->]. rewrite app_nil_r in E. eauto.
    + destruct (isbn_ok fs (Machine b tr) Hok) as (v & b' & evs & E & _ & _ & Hu).
      destruct (Hu Hunk') as [-> ->]. rewrite app_nil_r in E. eauto.
Qed.

Lemma title_author_new fs p tr md m' :
  metadata fs (Machine (new_Book p) tr) = (Ok md, m') ->
  (title fs (Machine (new_Book p) tr)).1 = Ok (dict_get md (str "title")) /\
  (author fs (Machine (new_Book p) tr)).1 = Ok (dict_get md (str "author")).
Proof.
  intros H. unfold title, author, cached_property. simpl.
  unfold mbind, M_bind. by rewrite H.
Qed.

Lemma metadata_empty_new fs p tr :
  (metadata fs (Machine (new_Book p) tr)).1 = Ok ∅ ->
  (metadata fs (Machine (new_Book p) tr)).1 = Ok ∅ /\
  (title fs (Machine (new_Book p) tr)).1 = Ok None /\
  (author fs (Machine (new_Book p) tr)).1 = Ok None.
Proof.
  intros H. split; [done|].
  destruct (metadata fs (Machine (new_Book p) tr)) as [o m'] eqn:E. simpl in H. subst o.
  by destruct (title_author_new fs p tr ∅ m' E) as [-> ->].
Qed.

Lemma metadata_new_value fs p tr :
  (metadata fs (Machine (new_Book p) tr)).1 =
  (metadata_extractor (format_of p) fs
     (Machine (slot_set format_slot (format_of p) (new_Book p)) tr)).1.
Proof. rewrite metadata_new. by destruct (metadata_extractor _ _ _) as [[v|e] m']. Qed.

Lemma isbn_new_value fs p tr :
  (isbn fs (Machine (new_Book p) tr)).1 =
  (isbn_extractor (format_of p) fs
     (Machine (slot_set format_slot (format_of p) (new_Book p)) tr)).1.
Proof. rewrite isbn_new. by destruct (isbn_extractor _ _ _) as [[v|e] m']. Qed.

(** C2: no read of [format], [metadata], [title], [author] or [isbn] raises,
    whatever the files are and whatever the descriptor has cached; and on a
    new descriptor a failure to open the file, to parse it or to extract or
    decode a text block before any match leaves [metadata] empty and [title],
    [author] and [isbn] absent. *)
Theorem no_exception_escapes fs :
  (forall m,
      (exists v m', format fs m = (Ok v, m')) /\
      (exists v m', metadata fs m = (Ok v, m')) /\
      (exists v m', title fs m = (Ok v, m')) /\
      (exists v m', author fs m = (Ok v, m')) /\
      (exists v m', isbn fs m = (Ok v, m'))) /\
  (forall p tr,
      format_of p = str "PDF" ->
      let m0 := Machine (new_Book p) tr in
      ((exists e, open_PdfReader fs p = Raise e) ->
       ((metadata fs m0).1 = Ok ∅ /\ (title fs m0).1 = Ok None /\
        (author fs m0).1 = Ok None) /\ (isbn fs m0).1 = Ok None) /\
      (forall reader,
          open_PdfReader fs p = Ok reader ->
          ((exists e, reader_metadata reader = Raise e) ->
           (metadata fs m0).1 = Ok ∅ /\ (title fs m0).1 = Ok None /\
           (author fs m0).1 = Ok None) /\
          ((exists e, reader_pages reader = Raise e) -> (isbn fs m0).1 = Ok None) /\
          (forall pages k page e,
              reader_pages reader = Ok pages ->
              take 10 pages !! k = Some page -> extract_text page = Raise e ->
              (forall j pj, (j < k)%nat -> pages !! j = Some pj -> silent (pdf_block pj)) ->
              (isbn fs m0).1 = Ok None))) /\
  (forall p tr,
      format_of p = str "EPUB" ->
      let m0 := Machine (new_Book p) tr in
      ((exists e, open_read_epub fs p = Raise e) ->
       ((metadata fs m0).1 = Ok ∅ /\ (title fs m0).1 = Ok None /\
        (author fs m0).1 = Ok None) /\ (isbn fs m0).1 = Ok None) /\
      (forall book,
          open_read_epub fs p = Ok book ->
          ((exists e, get_metadata book (str "DC") (str "title") = Raise e) ->
           (metadata fs m0).1 = Ok ∅ /\ (title fs m0).1 = Ok None /\
           (author fs m0).1 = Ok None) /\
          (forall k item e,
              get_items_of_type book ITEM_DOCUMENT !! k = Some item ->
              get_content item = Raise e ->
              (forall j ij, (j < k)%nat ->
                 get_items_of_type book ITEM_DOCUMENT !! j = Some ij ->
                 silent (epub_block ij)) ->
              (isbn fs m0).1 = Ok None))).
Proof.
  split; [|split].
  - intros m. repeat split.
    + destruct (returns_format fs m) as (v & b' & evs & E & _). eauto.
    + destruct (returns_metadata fs m) as (v & b' & evs & E & _). eauto.
    + destruct (returns_title fs m) as (v & b' & evs & E & _). eauto.
    + destruct (returns_author fs m) as (v & b' & evs & E & _). eauto.
    + destruct (returns_isbn fs m) as (v & b' & evs & E & _). eauto.
  - intros p tr Hfmt m0. subst m0.
    assert (Hmd : metadata_extractor (format_of p) = _extract_pdf_metadata).
    { rewrite Hfmt. unfold metadata_extractor. by rewrite decide_True. }
    assert (Hisbn : isbn_extractor (format_of p) = _extract_isbn_from_pdf 10).
    { rewrite Hfmt. unfold isbn_extractor. by rewrite decide_True. }
    split; [|intros reader Hopen; split; [|split]].
    + intros [e Hopen]. split.
      * apply metadata_empty_new. rewrite metadata_new_value, Hmd.
        unfold _extract_pdf_metadata. munfold. simpl. by rewrite Hopen.
      * rewrite isbn_new_value, Hisbn, extract_isbn_from_pdf_run. simpl.
        by rewrite Hopen.
    + intros [e Hmeta]. apply metadata_empty_new. rewrite metadata_new_value, Hmd.
      unfold _extract_pdf_metadata. munfold. simpl. by rewrite Hopen, Hmeta.
    + intros [e Hpages]. rewrite isbn_new_value, Hisbn, extract_isbn_from_pdf_run.
      simpl. by rewrite Hopen, Hpages.
    + intros pages k page e Hpages Hk Hraise Hbefore.
      rewrite isbn_new_value, Hisbn, extract_isbn_from_pdf_run. simpl.
      rewrite Hopen, Hpages. simpl. unfold scan_result.
      rewrite (scan_raise _ 0 k e); [done| |].
      * rewrite map_lookup. change (slice_to 10 pages) with (take 10 pages).
        rewrite Hk. simpl. unfold pdf_block. by rewrite Hraise.
      * intros j b Hj Hb. rewrite map_lookup in Hb.
        change (slice_to 10 pages) with (take 10 pages) in Hb.
        destruct (take 10 pages !! j) as [pj|] eqn:Hpj; [|done]. injection Hb as <-.
        apply lookup_take_Some in Hpj as [Hpj _]. by apply (Hbefore j).
  - intros p tr Hfmt m0. subst m0.
    assert (Hmd : metadata_extractor (format_of p) = _extract_epub_metadata).
    { rewrite Hfmt. unfold metadata_extractor.
      rewrite decide_False by done. by rewrite decide_True. }
    assert (Hisbn : isbn_extractor (format_of p) = _extract_isbn_from_epub).
    { rewrite Hfmt. unfold isbn_extractor.
      rewrite decide_False by done. by rewrite decide_True. }
    split; [|intros book Hopen; split].
    + intros [e Hopen]. split.
      * apply metadata_empty_new. rewrite metadata_new_value, Hmd.
        unfold _extract_epub_metadata. munfold. simpl. by rewrite Hopen.
      * rewrite isbn_new_value, Hisbn, extract_isbn_from_epub_run. simpl.
        by rewrite Hopen.
    + intros [e Hmeta]. apply metadata_empty_new. rewrite metadata_new_value, Hmd.
      unfold _extract_epub_metadata. munfold. simpl. by rewrite Hopen, Hmeta.
    + intros k item e Hk Hraise Hbefore.
      rewrite isbn_new_value, Hisbn, extract_isbn_from_epub_run. simpl.
      rewrite Hopen. simpl. unfold scan_result.
      rewrite (scan_raise _ 0 k e); [done| |].
      * rewrite map_lookup, Hk. simpl. unfold epub_block. by rewrite Hraise.
      * intros j b Hj Hb. rewrite map_lookup in Hb.
        destruct (get_items_of_type book ITEM_DOCUMENT !! j) as [ij|] eqn:Hij; [|done].
        injection Hb as <-. by apply (Hbefore j).
Qed.

End BookClaims.

(** ** Examples *)

Section Examples.
#[local] Existing Instance ascii_tables.

Lemma no_exception_escapes_witness :
  format_of (path_of "corrupt.pdf") = str "PDF" /\
  (exists e, open_PdfReader sample_files (path_of "corrupt.pdf") = Raise e) /\
  (metadata sample_files (Machine (new_Book (path_of "corrupt.pdf")) [])).1 = Ok ∅ /\
  (isbn sample_files (Machine (new_Book (path_of "corrupt.pdf")) [])).1 = Ok None.
Proof.
  split; [vm_compute; reflexivity|].
  assert (Hopen : exists e, open_PdfReader sample_files (path_of "corrupt.pdf") = Raise e)
    by (eexists; vm_compute; reflexivity).
  split; [exact Hopen|].
  destruct (no_exception_escapes sample_files) as (_ & Hpdf & _).
  destruct (Hpdf (path_of "corrupt.pdf") [] eq_refl) as [Hfail _].
  destruct (Hfail Hopen) as [(Hmd & _ & _) Hisbn]. split; [exact Hmd|exact Hisbn].
Defined.

Lemma pdf_isbn_first_ten_pages_witness :
  (isbn sample_files (Machine (new_Book (path_of "front.pdf")) [])).1
    = Ok (Some (str "9781234567897")) /\
  (isbn sample_files (Machine (new_Book (path_of "back.PDF")) [])).1 = Ok None.
Proof.
  split.
  - destruct (pdf_isbn_first_ten_pages sample_files (path_of "front.pdf") []
                front_matter_pdf _ eq_refl eq_refl eq_refl)
      as (result & evs & b' & E & _ & Hpage3 & _).
    rewrite E. simpl. f_equal.
    apply (Hpage3 [] [] (text_page "ISBN-13: 978-1-23456-789-7"));
      try (vm_compute; reflexivity).
    intros j pj Hj Hpj. destruct j as [|[|j]]; [| |lia]; injection Hpj as <-;
      eexists; (split; [vm_compute; reflexivity|vm_compute; reflexivity]).
  - destruct (pdf_isbn_first_ten_pages sample_files (path_of "back.PDF") []
                back_matter_pdf _ eq_refl eq_refl eq_refl)
      as (result & evs & b' & E & _ & _ & Hpage12).
    rewrite E. simpl. f_equal.
    apply (Hpage12 (text_page "ISBN-13: 978-1-23456-789-7")); try reflexivity.
    intros j pj Hj Hpj.
    do 10 (destruct j as [|j]; [injection Hpj as <-; eexists;
      (split; [vm_compute; reflexivity|vm_compute; reflexivity])|]).
    lia.
Defined.

Lemma unknown_format_is_empty_witness :
  reachable (path_of "notes.txt")
    (self (read Title sample_files (Machine (new_Book (path_of "notes.txt")) [])).2) /\
  format_of (path_of "notes.txt") = str "Unknown" /\
  exists b',
    isbn sample_files
      (Machine (self (read Title sample_files (Machine (new_Book (path_of "notes.txt")) [])).2)
         [])
    = (Ok None, Machine b' []).
Proof.
  assert (Hreach : reachable (path_of "notes.txt")
            (self (read Title sample_files (Machine (new_Book (path_of "notes.txt")) [])).2))
    by apply reach_read, reach_new.
  split; [exact Hreach|]. split; [vm_compute; reflexivity|].
  destruct (unknown_format_is_empty (path_of "notes.txt") _ sample_files [] Hreach)
    as (_ & _ & Hunk).
  destruct (Hunk eq_refl) as (_ & _ & _ & _ & Hisbn). exact Hisbn.
Defined.

Lemma isbn_first_match_wins_witness :
  format_of (path_of "sample.epub") = str "EPUB" /\
  exists b',
    isbn sample_files (Machine (new_Book (path_of "sample.epub")) []) =
    (Ok (Some (str "080442957X")),
     Machine b' [EvReadEpub (path_of "sample.epub"); EvGetContent 0; EvGetContent 1]).
Proof.
  split; [vm_compute; reflexivity|].
  destruct (isbn_first_match_wins sample_files (path_of "sample.epub") []) as [_ Hepub].
  destruct (Hepub sample_epub eq_refl eq_refl)
    as (result & asked & logged & b' & E & _ & Hfirst & _).
  destruct (Hfirst 1%nat (str "<p>ISBN 0-8044-2957-x</p>") (str "080442957X"))
    as (-> & -> & ->); [vm_compute; reflexivity..| |by exists b'].
  intros j b Hj Hb. destruct j as [|j]; [|lia]. injection Hb as <-.
  eexists. split; vm_compute; reflexivity.
Defined.

End Examples.

(** * Further properties *)

(** ** The pattern matcher *)

Section Candidates.
Context {U : Unicode}.

(** X1: the Pattern Matcher never raises, whatever the text: group 1 takes part
    in every match.  A candidate it returns is never the empty string, so the
    test [if isbn] of the scans lets every candidate through. *)
Theorem find_isbn_never_raises t :
  exists o, _find_isbn_in_text t = Ok o /\
    (forall r, o = Some r -> r <> [] /\ truthy o = true).
Proof.
  destruct (find_returns t) as [o E]. exists o. split; [done|].
  intros r ->. split; [|by apply (find_truthy t)].
  apply find_shape, shape10_inv in E as (D & e & -> & _). by destruct D.
Qed.

Lemma normalize_fixpoint r : forallb digit_or_X r = true -> _normalize_isbn r = r.
Proof.
  intros H. rewrite normalize_filter. induction r as [|c r IH]; [done|].
  simpl in H. apply andb_true_iff in H as [Hc Hr].
  assert (kept c = true /\ ascii_upper c = c) as [Hk Hu] by (revert Hc; clear; charcases).
  simpl. rewrite Hk. simpl. by rewrite Hu, IH.
Qed.

End Candidates.

(** *** The matcher gives up only when there is no match *)

Section Complete.
Context {U : Unicode}.

Lemma orelse_None {A} (x y : option A) : orelse x y = None -> x = None /\ y = None.
Proof. by destruct x. Qed.

Lemma repeat_atom_complete {A} a (k : mstate -> option A) g rs :
  forall lo hi sn,
    repeat_atom a lo hi k sn g rs = None ->
    forall w rs',
      rs = w ++ rs' -> Forall (fun c => atom_match a c = true) w ->
      (lo <= length w)%nat -> (forall h, hi = Some h -> (length w <= h)%nat) ->
      k (MState (rev w ++ sn) rs' g) = None.
Proof.
  induction rs as [|c rs IH]; intros lo hi sn Hrun w rs' Hrs Hw Hlo Hhi.
  - destruct w; [|done]. simpl in Hrs. subst rs'. simpl in *.
    destruct lo; [|lia]. by destruct hi as [[|h]|].
  - destruct w as [|d w].
    + simpl in Hrs. subst rs'. destruct lo; [|simpl in Hlo; lia].
      cbn [repeat_atom] in Hrun.
      destruct hi as [[|h]|]; [done| |];
        (destruct (atom_match a c); [by apply orelse_None in Hrun as [_ ?]|done]).
    + injection Hrs as <- ->. apply Forall_cons in Hw as [Hd Hw].
      assert (Hrec : repeat_atom a (Nat.pred lo) (Nat.pred <$> hi) k (c :: sn) g (w ++ rs') = None).
      { cbn [repeat_atom] in Hrun. rewrite Hd in Hrun.
        destruct hi as [[|h]|].
        - specialize (Hhi O eq_refl). simpl in Hhi. lia.
        - by apply orelse_None in Hrun as [? _].
        - by apply orelse_None in Hrun as [? _]. }
      simpl. rewrite <- app_assoc. simpl.
      apply (IH _ _ _ Hrec w rs' eq_refl Hw).
      * simpl in Hlo. lia.
      * intros h Hh. destruct hi as [h'|]; [|done]. simpl in Hh. injection Hh as <-.
        specialize (Hhi h' eq_refl). simpl in Hhi. lia.
Qed.

(** The matcher gives up only when the pattern has no match that the rest
    of the pattern accepts. *)
Lemma run_complete {A} r :
  forall (k : mstate -> option A) st,
    run r k st = None -> forall st', matches r st st' -> k st' = None.
Proof.
  induction r as [|a|lo hi a|r IH|r1 IH1 r2 IH2|r1 IH1 r2 IH2|r IH|];
    intros k st Hrun st' Hm; inversion Hm; subst; clear Hm; cbn [run] in Hrun.
  - done.
  - match goal with H : rest st = _ |- _ => rewrite H in Hrun end.
    match goal with H : atom_match _ _ = true |- _ => rewrite H in Hrun end. done.
  - destruct st as [sn0 rs0 g0]. simpl in *. by eapply repeat_atom_complete.
  - apply orelse_None in Hrun as [H _]. by eapply IH.
  - by apply orelse_None in Hrun as [_ H].
  - match goal with H1 : matches r1 _ ?s, H2 : matches r2 ?s _ |- _ =>
      apply (IH2 k s); [|exact H2]; apply (IH1 _ _ Hrun _ H1) end.
  - apply orelse_None in Hrun as [H _]. by eapply IH1.
  - apply orelse_None in Hrun as [_ H]. by eapply IH2.
  - match goal with H : matches r _ _ |- _ => apply (IH _ _ Hrun _ H) end.
  - match goal with H : at_boundary _ = true |- _ => rewrite H in Hrun end. done.
Qed.

Lemma search_from_complete r rs :
  forall sn,
    search_from r sn rs = None ->
    forall pre rs', rs = pre ++ rs' -> run r Some (MState (rev pre ++ sn) rs' None) = None.
Proof.
  induction rs as [|c rs IH]; intros sn H pre rs' Hrs; simpl in H.
  - destruct pre; [|done]. simpl in Hrs. subst rs'. simpl.
    by destruct (run r Some (MState sn [] None)).
  - destruct (run r Some (MState sn (c :: rs) None)) eqn:Hrun; [done|].
    destruct pre as [|d pre].
    + simpl in Hrs. by subst rs'.
    + injection Hrs as <- ->. simpl. rewrite <- app_assoc. simpl. by apply IH.
Qed.

Lemma search_from_first r rs :
  forall sn m,
    search_from r sn rs = Some m ->
    exists pre rs', rs = pre ++ rs' /\
      run r Some (MState (rev pre ++ sn) rs' None) = Some m /\
      forall pre' rs'', rs = pre' ++ rs'' -> (length pre' < length pre)%nat ->
        run r Some (MState (rev pre' ++ sn) rs'' None) = None.
Proof.
  induction rs as [|c rs IH]; intros sn m H; simpl in H.
  - destruct (run r Some (MState sn [] None)) eqn:Hrun; [|done].
    exists [], []. simplify_eq. repeat split; auto. simpl. intros; lia.
  - destruct (run r Some (MState sn (c :: rs) None)) eqn:Hrun.
    + exists [], (c :: rs). simplify_eq. repeat split; auto. simpl. intros; lia.
    + apply IH in H as (pre & rs' & -> & H & Hfirst).
      exists (c :: pre), rs'. split; [done|]. simpl. rewrite <- app_assoc. split; [done|].
      intros pre' rs'' Hrs Hlen. destruct pre' as [|d pre'].
      * simpl in Hrs. by subst rs''.
      * injection Hrs as <- Hrs. simpl. rewrite <- app_assoc. simpl.
        apply Hfirst; [done|]. simpl in Hlen. lia.
Qed.

(** X2: no match is reported exactly when the pattern matches at no position. *)
Theorem find_isbn_none_iff t :
  _find_isbn_in_text t = Ok None <->
  forall pre rs m, t = pre ++ rs -> ~ matches _ISBN_RE (MState (rev pre) rs None) m.
Proof.
  unfold _find_isbn_in_text, search. split.
  - intros H pre rs m -> Hm.
    destruct (search_from _ISBN_RE [] (pre ++ rs)) as [m'|] eqn:Hs.
    { by destruct (group1 m'). }
    pose proof (search_from_complete _ _ _ Hs pre rs eq_refl) as Hrun.
    rewrite app_nil_r in Hrun. by pose proof (run_complete _ _ _ Hrun _ Hm).
  - intros Hno. destruct (search_from _ISBN_RE [] t) as [m|] eqn:Hs; [|done].
    apply search_from_sound in Hs as (pre & rs & -> & Hrun).
    rewrite app_nil_r in Hrun. apply run_sound in Hrun as (m' & Hm & _).
    by destruct (Hno pre rs m' eq_refl).
Qed.

(** X3: a candidate comes from the leftmost position at which the pattern
    matches. *)
Theorem find_isbn_leftmost t r :
  _find_isbn_in_text t = Ok (Some r) ->
  exists pre rs m raw,
    t = pre ++ rs /\ matches _ISBN_RE (MState (rev pre) rs None) m /\
    group1 m = Some raw /\ r = _normalize_isbn raw /\
    forall pre' rs' m',
      t = pre' ++ rs' -> (length pre' < length pre)%nat ->
      ~ matches _ISBN_RE (MState (rev pre') rs' None) m'.
Proof.
  unfold _find_isbn_in_text, search. intros H.
  destruct (search_from _ISBN_RE [] t) as [m|] eqn:Hs; [|done].
  apply search_from_first in Hs as (pre & rs & -> & Hrun & Hfirst).
  rewrite app_nil_r in Hrun.
  destruct (group1 m) as [raw|] eqn:Hg; [|done]. injection H as <-.
  apply run_sound in Hrun as (m' & Hm & [= ->]).
  exists pre, rs, m, raw. repeat split; auto.
  intros pre' rs' m' Hrs Hlen Hm'.
  pose proof (Hfirst pre' rs' Hrs Hlen) as Hnone. rewrite app_nil_r in Hnone.
  by pose proof (run_complete _ _ _ Hnone _ Hm').
Qed.

End Complete.

(** *** What a group looks like *)

Section Groups.
Context {U : Unicode}.

Lemma numeral_word c : numeral c = true -> isword c = true.
Proof.
  unfold numeral. destruct (isword c) eqn:Hw; [done|].
  rewrite (nonword_nondecimal c Hw). simpl. revert Hw. clear. unfold isword.
  destruct (is_ascii c) eqn:Ha.
  - clear Ha. charcases.
  - intros _ Hk%kept_ascii. congruence.
Qed.

Lemma digit_atom c : atom_match (ASet [IDigit]) c = isdecimal c.
Proof. simpl. apply orb_false_r. Qed.

Lemma sep_atom c : atom_match (ASet [IChar (chr "-"); ISpace]) c = is_sep c.
Proof. unfold is_sep. cbn [atom_match existsb item_mem]. by rewrite orb_false_r. Qed.

Lemma check_atom c :
  atom_match (ASet [IRange (chr "0") (chr "9"); IChar (chr "X"); IChar (chr "x")]) c = kept c.
Proof. unfold kept. cbn [atom_match existsb item_mem]. by rewrite orb_false_r, orb_assoc. Qed.

Lemma grouped_digits w l :
  Forall (fun c => atom_match (ASet [IDigit]) c = true) w -> grouped (w ++ l) = grouped l.
Proof.
  induction 1 as [|c w Hc _ IH]; [done|]. rewrite digit_atom in Hc.
  simpl. unfold numeral. by rewrite Hc.
Qed.

Lemma grouped_sep s l :
  lang sep_opt s -> starts_numeral l = true -> grouped (s ++ l) = grouped l.
Proof.
  intros (Hs & _ & Hlen) Hl. specialize (Hlen 1%nat eq_refl).
  destruct s as [|c [|? ?]]; [done| |simpl in Hlen; lia].
  apply Forall_inv in Hs. rewrite sep_atom in Hs. simpl.
  destruct (numeral c); [done|]. rewrite Hs. destruct l; [done|].
  simpl in Hl. by rewrite Hl.
Qed.

Lemma starts_digits w l :
  Forall (fun c => atom_match (ASet [IDigit]) c = true) w -> (1 <= length w)%nat ->
  starts_numeral (w ++ l) = true.
Proof.
  intros [|c w' Hc _] Hn; [simpl in Hn; lia|]. rewrite digit_atom in Hc.
  simpl. unfold numeral. by rewrite Hc.
Qed.

Lemma body_grouped raw :
  lang isbn13_body raw \/ lang isbn10_body raw ->
  grouped raw = true /\ starts_digit raw = true /\
  (3 <= length (List.filter isdecimal raw))%nat.
Proof.
  intros [H|H].
  - unfold isbn13_body in H. cbn [seq] in H.
    destruct H as (l97 & ? & -> & ->%lang_lit & c & ? & -> & (? & -> & Hc) &
          s1 & ? & -> & Hs1 & d1 & ? & -> & (Hd1 & Hn1 & _) &
          s2 & ? & -> & Hs2 & d2 & ? & -> & (Hd2 & Hn2 & _) &
          s3 & ? & -> & Hs3 & d3 & ? & -> & (Hd3 & Hn3 & _) &
          s4 & ? & -> & Hs4 & d4 & -> & Hd4).
    assert (Hx : isdecimal x = true).
    { simpl in Hc. rewrite orb_false_r in Hc.
      by apply orb_true_iff in Hc as [->%N.eqb_eq| ->%N.eqb_eq]. }
    assert (Hd4' : isdecimal d4 = true) by by rewrite <- digit_atom.
    split; [|split].
    + change (str "97" ++ [x] ++ ?l) with ([57; 55; x] ++ l).
      rewrite (grouped_digits [57; 55; x]) by (repeat constructor; by rewrite digit_atom).
      rewrite grouped_sep, grouped_digits, grouped_sep, grouped_digits, grouped_sep,
        grouped_digits, grouped_sep; auto using starts_digits.
      * simpl. unfold numeral. by rewrite Hd4'.
      * simpl. unfold numeral. by rewrite Hd4'.
    + done.
    + rewrite !List.filter_app, !length_app. simpl. rewrite Hx. simpl. lia.
  - unfold isbn10_body in H. cbn [seq] in H.
    destruct H as (d1 & ? & -> & (Hd1 & Hn1 & _) &
          s1 & ? & -> & Hs1 & d2 & ? & -> & (Hd2 & Hn2 & _) &
          s2 & ? & -> & Hs2 & d3 & ? & -> & (Hd3 & Hn3 & _) &
          s3 & ? & -> & Hs3 & e & -> & He).
    rewrite check_atom in He.
    assert (He' : numeral e = true) by (unfold numeral; rewrite He; apply orb_true_r).
    assert (Hall : forall d, Forall (fun c => atom_match (ASet [IDigit]) c = true) d ->
                     List.filter isdecimal d = d).
    { intros d Hd. induction Hd as [|c d Hc _ IH]; [done|]. rewrite digit_atom in Hc.
      simpl. by rewrite Hc, IH. }
    split; [|split].
    + rewrite grouped_digits, grouped_sep, grouped_digits, grouped_sep,
        grouped_digits, grouped_sep; auto using starts_digits; simpl; by rewrite He'.
    + destruct Hd1 as [|c d1 Hc _]; [simpl in Hn1; lia|]. by rewrite digit_atom in Hc.
    + rewrite !List.filter_app, !length_app, (Hall d1), (Hall d2), (Hall d3) by done. lia.
Qed.

(** X4: a text with fewer than three decimal digits has no candidate. *)
Theorem find_isbn_needs_three_digits t :
  (length (List.filter isdecimal t) < 3)%nat -> _find_isbn_in_text t = Ok None.
Proof.
  intros Hlt. destruct (find_returns t) as [[r|] E]; [|done].
  apply find_sound in E as (pre & raw & post & -> & _ & Hl).
  apply body_grouped in Hl as (_ & _ & Hn).
  rewrite !List.filter_app, !length_app in Hlt. lia.
Qed.

End Groups.

(** *** Numbers that stand alone *)

Section DigitRun.
Context {U : Unicode}.

Lemma lang_matches r :
  plain r = true ->
  forall w sn rs g,
    lang r w -> matches r (MState sn (w ++ rs) g) (MState (rev w ++ sn) rs g).
Proof.
  induction r as [|a|lo hi a|r IH|r1 IH1 r2 IH2|r1 IH1 r2 IH2|r IH|];
    intros Hp w sn rs g Hw; simpl in Hp, Hw; try discriminate.
  - subst w. constructor.
  - destruct Hw as (c & -> & Hc). by apply (m_one a (MState sn (c :: rs) g)).
  - destruct Hw as (Hw & Hlo & Hhi). by apply (m_repeat lo hi a (MState sn (w ++ rs) g)).
  - destruct Hw as [->|Hw]; [apply m_maybe_skip|apply m_maybe_take; auto].
  - apply andb_true_iff in Hp as [Hp1 Hp2]. destruct Hw as (u & v & -> & Hu & Hv).
    apply (m_cat _ _ _ (MState (rev u ++ sn) (v ++ rs) g)).
    + rewrite <- app_assoc. by apply IH1.
    + rewrite rev_app_distr, <- app_assoc. by apply IH2.
  - apply andb_true_iff in Hp as [Hp1 Hp2].
    destruct Hw as [Hw|Hw]; [apply m_or_left|apply m_or_right]; auto.
Qed.

Lemma isbn_re_matches st m :
  matches _ISBN_RE st m ->
  exists p raw,
    rest st = p ++ raw ++ rest m /\ seen m = rev raw ++ rev p ++ seen st /\
    lang isbn_prefix p /\ (lang isbn13_body raw \/ lang isbn10_body raw) /\
    group1 m = Some raw /\ at_boundary m = true.
Proof.
  intros Hm. unfold _ISBN_RE in Hm. cbn [seq] in Hm.
  inversion Hm as [| | | | |? ? ? st1 ? Hb H1| | | |]; subst; clear Hm.
  inversion Hb; subst; clear Hb.
  inversion H1 as [| | | | |? ? ? st2 ? Hp H2| | | |]; subst; clear H1.
  inversion H2 as [| | | | |? ? ? st3 ? Hc Hb| | | |]; subst; clear H2.
  inversion Hb; subst; clear Hb.
  apply matches_consumed in Hp as (p & Hp1 & Hp2 & Hp3).
  apply matches_capture in Hc as (raw & Hr1 & Hr2 & Hl & Hg).
  exists p, raw. rewrite Hp1, Hr1, Hr2, Hp2. auto 10.
Qed.

Lemma ascii_digit_decimal c : ascii_isdecimal c = true -> isdecimal c = true.
Proof. unfold isdecimal. charcases. Qed.

Lemma decimal_numeral c : isdecimal c = true -> numeral c = true.
Proof. unfold numeral. by intros ->. Qed.

Lemma grouped_last raw :
  grouped raw = true -> raw <> [] -> exists raw' e, raw = raw' ++ [e] /\ numeral e = true.
Proof.
  induction raw as [|c raw IH]; [done|]. intros Hg _. simpl in Hg.
  destruct raw as [|d raw].
  - exists [], c. split; [done|]. destruct (numeral c); [done|].
    by rewrite andb_false_r in Hg.
  - destruct IH as (raw' & e & -> & He); [|done|by exists (c :: raw'), e].
    destruct (numeral c); [done|]. by apply andb_true_iff in Hg as [_ ?].
Qed.

(** A group that starts with a run of digits that stands alone is that run. *)
Lemma group_is_run post rest_m :
  word_end rest_m = true -> number_end post = true ->
  forall D raw,
    grouped raw = true -> forallb ascii_isdecimal D = true ->
    raw ++ rest_m = D ++ post -> raw = D.
Proof.
  intros Hend Hpost. induction D as [|d D IH]; intros raw Hg HD Heq.
  - destruct raw as [|c raw]; [done|]. simpl in Heq. subst post. exfalso.
    simpl in Hg, Hpost. apply andb_true_iff in Hpost as [Hc Hnext].
    destruct (numeral c) eqn:Hn.
    { apply numeral_word in Hn. by rewrite Hn in Hc. }
    apply andb_true_iff in Hg as [[Hsep Hd]%andb_true_iff _].
    rewrite Hsep in Hnext. simpl in Hnext.
    destruct raw as [|d raw]; [done|]. simpl in Hnext. by rewrite Hd in Hnext.
  - simpl in HD. apply andb_true_iff in HD as [Hd HD].
    destruct raw as [|c raw].
    + simpl in Heq. subst rest_m. simpl in Hend.
      apply ascii_digit_decimal, decimal_numeral, numeral_word in Hd. by rewrite Hd in Hend.
    + injection Heq as -> Heq. f_equal. apply IH; [|done|done].
      simpl in Hg. by rewrite (decimal_numeral d (ascii_digit_decimal d Hd)) in Hg.
Qed.

Lemma prefix_shape p :
  lang isbn_prefix p ->
  p = [] \/
  (exists p', p = chr "I" :: p') /\
  (forallb (fun c => negb (isdecimal c)) p = true \/ exists q, p = str "ISBN-1" ++ q).
Proof.
  unfold isbn_prefix. cbn [seq].
  intros [->|(u & ? & -> & ->%lang_lit & v1 & ? & -> & Hv1 &
              v2 & v3 & -> & (Hv2 & _) & (Hv3 & _))]; [by left|].
  right. split; [by eexists|].
  destruct Hv1 as [->|(a & b & -> & ->%lang_lit & c & -> & Hc)].
  - left. rewrite !forallb_app. repeat (apply andb_true_iff; split); try done.
    + apply forallb_forall. rewrite Forall_forall in Hv2.
      intros c Hc%list_elem_of_In%Hv2. simpl in Hc. by apply N.eqb_eq in Hc as ->.
    + apply forallb_forall. rewrite Forall_forall in Hv3.
      intros c Hc%list_elem_of_In%Hv3. simpl in Hc. rewrite orb_false_r in Hc.
      by rewrite (nonword_nondecimal c (space_nonword c Hc)).
  - right. by eexists.
Qed.

Lemma first_decimal (l1 l2 r1 r2 : text) d1 d2 :
  l1 ++ d1 :: r1 = l2 ++ d2 :: r2 ->
  forallb (fun c => negb (isdecimal c)) l1 = true ->
  forallb (fun c => negb (isdecimal c)) l2 = true ->
  isdecimal d1 = true -> isdecimal d2 = true ->
  l1 = l2 /\ d1 :: r1 = d2 :: r2.
Proof.
  revert l2. induction l1 as [|c l1 IH]; intros [|c' l2] Heq H1 H2 Hd1 Hd2; simpl in *.
  - done.
  - injection Heq as <- _. by rewrite Hd1 in H2.
  - injection Heq as -> _. by rewrite Hd2 in H1.
  - injection Heq as <- Heq. apply andb_true_iff in H1 as [_ H1], H2 as [_ H2].
    destruct (IH l2 Heq H1 H2 Hd1 Hd2) as [-> ?]. done.
Qed.

Lemma boundary_word_end m e sn :
  at_boundary m = true -> seen m = e :: sn -> isword e = true -> word_end (rest m) = true.
Proof.
  unfold at_boundary, word_end. intros Hb Hs He. rewrite Hs, He in Hb.
  destruct (rest m) as [|c l]; [done|]. by destruct (isword c).
Qed.

(** A match that starts in the text before a run of digits, or at the run,
    has the run as its group. *)
Lemma run_group sn u D post m :
  forallb (fun c => negb (isdecimal c)) u = true ->
  match rev u with [] => true | c :: _ => negb (c =? chr "-") end = true ->
  forallb ascii_isdecimal D = true -> D <> [] -> number_end post = true ->
  matches _ISBN_RE (MState sn (u ++ D ++ post) None) m ->
  group1 m = Some D.
Proof.
  intros Hu Hlast HD Hne Hpost (p & raw & Hrest & Hseen & Hp & Hraw & -> & Hb)%isbn_re_matches.
  simpl in Hrest, Hseen. f_equal.
  destruct (body_grouped raw Hraw) as (Hg & Hstart & _).
  assert (Hend : word_end (rest m) = true).
  { destruct (grouped_last raw Hg) as (raw' & e & -> & He); [by destruct raw|].
    rewrite rev_app_distr in Hseen. simpl in Hseen.
    eapply boundary_word_end; eauto using numeral_word. }
  destruct D as [|d D]; [done|]. destruct raw as [|c raw]; [done|]. simpl in Hstart.
  assert (Hd : isdecimal d = true).
  { simpl in HD. apply andb_true_iff in HD as [Hd _]. by apply ascii_digit_decimal. }
  destruct (prefix_shape p Hp) as [->|[[p' Hp'] [Hnd|[q ->]]]].
  - destruct u as [|c' u].
    + by apply (group_is_run post (rest m)).
    + simpl in Hrest, Hu. injection Hrest as -> _. by rewrite Hstart in Hu.
  - destruct (first_decimal _ _ _ _ _ _ Hrest) as [_ Heq]; [done..|].
    by apply (group_is_run post (rest m)).
  - exfalso. clear Hp Hp' Hseen.
    change (str "ISBN-1" ++ q) with (str "ISBN-" ++ 49 :: q) in Hrest.
    rewrite <- app_assoc in Hrest.
    destruct (first_decimal _ _ _ _ _ _ Hrest) as [-> _]; done.
Qed.

Lemma split_last_two {A} (l : list A) :
  (2 <= length l)%nat -> exists l' a b, l = l' ++ [a; b].
Proof.
  intros Hlen. rewrite <- (rev_involutive l) in *. rewrite length_rev in Hlen.
  destruct (rev l) as [|b [|a l']]; simpl in Hlen; [lia..|].
  exists (rev l'), a, b. simpl. by rewrite <- app_assoc.
Qed.

Lemma digits_lang D :
  forallb ascii_isdecimal D = true -> (4 <= length D)%nat -> lang isbn10_body D.
Proof.
  intros HD Hlen. destruct D as [|d1 D]; [simpl in Hlen; lia|].
  destruct (split_last_two D) as (mid & d3 & d4 & ->); [simpl in Hlen; lia|].
  assert (Hall : Forall (fun c => atom_match (ASet [IDigit]) c = true) (d1 :: mid ++ [d3; d4])).
  { apply Forall_forall. intros c Hc%list_elem_of_In. rewrite forallb_forall in HD.
    rewrite digit_atom. by apply ascii_digit_decimal, HD. }
  apply Forall_cons in Hall as [H1 Hall]. apply Forall_app in Hall as [Hmid Hall].
  apply Forall_cons in Hall as [H3 Hall]. apply Forall_cons in Hall as [H4 _].
  assert (Hk : kept d4 = true).
  { rewrite forallb_forall in HD. unfold kept. rewrite (HD d4); [done|].
    right. apply in_app_iff. right. simpl. auto. }
  assert (Hsep : lang sep_opt []) by (repeat split; [constructor|simpl; lia|simpl; intros; lia]).
  rewrite length_cons, length_app in Hlen. simpl in Hlen.
  unfold isbn10_body. cbn [seq].
  exists [d1], (mid ++ [d3; d4]). split; [done|]. split.
  { repeat split; [by constructor|simpl; lia|]. intros h [= <-]. simpl. lia. }
  exists [], (mid ++ [d3; d4]). split; [done|]. split; [done|].
  exists mid, [d3; d4]. split; [done|]. split.
  { repeat split; [done|lia|done]. }
  exists [], [d3; d4]. split; [done|]. split; [done|].
  exists [d3], [d4]. split; [done|]. split.
  { repeat split; [by constructor|simpl; lia|done]. }
  exists [], [d4]. split; [done|]. split; [done|].
  exists d4. split; [done|]. by rewrite check_atom.
Qed.

Lemma clear_before_quiet pre :
  clear_before pre = true ->
  forallb (fun c => negb (isdecimal c)) pre = true /\
  match rev pre with [] => true | c :: _ => negb (isword c) end = true /\
  match rev pre with [] => true | c :: _ => negb (c =? chr "-") end = true.
Proof.
  unfold clear_before. intros [H1 H2]%andb_true_iff. split; [done|].
  destruct (rev pre); [done|]. by apply andb_true_iff in H2.
Qed.

Lemma run_at_start pre D post :
  clear_before pre = true -> forallb ascii_isdecimal D = true -> (4 <= length D)%nat ->
  number_end post = true ->
  exists m, matches _ISBN_RE (MState (rev pre) (D ++ post) None) m.
Proof.
  intros (_ & Hlast & _)%clear_before_quiet HD Hlen Hpost.
  pose proof (digits_lang D HD Hlen) as Hl.
  destruct (split_last_two D) as (D' & d3 & d4 & ED); [lia|].
  assert (H4 : isword d4 = true).
  { apply numeral_word, decimal_numeral, ascii_digit_decimal.
    rewrite forallb_forall in HD. apply HD. subst D. apply in_app_iff. right. simpl. auto. }
  assert (H1 : exists d1 l, D = d1 :: l /\ isword d1 = true).
  { destruct D as [|d1 l]; [simpl in Hlen; lia|]. exists d1, l. split; [done|].
    simpl in HD. apply andb_true_iff in HD as [Hd _].
    by apply numeral_word, decimal_numeral, ascii_digit_decimal. }
  destruct H1 as (d1 & l & E1 & H1).
  eexists. unfold _ISBN_RE. cbn [seq].
  eapply m_cat; [apply m_boundary|].
  { unfold at_boundary. simpl. rewrite E1. simpl. rewrite H1.
    destruct (rev pre) as [|c ?]; [done|]. by destruct (isword c). }
  eapply m_cat; [apply m_maybe_skip|].
  eapply m_cat.
  { apply m_capture. apply m_or_right.
    apply (lang_matches isbn10_body eq_refl D (rev pre) post None Hl). }
  apply m_boundary. unfold at_boundary. simpl.
  rewrite ED, rev_app_distr. simpl. rewrite H4.
  destruct post as [|c post']; [done|]. simpl in Hpost.
  apply andb_true_iff in Hpost as [Hc _]. by destruct (isword c).
Qed.

(** X5: a run of four or more ASCII digits that stands alone is reported as a
    candidate, as it is. *)
Theorem find_isbn_digit_run pre D post :
  forallb ascii_isdecimal D = true -> (4 <= length D)%nat ->
  clear_before pre = true -> number_end post = true ->
  _find_isbn_in_text (pre ++ D ++ post) = Ok (Some D).
Proof.
  intros HD Hlen Hpre Hpost.
  destruct (run_at_start pre D post Hpre HD Hlen Hpost) as [m0 Hm0].
  apply clear_before_quiet in Hpre as (Hnd & _ & Hlast).
  unfold _find_isbn_in_text, search.
  destruct (search_from _ISBN_RE [] (pre ++ D ++ post)) as [m|] eqn:Hs.
  - apply search_from_first in Hs as (pre0 & rs0 & Heq & Hrun & Hfirst).
    rewrite app_nil_r in Hrun.
    assert (Hle : (length pre0 <= length pre)%nat).
    { destruct (decide (length pre0 <= length pre)%nat) as [|Hgt]; [done|exfalso].
      pose proof (Hfirst pre (D ++ post) eq_refl ltac:(lia)) as Hnone.
      rewrite app_nil_r in Hnone. by pose proof (run_complete _ _ _ Hnone _ Hm0). }
    assert (Hu : exists u, pre = pre0 ++ u /\ rs0 = u ++ D ++ post).
    { exists (drop (length pre0) pre).
      assert (E : pre0 = take (length pre0) pre).
      { apply (f_equal (take (length pre0))) in Heq.
        by rewrite take_app_le, take_app_length in Heq by done. }
      split.
      - rewrite E at 1. by rewrite take_drop.
      - apply (f_equal (drop (length pre0))) in Heq.
        by rewrite drop_app_le, drop_app_length in Heq by done. }
    destruct Hu as (u & -> & ->).
    apply run_sound in Hrun as (m' & Hm & [= ->]).
    rewrite (run_group (rev pre0) u D post m); [| | |done|by intros ->; simpl in Hlen; lia|done|done].
    + do 2 f_equal. apply normalize_fixpoint.
      rewrite forallb_forall in *. intros c Hc. unfold digit_or_X. by rewrite (HD c Hc).
    + rewrite forallb_app in Hnd. by apply andb_true_iff in Hnd as [_ ?].
    + rewrite rev_app_distr in Hlast. destruct (rev u); [done|exact Hlast].
  - pose proof (search_from_complete _ _ _ Hs pre (D ++ post) eq_refl) as Hnone.
    rewrite app_nil_r in Hnone. by pose proof (run_complete _ _ _ Hnone _ Hm0).
Qed.

End DigitRun.

(** *** Delimiters, and the algebra of normalization *)

Section Delimited.
Context {U : Unicode}.

Lemma isbn_re_start st m :
  matches _ISBN_RE st m -> at_boundary st = true.
Proof.
  intros Hm. unfold _ISBN_RE in Hm. cbn [seq] in Hm.
  inversion Hm as [| | | | |? ? ? st1 ? Hb H1| | | |]; subst; clear Hm.
  by inversion Hb; subst.
Qed.

(** X6: a candidate is delimited: the match (optional prefix, then the group)
    starts at the beginning of the text or after a character that is not a
    word character, and the group ends at the end of the text or before a
    character that is not a word character. *)
Theorem find_isbn_delimited t r :
  _find_isbn_in_text t = Ok (Some r) ->
  exists pre p raw post,
    t = pre ++ p ++ raw ++ post /\ lang isbn_prefix p /\ r = _normalize_isbn raw /\
    match rev pre with [] => true | c :: _ => negb (isword c) end = true /\
    word_end post = true.
Proof.
  unfold _find_isbn_in_text, search. intros H.
  destruct (search_from _ISBN_RE [] t) as [m|] eqn:Hs; [|done].
  apply search_from_sound in Hs as (pre & rs & -> & Hrun).
  rewrite app_nil_r in Hrun. apply run_sound in Hrun as (m' & Hm & [= ->]).
  pose proof (isbn_re_start _ _ Hm) as Hstart.
  apply isbn_re_matches in Hm as (p & raw & Hrest & Hseen & Hp & Hraw & Hg & Hend).
  simpl in Hrest, Hseen. rewrite Hg in H. injection H as <-.
  exists pre, p, raw, (rest m). subst rs. repeat split; auto.
  - destruct (body_grouped raw Hraw) as (_ & Hd & _).
    assert (Hw : exists c l, p ++ raw ++ rest m = c :: l /\ isword c = true).
    { destruct (prefix_shape p Hp) as [->|[[p' ->] _]].
      - destruct raw as [|c raw]; [done|]. simpl in Hd. exists c, (raw ++ rest m).
        split; [done|]. by apply numeral_word, decimal_numeral.
      - by eexists _, _. }
    destruct Hw as (c & l & Hcl & Hc). unfold at_boundary in Hstart. simpl in Hstart.
    rewrite Hcl, Hc in Hstart. destruct (rev pre) as [|d ?]; [done|]. by destruct (isword d).
  - destruct (body_grouped raw Hraw) as (Hgr & Hd & _).
    destruct (grouped_last raw Hgr) as (raw' & e & -> & He); [by destruct raw|].
    rewrite rev_app_distr in Hseen. simpl in Hseen.
    eapply boundary_word_end; eauto using numeral_word.
Qed.

(** X7: normalization is idempotent and never lengthens its argument; it
    distributes over concatenation and is blind to every character that is
    not a digit, [X] or [x]; a text of digits and [X] is left as it is. *)
Theorem normalize_algebra u v :
  _normalize_isbn (_normalize_isbn u) = _normalize_isbn u /\
  (length (_normalize_isbn u) <= length u)%nat /\
  _normalize_isbn (u ++ v) = _normalize_isbn u ++ _normalize_isbn v /\
  (forall c, kept c = false -> _normalize_isbn (u ++ c :: v) = _normalize_isbn (u ++ v)) /\
  (forallb digit_or_X u = true -> _normalize_isbn u = u).
Proof.
  split; [apply normalize_fixpoint, normalize_digit_or_X|]. split.
  { rewrite normalize_filter, length_map. apply List.filter_length_le. }
  split; [apply normalize_app|]. split; [|apply normalize_fixpoint].
  intros c Hc. rewrite !normalize_app. f_equal.
  change (c :: v) with ([c] ++ v). rewrite normalize_app.
  assert (_normalize_isbn [c] = []) as ->; [|done].
  rewrite normalize_filter. simpl. by rewrite Hc.
Qed.

End Delimited.

(** ** The Book Descriptor *)

(** *** File names *)

Section FileNames.
Context {U : Unicode}.

Lemma rfind_none c s : ~ In c s -> rfind c s = None.
Proof.
  induction s as [|d s IH]; [done|]. intros Hn. simpl.
  rewrite IH by (intros ?; apply Hn; by right).
  destruct (N.eqb_spec d c) as [->|]; [|done]. destruct Hn. by left.
Qed.

Lemma rfind_last c stem ext :
  ~ In c ext -> rfind c (stem ++ c :: ext) = Some (length stem).
Proof.
  intros Hn. induction stem as [|d stem IH]; simpl.
  - by rewrite (rfind_none c ext Hn), N.eqb_refl.
  - by rewrite IH.
Qed.

Lemma format_of_suffix p :
  suffix p = [] -> format_of p = str "Unknown".
Proof.
  intros E. rewrite format_of_cases, E.
  assert (lower [] = []) as -> by done.
  by rewrite !decide_False by done.
Qed.

(** X8: the format is decided by what follows the last dot of the file name,
    whatever its case; a name without a dot, a name that begins with its
    only dot and a name that ends in a dot have no format. *)
Theorem format_by_extension p :
  (~ In (chr ".") (name p) -> format_of p = str "Unknown") /\
  (forall stem ext,
      name p = stem ++ chr "." :: ext -> ~ In (chr ".") ext ->
      (stem = [] \/ ext = [] -> format_of p = str "Unknown") /\
      (stem <> [] -> ext <> [] ->
       (lower (chr "." :: ext) = str ".pdf" -> format_of p = str "PDF") /\
       (lower (chr "." :: ext) = str ".epub" -> format_of p = str "EPUB") /\
       (lower (chr "." :: ext) <> str ".pdf" -> lower (chr "." :: ext) <> str ".epub" ->
        format_of p = str "Unknown"))).
Proof.
  split.
  - intros Hn. apply format_of_suffix. unfold suffix. by rewrite rfind_none.
  - intros stem ext Hname Hn.
    assert (Hs : suffix p =
                 match stem, ext with [], _ | _, [] => [] | _, _ => chr "." :: ext end).
    { unfold suffix. rewrite Hname, rfind_last, length_app by done.
      destruct stem as [|c stem]; [done|]. destruct ext as [|d ext].
      - assert ((length (c :: stem) <? length (c :: stem) + length [chr "."] - 1)%nat = false)
          as -> by (apply Nat.ltb_ge; simpl; lia).
        by rewrite andb_false_r.
      - assert ((length (c :: stem) <? length (c :: stem) + length (chr "." :: d :: ext) - 1)%nat
                = true) as -> by (apply Nat.ltb_lt; simpl; lia).
        by rewrite drop_app_length. }
    split.
    + intros [->| ->]; apply format_of_suffix; rewrite Hs; [done|by destruct stem].
    + intros H1 H2. rewrite format_of_cases, Hs.
      destruct stem as [|c stem]; [done|]. destruct ext as [|d ext]; [done|].
      repeat split.
      * intros ->. by rewrite decide_True.
      * intros ->. rewrite decide_False by done. by rewrite decide_True.
      * intros N1 N2. by rewrite !decide_False.
Qed.

End FileNames.

(** *** Metadata *)

Section MetadataFields.
Context {U : Unicode}.

Lemma two_keys_nonempty (t a : option text) :
  ({[ str "title" := t; str "author" := a ]} : dict (option text)) <> ∅.
Proof. apply insert_non_empty. Qed.

(** X9: [_extract_pdf_metadata]: a PDF that opens and gives its document
    information yields both keys, the document-information key ("/Title",
    "/Author") first and the plain key when that one is missing or empty; the
    empty mapping is returned on a failure and only then. *)
Theorem pdf_metadata_fields fs m :
  exists md evs,
    _extract_pdf_metadata fs m = (Ok md, Machine (self m) (trace m ++ evs)) /\
    (md = ∅ <->
     (exists e, open_PdfReader fs (filepath (self m)) = Raise e) \/
     (exists reader e, open_PdfReader fs (filepath (self m)) = Ok reader /\
                       reader_metadata reader = Raise e)) /\
    (forall reader info,
        open_PdfReader fs (filepath (self m)) = Ok reader ->
        reader_metadata reader = Ok info ->
        md !! str "title" =
          Some (if truthy (info_get info "/Title") then info_get info "/Title"
                else info_get info "title") /\
        md !! str "author" =
          Some (if truthy (info_get info "/Author") then info_get info "/Author"
                else info_get info "author")).
Proof.
  unfold _extract_pdf_metadata. munfold. simpl.
  destruct (open_PdfReader fs (filepath (self m))) as [reader|e] eqn:Hopen; simpl.
  2:{ eexists _, [_; _]. rewrite <- app_assoc. split; [reflexivity|].
      split; [|done]. split; [eauto|intros _; reflexivity]. }
  destruct (reader_metadata reader) as [info|e] eqn:Hmeta; simpl.
  2:{ eexists _, [_; _]. rewrite <- app_assoc. split; [reflexivity|].
      split; [|by intros ? ? [= <-]; rewrite Hmeta]. split; [eauto 10|intros _; reflexivity]. }
  eexists _, [_]. split; [reflexivity|]. split.
  - split; [by intros ?%two_keys_nonempty|].
    intros [[e [=]]|(r & e & [= <-] & He)]. by rewrite Hmeta in He.
  - intros ? ? [= <-] Hinfo. rewrite Hmeta in Hinfo. injection Hinfo as <-.
    rewrite lookup_insert_eq, lookup_insert_ne, lookup_singleton_eq by done.
    unfold py_or, info_get.
    destruct info as [[d|attrs]|]; [|done|done].
    case_bool_decide as Hd; [subst d|]; done.
Qed.

(** X10: [_extract_epub_metadata]: an EPUB that opens and answers both lookups
    yields the first Dublin Core title and the first creator (absent when
    there is none); the empty mapping is returned on a failure and only then,
    so a failure of the creator lookup loses the title too. *)
Theorem epub_metadata_fields fs m :
  exists md evs,
    _extract_epub_metadata fs m = (Ok md, Machine (self m) (trace m ++ evs)) /\
    (md = ∅ <->
     (exists e, open_read_epub fs (filepath (self m)) = Raise e) \/
     (exists book e, open_read_epub fs (filepath (self m)) = Ok book /\
        (get_metadata book (str "DC") (str "title") = Raise e \/
         get_metadata book (str "DC") (str "creator") = Raise e))) /\
    (forall book titles creators,
        open_read_epub fs (filepath (self m)) = Ok book ->
        get_metadata book (str "DC") (str "title") = Ok titles ->
        get_metadata book (str "DC") (str "creator") = Ok creators ->
        md = {[ str "title" := first_value titles; str "author" := first_value creators ]}).
Proof.
  unfold _extract_epub_metadata. munfold. simpl.
  destruct (open_read_epub fs (filepath (self m))) as [book|e] eqn:Hopen; simpl.
  2:{ eexists _, [_; _]. rewrite <- app_assoc. split; [reflexivity|].
      split; [|done]. split; [eauto|intros _; reflexivity]. }
  destruct (get_metadata book (str "DC") (str "title")) as [titles|e] eqn:Ht.
  2:{ simpl. eexists _, [_; _]. rewrite <- app_assoc. split; [reflexivity|].
      split; [|by intros ? ? ? [= <-]; rewrite Ht]. split; [eauto 10|intros _; reflexivity]. }
  destruct (get_metadata book (str "DC") (str "creator")) as [creators|e] eqn:Hc.
  2:{ destruct titles as [|[v1 ?] l1]; simpl; rewrite ?Ht, ?Hc; simpl;
        (eexists _, [_; _]; rewrite <- app_assoc; split; [reflexivity|];
         split; [|by intros ? ? ? [= <-]; rewrite Hc]; split; [eauto 10|intros _; reflexivity]). }
  exists {[ str "title" := first_value titles; str "author" := first_value creators ]},
    [EvReadEpub (filepath (self m))].
  split.
  - destruct titles as [|[v1 ?] l1], creators as [|[v2 ?] l2]; simpl;
      rewrite ?Ht, ?Hc; simpl; rewrite ?Ht, ?Hc; simpl; reflexivity.
  - split.
    + split; [by intros ?%two_keys_nonempty|].
      intros [[e [=]]|(b & e & [= <-] & [He|He])]; congruence.
    + intros ? ? ? [= <-] Ht' Hc'. rewrite Ht in Ht'. rewrite Hc in Hc'. congruence.
Qed.

End MetadataFields.

(** *** The scans *)

Section Scans.
Context {U : Unicode}.




(** X12: a text block that cannot be produced ends the scan: the blocks after
    it are not asked for, the failure is logged and the result is absent,
    whatever the later blocks hold. *)
Theorem scan_stops_at_failure fs m :
  (forall max_pages reader pages k page e,
      open_PdfReader fs (filepath (self m)) = Ok reader -> reader_pages reader = Ok pages ->
      slice_to max_pages pages !! k = Some page -> extract_text page = Raise e ->
      (forall j pj, (j < k)%nat -> pages !! j = Some pj -> silent (pdf_block pj)) ->
      _extract_isbn_from_pdf max_pages fs m =
      (Ok None,
       Machine (self m)
         (trace m ++ EvPdfReader (filepath (self m)) ::
            List.map EvExtractText (List.seq 0 (S k)) ++ [EvDebug "PDF ISBN error: %s" e]))) /\
  (forall book k item e,
      open_read_epub fs (filepath (self m)) = Ok book ->
      get_items_of_type book ITEM_DOCUMENT !! k = Some item -> get_content item = Raise e ->
      (forall j ij, (j < k)%nat -> get_items_of_type book ITEM_DOCUMENT !! j = Some ij ->
         silent (epub_block ij)) ->
      _extract_isbn_from_epub fs m =
      (Ok None,
       Machine (self m)
         (trace m ++ EvReadEpub (filepath (self m)) ::
            List.map EvGetContent (List.seq 0 (S k)) ++ [EvDebug "EPUB ISBN error: %s" e]))).
Proof.
  split.
  - intros max_pages reader pages k page e Hopen Hpages Hk Hraise Hbefore.
    rewrite extract_isbn_from_pdf_run. simpl. rewrite Hopen, Hpages.
    unfold scan_result, scan_events.
    rewrite (scan_raise _ 0 k e); [done| |].
    + rewrite map_lookup, Hk. simpl. unfold pdf_block. by rewrite Hraise.
    + intros j b Hj Hb. rewrite map_lookup in Hb.
      destruct (slice_to max_pages pages !! j) as [pj|] eqn:Hpj; [|done]. injection Hb as <-.
      apply (Hbefore j); [done|]. unfold slice_to in Hpj.
      destruct (max_pages <? 0)%Z; by apply lookup_take_Some in Hpj as [? _].
  - intros book k item e Hopen Hk Hraise Hbefore.
    rewrite extract_isbn_from_epub_run. simpl. rewrite Hopen.
    unfold scan_result, scan_events.
    rewrite (scan_raise _ 0 k e); [done| |].
    + rewrite map_lookup, Hk. simpl. unfold epub_block. by rewrite Hraise.
    + intros j b Hj Hb. rewrite map_lookup in Hb.
      destruct (get_items_of_type book ITEM_DOCUMENT !! j) as [ij|] eqn:Hij; [|done].
      injection Hb as <-. by apply (Hbefore j).
Qed.

Lemma scan_some blocks :
  forall i r,
    scan_result (scan i blocks) = Some r ->
    exists k t,
      blocks !! k = Some (Ok t) /\ _find_isbn_in_text t = Ok (Some r) /\
      forall j b, (j < k)%nat -> blocks !! j = Some b -> silent b.
Proof.
  induction blocks as [|b blocks IH]; intros i r H; [done|].
  cbn [scan] in H. destruct b as [t|e]; [|done]. unfold block_verdict in H.
  destruct (_find_isbn_in_text t) as [[c|]|e] eqn:Hfind; [| |done].
  - rewrite (find_truthy t c Hfind) in H. unfold scan_result in H. simpl in H.
    injection H as ->. exists O, t. repeat split; auto. intros; lia.
  - simpl in H. unfold scan_result in H. simpl in H.
    destruct (IH (S i) r H) as (k & t' & Hk & Hf & Hbefore).
    exists (S k), t'. repeat split; auto.
    intros [|j] b' Hj Hb'; simpl in Hb'.
    + injection Hb' as <-. by exists t.
    + apply (Hbefore j); [lia|done].
Qed.

Lemma find_empty : _find_isbn_in_text [] = Ok None.
Proof. reflexivity. Qed.

(** X13: an ISBN is reported only when a block of the scan holds it: it is the
    candidate of one of the pages of the slice, or of one of the document
    items, and no block before that one had a match or failed. *)
Theorem isbn_comes_from_a_block fs m r :
  (forall max_pages,
      (_extract_isbn_from_pdf max_pages fs m).1 = Ok (Some r) ->
      exists reader pages k page t,
        open_PdfReader fs (filepath (self m)) = Ok reader /\ reader_pages reader = Ok pages /\
        slice_to max_pages pages !! k = Some page /\ extract_text page = Ok (Some t) /\
        _find_isbn_in_text t = Ok (Some r) /\
        forall j pj, (j < k)%nat -> pages !! j = Some pj -> silent (pdf_block pj)) /\
  ((_extract_isbn_from_epub fs m).1 = Ok (Some r) ->
   exists book k item content,
     open_read_epub fs (filepath (self m)) = Ok book /\
     get_items_of_type book ITEM_DOCUMENT !! k = Some item /\
     get_content item = Ok content /\
     _find_isbn_in_text (decode_utf8_ignore content) = Ok (Some r) /\
     forall j ij, (j < k)%nat -> get_items_of_type book ITEM_DOCUMENT !! j = Some ij ->
       silent (epub_block ij)).
Proof.
  split.
  - intros max_pages. rewrite extract_isbn_from_pdf_run. simpl.
    destruct (open_PdfReader fs (filepath (self m))) as [reader|e]; [|done].
    destruct (reader_pages reader) as [pages|e] eqn:Hpages; [|done]. simpl.
    intros [= H]. apply scan_some in H as (k & t & Hk & Hfind & Hbefore).
    rewrite map_lookup in Hk.
    destruct (slice_to max_pages pages !! k) as [page|] eqn:Hpage; [|done].
    simpl in Hk. injection Hk as Hk. unfold pdf_block in Hk.
    destruct (extract_text page) as [extracted|e] eqn:Hx; [|done]. injection Hk as <-.
    exists reader, pages, k, page.
    destruct extracted as [[|c x]|]; simpl in Hfind;
      [by rewrite find_empty in Hfind| |by rewrite find_empty in Hfind].
    exists (c :: x). repeat split; auto.
    intros j pj Hj Hpj. apply (Hbefore j); [done|]. rewrite map_lookup.
    assert (slice_to max_pages pages !! j = Some pj) as ->; [|done].
    apply lookup_lt_Some in Hpage. unfold slice_to in *.
    destruct (max_pages <? 0)%Z; rewrite length_take in Hpage;
      rewrite lookup_take_lt by lia; done.
  - rewrite extract_isbn_from_epub_run. simpl.
    destruct (open_read_epub fs (filepath (self m))) as [book|e]; [|done]. simpl.
    intros [= H]. apply scan_some in H as (k & t & Hk & Hfind & Hbefore).
    rewrite map_lookup in Hk.
    destruct (get_items_of_type book ITEM_DOCUMENT !! k) as [item|] eqn:Hitem; [|done].
    simpl in Hk. injection Hk as Hk. unfold epub_block in Hk.
    destruct (get_content item) as [content|e] eqn:Hx; [|done]. injection Hk as <-.
    exists book, k, item, content. repeat split; auto.
    intros j ij Hj Hij. apply (Hbefore j); [done|]. by rewrite map_lookup, Hij.
Qed.

End Scans.

(** *** The life of a descriptor *)

Section Lifetime.
Context {U : Unicode}.

Lemma format_step fs m :
  exists v b',
    format fs m = (Ok v, Machine b' (trace m)) /\
    cached_metadata b' = cached_metadata (self m) /\ cached_isbn b' = cached_isbn (self m).
Proof.
  rewrite format_run. destruct (cached_format (self m)); destruct m as [b tr]; by eexists _, _.
Qed.

Lemma metadata_step fs m :
  exists v b' evs,
    metadata fs m = (Ok v, Machine b' (trace m ++ evs)) /\
    (opens evs + missing (cached_metadata b') <= missing (cached_metadata (self m)))%nat /\
    cached_isbn b' = cached_isbn (self m) /\ cached_metadata b' = Some v.
Proof.
  rewrite metadata_run. unfold cached_property. simpl.
  destruct (cached_metadata (self m)) as [v|] eqn:Hc.
  - exists v, (self m), []. rewrite app_nil_r. destruct m. simpl in *. by rewrite Hc.
  - unfold mbind, M_bind.
    destruct (format_step fs m) as (fmt & b1 & -> & _ & Hi).
    destruct (extracts_metadata_extractor fmt fs (Machine b1 (trace m)))
      as (v & evs & -> & Hn).
    exists v, (slot_set metadata_slot v b1), evs. simpl. repeat split; auto. lia.
Qed.

Lemma isbn_step fs m :
  exists v b' evs,
    isbn fs m = (Ok v, Machine b' (trace m ++ evs)) /\
    (opens evs + missing (cached_isbn b') <= missing (cached_isbn (self m)))%nat /\
    cached_metadata b' = cached_metadata (self m) /\ cached_isbn b' = Some v.
Proof.
  rewrite isbn_run. unfold cached_property. simpl.
  destruct (cached_isbn (self m)) as [v|] eqn:Hc.
  - exists v, (self m), []. rewrite app_nil_r. destruct m. simpl in *. by rewrite Hc.
  - unfold mbind, M_bind.
    destruct (format_step fs m) as (fmt & b1 & -> & Hm & _).
    destruct (extracts_isbn_extractor fmt fs (Machine b1 (trace m)))
      as (v & evs & -> & Hn).
    exists v, (slot_set isbn_slot v b1), evs. simpl. repeat split; auto. lia.
Qed.

Lemma title_step fs m :
  exists v b' evs,
    title fs m = (Ok v, Machine b' (trace m ++ evs)) /\
    (opens evs + missing (cached_metadata b') <= missing (cached_metadata (self m)))%nat /\
    cached_isbn b' = cached_isbn (self m).
Proof.
  unfold title, cached_property. simpl.
  destruct (cached_title (self m)) as [v|] eqn:Hc.
  - exists v, (self m), []. rewrite app_nil_r. destruct m. simpl in *.
    repeat split; auto.
  - unfold mbind, M_bind, mret, M_ret.
    destruct (metadata_step fs m) as (md & b1 & evs & -> & Hn & Hi & _).
    by eexists _, _, evs.
Qed.

Lemma author_step fs m :
  exists v b' evs,
    author fs m = (Ok v, Machine b' (trace m ++ evs)) /\
    (opens evs + missing (cached_metadata b') <= missing (cached_metadata (self m)))%nat /\
    cached_isbn b' = cached_isbn (self m).
Proof.
  unfold author, cached_property. simpl.
  destruct (cached_author (self m)) as [v|] eqn:Hc.
  - exists v, (self m), []. rewrite app_nil_r. destruct m. simpl in *.
    repeat split; auto.
  - unfold mbind, M_bind, mret, M_ret.
    destruct (metadata_step fs m) as (md & b1 & evs & -> & Hn & Hi & _).
    by eexists _, _, evs.
Qed.

(** What one read costs: a file is opened only to fill the slot of
    [metadata] or of [isbn]. *)
Lemma read_step a fs m :
  exists evs,
    trace (read a fs m).2 = trace m ++ evs /\
    let b := self m in
    let b' := self (read a fs m).2 in
    match a with
    | Isbn =>
        (opens evs + missing (cached_isbn b') <= missing (cached_isbn b))%nat /\
        cached_metadata b' = cached_metadata b
    | _ =>
        (opens evs + missing (cached_metadata b') <= missing (cached_metadata b))%nat /\
        cached_isbn b' = cached_isbn b
    end.
Proof.
  destruct a; unfold read, mbind, M_bind, mret, M_ret.
  - destruct (format_step fs m) as (v & b' & -> & Hm & Hi). exists []. simpl.
    rewrite app_nil_r, Hm. split; [done|]. split; [lia|done].
  - destruct (metadata_step fs m) as (v & b' & evs & -> & Hn & Hi & _). by exists evs.
  - destruct (title_step fs m) as (v & b' & evs & -> & Hn & Hi). by exists evs.
  - destruct (author_step fs m) as (v & b' & evs & -> & Hn & Hi). by exists evs.
  - destruct (isbn_step fs m) as (v & b' & evs & -> & Hn & Hi & _). by exists evs.
Qed.

Lemma reads_cons a fs l m : reads ((a, fs) :: l) m = reads l (read a fs m).2.
Proof. reflexivity. Qed.

Lemma reads_cost l :
  forall m,
    let m' := reads l m in
    (opens (trace m') + missing (cached_metadata (self m')) + missing (cached_isbn (self m'))
     <= opens (trace m) + missing (cached_metadata (self m)) + missing (cached_isbn (self m)))%nat /\
    (Forall (fun r => r.1 <> Isbn) l ->
     (opens (trace m') + missing (cached_metadata (self m'))
      <= opens (trace m) + missing (cached_metadata (self m)))%nat) /\
    (Forall (fun r => r.1 = Isbn) l ->
     (opens (trace m') + missing (cached_isbn (self m'))
      <= opens (trace m) + missing (cached_isbn (self m)))%nat).
Proof.
  induction l as [|[a fs] l IH]; intros m; [simpl; auto|].
  cbv zeta. rewrite reads_cons.
  destruct (IH (read a fs m).2) as (IH1 & IH2 & IH3). cbv zeta in *.
  destruct (read_step a fs m) as (evs & Htr & Hstep). cbv zeta in Hstep.
  rewrite Htr, opens_app in IH1, IH2, IH3.
  destruct a; destruct Hstep as [Hn Hkeep]; rewrite Hkeep in *;
    (split; [lia|]; split; intros [Ha Hl]%Forall_cons; simpl in Ha; try done;
     first [specialize (IH2 Hl); lia|specialize (IH3 Hl); lia]).
Qed.

(** X14: over the whole life of a descriptor its file is opened at most twice,
    whatever is read, in whatever order and however often: at most once for
    [metadata], [title] and [author] together, and at most once for [isbn]. *)
Theorem file_opened_at_most_twice p l :
  let evs := trace (reads l (Machine (new_Book p) [])) in
  (opens evs <= 2)%nat /\
  (Forall (fun r => r.1 <> Isbn) l -> (opens evs <= 1)%nat) /\
  (Forall (fun r => r.1 = Isbn) l -> (opens evs <= 1)%nat).
Proof.
  destruct (reads_cost l (Machine (new_Book p) [])) as (H1 & H2 & H3). simpl in *.
  split; [lia|]. split; intros Hl; [specialize (H2 Hl)|specialize (H3 Hl)]; lia.
Qed.

End Lifetime.

(** *** The cache hangs together *)

Section Consistency.
Context {U : Unicode}.

Lemma metadata_extractor_keys fmt fs m :
  exists v evs,
    metadata_extractor fmt fs m = (Ok v, Machine (self m) (trace m ++ evs)) /\ well_keyed v.
Proof.
  unfold metadata_extractor, well_keyed. repeat case_decide.
  - unfold _extract_pdf_metadata. munfold. simpl.
    destruct (open_PdfReader fs (filepath (self m))) as [reader|e]; simpl.
    + destruct (reader_metadata reader) as [md|e]; simpl.
      * eexists _, [_]. split; [reflexivity|]. right. by eexists _, _.
      * eexists _, [_; _]. rewrite <- app_assoc. split; [reflexivity|by left].
    + eexists _, [_; _]. rewrite <- app_assoc. split; [reflexivity|by left].
  - unfold _extract_epub_metadata. munfold. simpl.
    destruct (open_read_epub fs (filepath (self m))) as [book|e]; simpl.
    2:{ eexists _, [_; _]. rewrite <- app_assoc. split; [reflexivity|by left]. }
    destruct (get_metadata book (str "DC") (str "title")) as [[|[v1 ?] l1]|e]; simpl;
      try (eexists _, [_; _]; rewrite <- app_assoc; split; [reflexivity|by left]);
      destruct (get_metadata book (str "DC") (str "creator")) as [[|[v2 ?] l2]|e]; simpl;
      try (eexists _, [_; _]; rewrite <- app_assoc; split; [reflexivity|by left]);
      (eexists _, [_]; split; [reflexivity|]; right; by eexists _, _).
  - exists ∅, []. rewrite app_nil_r. destruct m. split; [done|by left].
Qed.

Lemma consistent_new p : consistent p (new_Book p).
Proof. unfold consistent. simpl. repeat split; try done; auto. by intros [|]. Qed.

(** The descriptor after [format]. *)
Lemma format_self fs m :
  self (format fs m).2 =
  match cached_format (self m) with
  | Some _ => self m
  | None => slot_set format_slot (format_of (filepath (self m))) (self m)
  end.
Proof. rewrite format_run. by destruct (cached_format (self m)). Qed.

Lemma format_consistent p fs m :
  consistent p (self m) -> consistent p (self (format fs m).2).
Proof.
  intros H. rewrite format_self. destruct (cached_format (self m)) eqn:Hf; [done|].
  destruct m as [[q cf cm ct ca ci] tr]. unfold consistent in *. simpl in *.
  destruct H as (-> & H2 & H3 & H4 & H5 & H6). repeat split; auto.
Qed.

Lemma format_cached p fs m :
  consistent p (self m) -> cached_format (self (format fs m).2) = Some (format_of p).
Proof.
  intros (Hp & [H2|H2] & _). 
  - rewrite format_self, H2. simpl. by rewrite Hp.
  - by rewrite format_self, H2.
Qed.

Lemma format_keeps fs m :
  cached_metadata (self (format fs m).2) = cached_metadata (self m) /\
  cached_title (self (format fs m).2) = cached_title (self m) /\
  cached_author (self (format fs m).2) = cached_author (self m) /\
  cached_isbn (self (format fs m).2) = cached_isbn (self m).
Proof. rewrite format_self. by destruct (cached_format (self m)). Qed.

(** The descriptor after [metadata]: consistent, with the value cached. *)
Lemma metadata_consistent p fs m :
  consistent p (self m) ->
  exists md m',
    metadata fs m = (Ok md, m') /\ consistent p (self m') /\
    cached_metadata (self m') = Some md /\
    cached_title (self m') = cached_title (self m) /\
    cached_author (self m') = cached_author (self m).
Proof.
  intros H. rewrite metadata_run. unfold cached_property.
  destruct (slot_get metadata_slot (self m)) as [md|] eqn:Hc; [by exists md, m|].
  simpl in Hc. unfold mbind, M_bind.
  pose proof (format_consistent p fs m H) as Hf.
  pose proof (format_cached p fs m H) as Hfc.
  destruct (format_keeps fs m) as (Km & Kt & Ka & Ki).
  destruct (returns_format fs m) as (fmt & b1 & evs1 & E1 & _). rewrite E1 in *. simpl in *.
  destruct (metadata_extractor_keys fmt fs (Machine b1 (trace m ++ evs1)))
    as (md & evs & -> & Hk).
  eexists md, _. split; [reflexivity|]. simpl.
  destruct b1 as [q cf cm ct ca ci]. unfold consistent in *. simpl in *. subst cf cm ct ca.
  destruct Hf as (-> & _ & _ & _ & H5 & H6).
  rewrite Hc in H5, H6. repeat split; auto.
  - intros ? [= <-]. done.
  - intros t Ht. by destruct (H5 t Ht) as (? & ? & _).
  - intros a Ha. by destruct (H6 a Ha) as (? & ? & _).
Qed.

Lemma title_consistent p fs m :
  consistent p (self m) -> consistent p (self (title fs m).2).
Proof.
  intros H. unfold title, cached_property.
  destruct (slot_get title_slot (self m)) as [t|] eqn:Hc; [done|].
  unfold mbind, M_bind, mret, M_ret.
  destruct (metadata_consistent p fs m H) as (md & [b1 tr1] & -> & Hb & Hmd & _ & _).
  simpl in *. destruct b1 as [q cf cm ct ca ci]. unfold consistent in *. simpl in *.
  destruct Hb as (-> & H2 & H3 & H4 & H5 & H6). subst cm. repeat split; auto.
  intros t [= <-]. by exists md.
Qed.

Lemma author_consistent p fs m :
  consistent p (self m) -> consistent p (self (author fs m).2).
Proof.
  intros H. unfold author, cached_property.
  destruct (slot_get author_slot (self m)) as [t|] eqn:Hc; [done|].
  unfold mbind, M_bind, mret, M_ret.
  destruct (metadata_consistent p fs m H) as (md & [b1 tr1] & -> & Hb & Hmd & _ & _).
  simpl in *. destruct b1 as [q cf cm ct ca ci]. unfold consistent in *. simpl in *.
  destruct Hb as (-> & H2 & H3 & H4 & H5 & H6). subst cm. repeat split; auto.
  intros t [= <-]. by exists md.
Qed.

Lemma isbn_consistent p fs m :
  consistent p (self m) -> consistent p (self (isbn fs m).2).
Proof.
  intros H. rewrite isbn_run. unfold cached_property.
  destruct (slot_get isbn_slot (self m)) as [v|] eqn:Hc; [done|].
  simpl in Hc. unfold mbind, M_bind.
  pose proof (format_consistent p fs m H) as Hf.
  pose proof (format_cached p fs m H) as Hfc.
  destruct (returns_format fs m) as (fmt & b1 & evs1 & E1 & _). rewrite E1 in *. simpl in *.
  destruct (extracts_isbn_extractor fmt fs (Machine b1 (trace m ++ evs1)))
    as (v & evs & -> & _).
  simpl. destruct b1 as [q cf cm ct ca ci]. unfold consistent in *. simpl in *.
  destruct Hf as (-> & H2 & H3 & H4 & H5 & H6). repeat split; auto.
Qed.

Lemma read_consistent p a fs m :
  consistent p (self m) -> consistent p (self (read a fs m).2).
Proof.
  intros H. destruct a; unfold read, mbind, M_bind, mret, M_ret.
  - pose proof (format_consistent p fs m H) as Hc.
    destruct (returns_format fs m) as (v & b' & evs & E & _). by rewrite E in *.
  - destruct (metadata_consistent p fs m H) as (md & m' & -> & Hc & _). done.
  - pose proof (title_consistent p fs m H) as Hc.
    destruct (returns_title fs m) as (v & b' & evs & E & _). by rewrite E in *.
  - pose proof (author_consistent p fs m H) as Hc.
    destruct (returns_author fs m) as (v & b' & evs & E & _). by rewrite E in *.
  - pose proof (isbn_consistent p fs m H) as Hc.
    destruct (returns_isbn fs m) as (v & b' & evs & E & _). by rewrite E in *.
Qed.

Lemma reachable_consistent p b : reachable p b -> consistent p b.
Proof.
  induction 1 as [|a fs b tr _ IH]; [apply consistent_new|].
  by apply (read_consistent p a fs (Machine b tr)).
Qed.

(** X15: the cache of a descriptor hangs together whatever has been read and
    whatever has become of the file in between: title and author are entries
    of the one cached metadata mapping, which is empty or has both keys, and
    the cached format is the format of the path. *)
Theorem cache_consistent p b :
  reachable p b -> consistent p b.
Proof. apply reachable_consistent. Qed.

Lemma title_cached fs m :
  exists t m', title fs m = (Ok t, m') /\ cached_title (self m') = Some t.
Proof.
  unfold title, cached_property.
  destruct (slot_get title_slot (self m)) as [t|] eqn:Hc; [by exists t, m|].
  unfold mbind, M_bind, mret, M_ret.
  destruct (returns_metadata fs m) as (md & b1 & evs & -> & _). by eexists _, _.
Qed.

Lemma author_cached p fs m :
  consistent p (self m) ->
  exists a m',
    author fs m = (Ok a, m') /\ cached_author (self m') = Some a /\
    cached_title (self m') = cached_title (self m).
Proof.
  intros H. unfold author, cached_property.
  destruct (slot_get author_slot (self m)) as [a|] eqn:Hc; [by exists a, m|].
  unfold mbind, M_bind, mret, M_ret.
  destruct (metadata_consistent p fs m H) as (md & m' & -> & _ & _ & Kt & _).
  by eexists _, _.
Qed.

(** X16: title and author agree with the metadata: read one after the other on
    a descriptor, whatever the files are at each read, they are the entries
    of one mapping, and that mapping is what [metadata] returns from then
    on. *)
Theorem title_and_author_agree p b tr fs1 fs2 :
  reachable p b ->
  exists t a m1 m2 md,
    title fs1 (Machine b tr) = (Ok t, m1) /\ author fs2 m1 = (Ok a, m2) /\
    t = dict_get md (str "title") /\ a = dict_get md (str "author") /\
    forall fs3, metadata fs3 m2 = (Ok md, m2).
Proof.
  intros Hb%reachable_consistent.
  pose proof (title_consistent p fs1 (Machine b tr) Hb) as H1.
  destruct (title_cached fs1 (Machine b tr)) as (t & m1 & E1 & Ht). rewrite E1 in H1.
  simpl in H1.
  pose proof (author_consistent p fs2 m1 H1) as H2.
  destruct (author_cached p fs2 m1 H1) as (a & m2 & E2 & Ha & Hkeep). rewrite E2 in H2.
  simpl in H2. rewrite Ht in Hkeep.
  destruct H2 as (_ & _ & _ & _ & H5 & H6).
  destruct (H5 t Hkeep) as (md & Hmd & ->).
  destruct (H6 a Ha) as (md' & Hmd' & ->). rewrite Hmd in Hmd'. injection Hmd' as <-.
  exists (dict_get md (str "title")), (dict_get md (str "author")), m1, m2, md.
  repeat split; auto. intros fs3. rewrite metadata_run. by apply cached_hit.
Qed.

End Consistency.

(** *** Display and the script *)

Section ScriptFacts.
Context {U : Unicode}.



(** X17: [__str__] never raises and opens at most one file; it shows the title,
    or "Unknown" for a title that is absent or empty, and the format of the
    path. *)
Theorem str_shows_title_and_format p b fs tr :
  reachable p b ->
  exists t b' evs,
    (title fs (Machine b tr)).1 = Ok t /\
    __str__ fs (Machine b tr) =
      (Ok ((match t with Some (c :: s) => c :: s | _ => str "Unknown" end) ++
           str " (" ++ format_of p ++ str ")"),
       Machine b' (tr ++ evs)) /\
    (opens evs <= 1)%nat.
Proof.
  intros [Hok Hp]%reachable_ok.
  destruct (title_ok fs (Machine b tr) Hok) as (t & b1 & evs & E & Hok1 & Hp1 & _).
  destruct (returns_title fs (Machine b tr)) as (t' & b1' & evs' & E' & Hn).
  rewrite E in E'. simpl in E'. injection E' as <- <- Hevs. apply app_inv_head in Hevs as <-.
  pose proof (format_value fs (Machine b1 (tr ++ evs)) Hok1) as Hv.
  destruct (format_step fs (Machine b1 (tr ++ evs))) as (fmt & b2 & E2 & _).
  rewrite E2 in Hv. simpl in Hv, Hp1. injection Hv as ->. rewrite Hp1, Hp in E2.
  exists t, b2, evs. rewrite E. split; [done|]. split; [|done].
  unfold __str__, mbind, M_bind, mret, M_ret. rewrite E. simpl in *. rewrite E2.
  do 3 f_equal. by destruct t as [[|c s]|].
Qed.

(** X18: the script touches the document libraries only for a path that exists
    and is a file; otherwise it prints one line and exits with status 1
    (wrong number of arguments, missing path, not a file). *)
Theorem main_guards sys argv :
  (length argv <> 2%nat ->
   main sys argv =
   (SystemExit 1, [str "Usage: python book_classificator.py <path_to_book>"], [])) /\
  (forall prog arg,
      argv = [prog; arg] ->
      (path_exists sys (Path_ sys arg) = Ok false ->
       main sys argv =
       (SystemExit 1, [str "File not found: " ++ path_str sys (Path_ sys arg)], [])) /\
      (path_exists sys (Path_ sys arg) = Ok true ->
       path_is_file sys (Path_ sys arg) = Ok false ->
       main sys argv =
       (SystemExit 1, [str "Not a file: " ++ path_str sys (Path_ sys arg)], []))) /\
  ((main sys argv).2 <> [] ->
   exists prog arg,
     argv = [prog; arg] /\ path_exists sys (Path_ sys arg) = Ok true /\
     path_is_file sys (Path_ sys arg) = Ok true).
Proof.
  split; [|split].
  - intros Hlen. destruct argv as [|? [|? [|? ?]]]; try reflexivity. by destruct Hlen.
  - intros prog arg ->. split.
    + intros He. unfold main. by rewrite He.
    + intros He Hf. unfold main. by rewrite He, Hf.
  - destruct argv as [|prog [|arg [|? ?]]]; try done. unfold main. cbv zeta.
    destruct (path_exists sys (Path_ sys arg)) as [[|]|e] eqn:He; try done.
    destruct (path_is_file sys (Path_ sys arg)) as [[|]|e] eqn:Hf; try done.
    intros _. by exists prog, arg.
Qed.


End ScriptFacts.

(** ** Further examples *)

Section FurtherExamples.
#[local] Existing Instance ascii_tables.

Lemma find_isbn_leftmost_witness :
  _find_isbn_in_text (str "Copyright 2018. ISBN 0-306-40615-2") = Ok (Some (str "2018")) /\
  exists pre rs m raw,
    str "Copyright 2018. ISBN 0-306-40615-2" = pre ++ rs /\
    matches _ISBN_RE (MState (rev pre) rs None) m /\
    group1 m = Some raw /\ str "2018" = _normalize_isbn raw /\
    forall pre' rs' m',
      str "Copyright 2018. ISBN 0-306-40615-2" = pre' ++ rs' ->
      (length pre' < length pre)%nat ->
      ~ matches _ISBN_RE (MState (rev pre') rs' None) m'.
Proof.
  split; [vm_compute; reflexivity|].
  apply find_isbn_leftmost. vm_compute. reflexivity.
Defined.

Lemma find_isbn_delimited_witness :
  _find_isbn_in_text (str "see ISBN-10: 0-306-40615-2.") = Ok (Some (str "0306406152")) /\
  exists pre p raw post,
    str "see ISBN-10: 0-306-40615-2." = pre ++ p ++ raw ++ post /\
    lang isbn_prefix p /\ str "0306406152" = _normalize_isbn raw /\
    match rev pre with [] => true | c :: _ => negb (isword c) end = true /\
    word_end post = true.
Proof.
  split; [vm_compute; reflexivity|].
  apply find_isbn_delimited. vm_compute. reflexivity.
Defined.

Lemma find_isbn_needs_three_digits_witness :
  (length (List.filter isdecimal (str "Chapter 12")) < 3)%nat /\
  _find_isbn_in_text (str "Chapter 12") = Ok None.
Proof.
  split; [vm_compute; lia|]. apply find_isbn_needs_three_digits. vm_compute. lia.
Defined.

Lemma find_isbn_digit_run_witness :
  forallb ascii_isdecimal (str "1999") = true /\ (4 <= length (str "1999"))%nat /\
  clear_before (str "First printed in ") = true /\ number_end (str " by the press") = true /\
  _find_isbn_in_text (str "First printed in " ++ str "1999" ++ str " by the press")
  = Ok (Some (str "1999")).
Proof.
  split; [vm_compute; reflexivity|]. split; [vm_compute; lia|].
  split; [vm_compute; reflexivity|]. split; [vm_compute; reflexivity|].
  apply find_isbn_digit_run; [vm_compute; reflexivity|vm_compute; lia|
                              vm_compute; reflexivity|vm_compute; reflexivity].
Defined.


Lemma isbn_comes_from_a_block_witness :
  (_extract_isbn_from_epub sample_files (Machine (new_Book (path_of "sample.epub")) [])).1
    = Ok (Some (str "080442957X")) /\
  exists book k item content,
    open_read_epub sample_files (path_of "sample.epub") = Ok book /\
    get_items_of_type book ITEM_DOCUMENT !! k = Some item /\
    get_content item = Ok content /\
    _find_isbn_in_text (decode_utf8_ignore content) = Ok (Some (str "080442957X")) /\
    forall j ij, (j < k)%nat -> get_items_of_type book ITEM_DOCUMENT !! j = Some ij ->
      silent (epub_block ij).
Proof.
  split; [vm_compute; reflexivity|].
  apply (proj2 (isbn_comes_from_a_block sample_files
                  (Machine (new_Book (path_of "sample.epub")) []) (str "080442957X"))).
  vm_compute. reflexivity.
Defined.

Lemma cache_consistent_witness :
  reachable (path_of "sample.epub")
    (self (read Author sample_files (Machine (new_Book (path_of "sample.epub")) [])).2) /\
  consistent (path_of "sample.epub")
    (self (read Author sample_files (Machine (new_Book (path_of "sample.epub")) [])).2).
Proof.
  assert (Hreach : reachable (path_of "sample.epub")
            (self (read Author sample_files (Machine (new_Book (path_of "sample.epub")) [])).2))
    by apply reach_read, reach_new.
  split; [exact Hreach|]. apply cache_consistent. exact Hreach.
Defined.

Lemma title_and_author_agree_witness :
  reachable (path_of "sample.epub") (new_Book (path_of "sample.epub")) /\
  exists t a m1 m2 md,
    title sample_files (Machine (new_Book (path_of "sample.epub")) []) = (Ok t, m1) /\
    author sample_files m1 = (Ok a, m2) /\
    t = dict_get md (str "title") /\ a = dict_get md (str "author") /\
    forall fs3, metadata fs3 m2 = (Ok md, m2).
Proof.
  split; [apply reach_new|].
  apply (title_and_author_agree (path_of "sample.epub")). apply reach_new.
Defined.

Lemma str_shows_title_and_format_witness :
  reachable (path_of "notes.txt") (new_Book (path_of "notes.txt")) /\
  (__str__ sample_files (Machine (new_Book (path_of "notes.txt")) [])).1
    = Ok (str "Unknown (Unknown)").
Proof.
  split; [apply reach_new|].
  destruct (str_shows_title_and_format (path_of "notes.txt") (new_Book (path_of "notes.txt"))
              sample_files [] (reach_new _)) as (t & b' & evs & Ht & E & _).
  rewrite E. vm_compute in Ht. injection Ht as <-. vm_compute. reflexivity.
Defined.


(** What the script prints for the sample EPUB. *)
Example main_sample_epub :
  main sample_system [str "book_classificator.py"; str "sample.epub"] =
  (Finished,
   [str "Book: Sample Book (EPUB)"; str "Title: Sample Book"; str "Author: Jane Doe"],
   [EvReadEpub (path_of "sample.epub")]).
Proof. vm_compute. reflexivity. Qed.

End FurtherExamples.
